(* ===== verification/_CoqProject ===== *)
-Q . S2P
Prelude.v
SortBy.v
Report.v
MetaMap.v
Effects.v
AsyncLimit.v
Selector.v
Tooling.v
Archive.v
Sched.v
Engine.v
Watcher.v
AsyncMachine.v
Retrieve.v
