(* ===== verification/Prelude.v ===== *)
(** * A verification development of the deploy engine of dmc

    The repository (jamessimone/dmc) is a command-line tool that pushes
    locally stored Salesforce metadata to an org.  Its core is
    [src/commands/deploy.js]; [src/commands/watch.js] re-invokes it on
    file changes and [src/commands/retrieve.js] downloads metadata.

    ** The program and its parts

    - Strategy selection ([run], deploy.js 612-634): Tooling API
      ("incremental") or Metadata API ("archive") deploy.
    - Tooling pipeline ([runToolingDeploy], deploy.js 244-304) and its
      phases [createStubFiles] (18-54), [createStaticResources] (56-94),
      [createContainer] (96-107), [createDeployArtifacts] (109-158),
      [deployContainer] with its poll loop (161-227) and
      [deleteContainer] (229-242), guarded by the module-level counter
      [timesBeingDeployed] (16) and a [.finally] cleanup.
    - Metadata pipeline ([runMetadataDeploy], deploy.js 449-559): builds a
      zip, checks every file, submits and polls through the client.
    - Result reporter ([logDetails], deploy.js 306-447): classifies,
      sorts and prints a deploy-result payload, with test coverage.
    - Entry point [run] (561-637): loads the configuration, the ignore
      file, the client and the org's index, searches the local files
      unless the guard is set, and runs one pipeline.
    - The watcher (watch.js 18-60): globs the watched files and starts
      [deploy.run] on every change, without waiting for earlier runs.
    - The retrieve command (retrieve.js 207-307) and [getFilePaths]
      (22-146): lists the org's files by groups of three types, walking
      into folders, filters them on a namespace, retrieves a zip and
      writes it into [src/].
    - Collaborators the sources only call: the metadata map
      (lib/metadata-map), the Salesforce client (lib/sf-client), async's
      [mapLimit], lodash's [sortBy], [uniq] and [chunk], fs-extra, the
      JavaScript event loop.  They are modelled from the spec and from
      their documented behaviour and marked spec_modelled.

    ** Files (in dependency order)

    - [Prelude]   (this file): JavaScript values and their truthiness and
      string conversion, the order on strings used by lodash, lodash's
      [_.uniq], shared list lemmas, the hint database [dmc] and the
      development's tactics.
    - [SortBy]    lodash's stable [_.sortBy] as a stable insertion sort over
      a total preorder on keys: sortedness, permutation, stability.
    - [Report]    the deploy-result payload and [logDetails] as a function
      from a payload to the list of log lines it prints (or the TypeError
      it raises).
    - [MetaMap]   members, the metadata map [map.meta] (an association
      list in key order), [createMap], [autoLoad], [addFiles],
      [setMetaId], [getStub] and the queries the pipelines make.
    - [Effects]   the effect model: a free monad [prog] whose nodes are the
      calls the code awaits (remote API, file system, configuration),
      reads and writes of the guard counter and of the run's metadata map,
      log output, rejection and uncaught exceptions; an interpreter [exec]
      against an environment that answers each call from the history of
      calls.
    - [AsyncLimit] async's [mapLimit] with fail-fast errors.
    - [Selector]  the choice of deploy API and the options the [deploy]
      command line gives [run].
    - [Tooling]   the Tooling pipeline, its guard and its cleanup.
    - [Archive]   the Metadata pipeline: the file checks, the archive and
      its [force-app/main/default] to [src] remapping, the settlement
      handlers and the guard.
    - [Sched]     the event loop: a program runs in chunks from one awaited
      call to the next ([chunk], [run_alone]); a scheduler [sched_step]
      spawns runs and resumes any waiting one, sharing the guard, and
      records which run owns it.  The guard discipline [gdp] (a run
      writes the guard only in the chunk that read it clear, or while it
      holds it) gives the invariant [sys_inv] of every reachable state.
    - [Engine]    [run] and the watcher; every run is disciplined, so the
      invariant applies to overlapping runs.
    - [Watcher]   the change handler of watch.js with its deploy callback
      (35-56): what [deploy.run] resolves with as a JavaScript value,
      [JSON.stringify] of the errors, lib/resolve's [resolve(cb, fn)],
      the report printed for one event and a session of events
      ([run] of watch.js, 18-60).
    - [AsyncMachine] async's eachOfLimit and _asyncMap as a machine: the
      [replenish] loop starts elements while fewer than [limit] are in
      flight, [complete i] is the callback of element [i], the final
      callback is wrapped by [once]; a step lets any element in flight
      call back.  Instantiated at the stub batch of [createStubFiles]
      (deploy.js 20-52): [insert_done] is the insert callback with its
      [map.setMetaId], [stubs_callback] the callback of [mapLimit].
    - [Retrieve]  the retrieve command: grouping by three (Equations, well
      founded), the folder walk, the namespace filter, local paths, and
      the writing of the files.

    ** What the theorems show

    - [Tooling]: the container is deleted exactly once on every settled
      run; a run entered with the guard set makes no call; the guard stays
      set when setup fails before a container exists; every stub missing
      an id is inserted; the poll loop stops at the first terminal status
      and re-polls before it (fuel bounds); the [res] and [cb] reference
      errors; a [Failed] deploy that ran tests crashes in [logDetails]
      called without [opts]; the leak of the container when a phase never
      settles.
    - [Selector]: the API chosen by the conditions of [run].
    - [Report]: sortedness of the printed successes, the coverage rows in
      descending order with their percentages, the lines printed before
      the TypeError without [opts], the agreement of the two [cType]
      tests, and the sort key that differs from the spec's.
    - [Archive]: a missing file makes the run hang without finalizing the
      archive; the exact calls and archive entries when every file exists;
      the guard reset only on success; the no-op while the guard is set;
      [replace] renames the first occurrence of the per-component root
      wherever it is in the path, an inner one included.
    - [Engine]: under any interleaving of runs started by the watcher the
      guard is 0 or 1 and is 1 exactly when a run holds it; no other run
      changes it while it is held; once its owner waits on nothing it is
      stuck at 1; with the guard set a run still makes its four loading
      calls; an empty search rejects; the watched files.  Two examples
      run concrete schedules: the Tooling cleanup lets a second run in
      before the first container is deleted, and a failed Metadata deploy
      blocks every later run.
    - [Retrieve]: the groups of three concatenate back to the types and
      have one to three types each, ceil(n/3) of them; with [--ns] the files found in folders
      are dropped (a concrete org loses its document); the order of the
      file operations and that a failed retrieve leaves [src/] alone; an
      empty listing rejects; the folder walk ends at depth two.
    - [Watcher]: an update event makes the calls and prints the lines of
      its run, then one report decided by how the run settles; a failed
      run is reported as "deploy failed: {}" because [JSON.stringify] of
      an [Error] drops its message; once the guard is left set, no later
      change of the watch session is deployed or reported.
    - [AsyncMachine]: every state of the five-wide stub batch is well
      formed (at most five inserts in flight, each once); every schedule
      ends after at most one callback per stub with the callback of
      [mapLimit] called; when every insert succeeds every schedule gives
      the ids of the in-order model of [Tooling] (refinement); a failed
      insert rejects the batch at once while the inserts in flight go on
      and still write their ids into the map.

    ** Not modelled

    - The interleavings inside the batches of [createStaticResources],
      [createDeployArtifacts], the file checks of [runMetadataDeploy] and
      [getFilePaths]: they use the in-order schedule of [AsyncLimit];
      [AsyncMachine] shows it is what every schedule gives when the
      iterators answer without depending on the order of the calls, and
      treats the concurrent schedules of the stub batch.  async's
      RangeError for a limit below 1 (the code always passes 5).
    - Commander's option parsing and [cliUtil.executeRun] (only the
      [.action]s of [deploy] and [watch] are modelled), the zip bytes, the
      poller's events, and the bodies of the collaborators above (only
      their answers are).  lib/resolve is modelled by what its name and
      its use say (the callback receives the settled promise); how the
      client serializes its own error objects is a parameter of
      [Watcher] ([remote_json]).

    ** Modelling choices

    - JavaScript values that the code tests for truthiness or concatenates
      into strings are [jsval]; numbers are integers ([Z]) except the
      coverage percentage, which is an exact rational ([Q]).
    - Asynchrony: every callback or promise the code waits on is one
      [Await] node of [prog]; synchronous code between two awaits runs
      atomically, as in JavaScript.  async's [mapLimit] is modelled by its
      in-order schedule (each iterator completes before the next starts),
      one of the schedules the real library may take; [AsyncMachine]
      models all of them for the stub batch.  Its [replenish] loop takes
      the bound [S limit], one more than the number of elements it can
      start, which is proved enough ([replenish_spec]).
    - The poll loop of [deployContainer] has no bound in the code; the
      model takes a fuel argument and stops with [Stall] ("still polling")
      when it runs out; the liveness theorems show that fuel larger than
      the index of the first terminal status suffices.
    - The logger: every [logger.x(...)] call of the modelled functions is
      a [Log] node with its level and text, the report of [logDetails]
      included; [logger.highlight] only adds colour codes and is the
      identity here.  The events of the pollers ([promise.poller.on]) are
      not modelled.
    - Overlapping runs: a thread of [Sched] is a run's remaining [prog];
      the scheduler resumes any thread whose call can answer, so every
      order in which the org's answers arrive is covered.  The recursion
      of [getFilePaths] over folders and the poll loop take fuel; the
      theorems give the fuel that suffices (the depth two of folders,
      the index of the first terminal status).
    - [toLowerCase] is modelled on ASCII letters.
    - In the Metadata pipeline the caller's assignment
      [timesBeingDeployed = 1] is placed right after the start of
      [deployAndPoll]; in JavaScript it runs after the synchronous start of
      the first file checks, which never read the guard, so a single run
      has the same calls and outcome either way.
*)

From Stdlib Require Export String Ascii ZArith List Bool Lia.
From Stdlib Require Export Permutation Sorted.
From Stdlib Require DecimalString.
Import ListNotations.
Export ListNotations.
Open Scope string_scope.

Create HintDb dmc.
Create Rewrite HintDb dmc_rw.

Declare Scope js_scope.
Delimit Scope js_scope with js.

(** ** JavaScript values *)

(** The dynamic values that the code inspects with [!x], [x || y],
    [_.isString] or string concatenation. *)
Inductive jsval : Type :=
| JUndefined
| JNull
| JBool (b : bool)
| JNum (z : Z)
| JStr (s : string).

(** JavaScript truthiness: [undefined], [null], [false], [0] and [""] are
    falsy, everything else is truthy. *)
Definition truthy (v : jsval) : bool :=
  match v with
  | JUndefined | JNull => false
  | JBool b => b
  | JNum z => negb (Z.eqb z 0)
  | JStr s => negb (String.eqb s "")
  end.

(** [a || b] returns [a] when it is truthy, otherwise [b]. *)
Definition js_or (a b : jsval) : jsval := if truthy a then a else b.

(** [_.isString v]. *)
Definition is_string (v : jsval) : bool :=
  match v with JStr _ => true | _ => false end.

(** The decimal rendering of an integer, as [String(n)] gives it. *)
Definition z_to_string (z : Z) : string :=
  DecimalString.NilZero.string_of_int (Z.to_int z).

(** [String(v)], the conversion string concatenation applies. *)
Definition js_to_string (v : jsval) : string :=
  match v with
  | JUndefined => "undefined"
  | JNull => "null"
  | JBool true => "true"
  | JBool false => "false"
  | JNum z => z_to_string z
  | JStr s => s
  end.

Notation "'!!' v" := (negb (truthy v)) (at level 35, right associativity) : js_scope.
Infix "||" := js_or : js_scope.

(** A string field that may be empty: truthy exactly when non-empty. *)
Definition truthy_str (s : string) : bool := negb (String.eqb s "").

(** An identifier field ([o.id]) that may be absent ([undefined], [null])
    or present, possibly as the empty string. *)
Definition truthy_id (o : option string) : bool :=
  match o with None => false | Some s => truthy_str s end.

(** The result of a computation that may throw: a value or an error. *)
Inductive result (E A : Type) : Type :=
| Ok (a : A)
| Err (e : E).
Arguments Ok {E A} a.
Arguments Err {E A} e.

(** ** The order on strings

    lodash compares string sort keys with [<] and [>], which for ASCII
    strings is the lexicographic order of [String.compare]. *)

Lemma ascii_compare_trans (a b c : ascii) r :
  r <> Eq -> Ascii.compare a b = r -> Ascii.compare b c = r -> Ascii.compare a c = r.
Proof.
  unfold Ascii.compare. intros Hr Hab Hbc.
  destruct r; [congruence| |].
  - rewrite N.compare_lt_iff in *. lia.
  - rewrite N.compare_gt_iff in *. lia.
Qed.

Lemma ascii_compare_refl (a : ascii) : Ascii.compare a a = Eq.
Proof. unfold Ascii.compare. apply N.compare_refl. Qed.

Lemma string_compare_refl (s : string) : String.compare s s = Eq.
Proof. induction s; simpl; [reflexivity|]. now rewrite ascii_compare_refl. Qed.

Lemma string_compare_trans_ne (s t u : string) r :
  r <> Eq -> String.compare s t = r -> String.compare t u = r -> String.compare s u = r.
Proof.
  revert t u. induction s as [|a s IH]; intros [|b t] [|c u] Hr Hst Htu;
    simpl in *; try congruence.
  destruct (Ascii.compare a b) eqn:Hab; destruct (Ascii.compare b c) eqn:Hbc;
    repeat match goal with
           | H : Ascii.compare _ _ = Eq |- _ => apply Ascii.compare_eq_iff in H; subst
           end;
    try rewrite ascii_compare_refl; try rewrite Hab; try rewrite Hbc; subst; try congruence;
    eauto.
  all: erewrite ascii_compare_trans; eauto; congruence.
Qed.

(** [String.leb] is a total preorder. *)
Lemma string_leb_trans (s t u : string) :
  String.leb s t = true -> String.leb t u = true -> String.leb s u = true.
Proof.
  unfold String.leb.
  destruct (String.compare s t) eqn:Hst; try discriminate; intros _;
  destruct (String.compare t u) eqn:Htu; try discriminate; intros _;
  try (apply String.compare_eq_iff in Hst; subst s);
  try (apply String.compare_eq_iff in Htu; subst t);
  try rewrite string_compare_refl; try rewrite Hst; try rewrite Htu; try reflexivity.
  rewrite (string_compare_trans_ne s t u Lt); auto; congruence.
Qed.

(** ** Shared list lemmas *)

Lemma length_filter_le {A} (f : A -> bool) (l : list A) : length (filter f l) <= length l.
Proof. induction l as [|x l IH]; simpl; [lia|]. destruct (f x); simpl; lia. Qed.

Lemma filter_ext_in {A} (f g : A -> bool) (l : list A) :
  (forall x, In x l -> f x = g x) -> filter f l = filter g l.
Proof.
  induction l as [|x l IH]; intros H; simpl; [reflexivity|].
  rewrite (H x (or_introl eq_refl)), IH by (intros; apply H; now right). reflexivity.
Qed.

Lemma filter_all_false {A} (f : A -> bool) (l : list A) :
  (forall x, In x l -> f x = false) -> filter f l = [].
Proof.
  induction l as [|x l IH]; intros H; simpl; [reflexivity|].
  rewrite (H x (or_introl eq_refl)). apply IH. intros; apply H; now right.
Qed.

Lemma Sorted_weaken {A} (R S : A -> A -> Prop) (l : list A) :
  (forall a b, R a b -> S a b) -> Sorted R l -> Sorted S l.
Proof.
  intros HRS Hs. induction Hs as [|a l Hs IH Hhd]; constructor; [exact IH|].
  destruct Hhd; constructor; auto.
Qed.

(** [_.uniq] on strings: the first occurrence of each element, in order. *)
Fixpoint uniq (l : list string) : list string :=
  match l with
  | [] => []
  | x :: l' => x :: filter (fun y => negb (String.eqb y x)) (uniq l')
  end.

(** [_.uniq] keeps one copy of each element. *)
Lemma uniq_spec (l : list string) : NoDup (uniq l) /\ forall x, In x (uniq l) <-> In x l.
Proof.
  induction l as [|a l [Hnd Hin]]; simpl; [split; [constructor|tauto]|].
  split.
  - constructor; [|now apply NoDup_filter].
    rewrite filter_In. intros [_ H]. rewrite String.eqb_refl in H. discriminate.
  - intros x. rewrite filter_In, Hin.
    destruct (String.eqb_spec x a) as [->|Hne]; simpl; intuition.
Qed.

Lemma Forall2_in_r {A B} (R : A -> B -> Prop) xs ys y :
  Forall2 R xs ys -> In y ys -> exists x, In x xs /\ R x y.
Proof.
  induction 1 as [|x y' xs ys Hxy _ IH]; intros Hin; [destruct Hin|].
  destruct Hin as [<-|Hin]; [exists x; split; [left|]; auto|].
  destruct (IH Hin) as (x' & ? & ?). exists x'. split; [right|]; auto.
Qed.

#[export] Hint Resolve string_leb_trans String.leb_total : dmc.
#[export] Hint Resolve length_filter_le : dmc.

(** ** Tactics *)

(** Invert a hypothesis and clean up. *)
Ltac inv H := inversion H; subst; clear H.

(** Case on the scrutinee of the first [match] or [if] in the goal. *)
Ltac destruct_goal_match :=
  match goal with
  | |- context [match ?x with _ => _ end] => let E := fresh "E" in destruct x eqn:E
  end.
