(* ===== verification/SortBy.v ===== *)
(** * lodash's [_.sortBy]

    [_.sortBy(coll, iteratee)] (lodash 4, [baseSortBy] with
    [compareAscending] and the index tie-break) orders a collection by a
    key in ascending order and keeps elements with equal keys in their
    original order.  It is modelled as an insertion sort that inserts each
    element before the first element whose key is not smaller; the proofs
    show the three properties that characterise a stable sort: the result
    is a permutation of the input, it is sorted by key, and for every key
    the elements with that key keep their order.  The section is generic
    over the key type and a total preorder on it, and is used by [Report]
    with strings ([String.leb]) and rationals. *)

From S2P Require Import Prelude.

Section SortBy.
Context {A K : Type} (leb : K -> K -> bool) (key : A -> K).
Hypothesis leb_total : forall x y, leb x y = true \/ leb y x = true.
Hypothesis leb_trans : forall x y z, leb x y = true -> leb y z = true -> leb x z = true.

(** Two keys compare equal when each is below the other. *)
Definition key_equiv (a b : K) : bool := leb a b && leb b a.

(** Insert [x] before the first element whose key is at least its key. *)
Fixpoint insert_by (x : A) (l : list A) : list A :=
  match l with
  | [] => [x]
  | y :: l' => if leb (key x) (key y) then x :: l else y :: insert_by x l'
  end.

(** [_.sortBy(l, key)]. *)
Definition sortBy (l : list A) : list A := fold_right insert_by [] l.

(** The order the result is sorted in. *)
Definition key_le (a b : A) : Prop := leb (key a) (key b) = true.

Lemma insert_by_perm x l : Permutation (insert_by x l) (x :: l).
Proof.
  induction l as [|y l IH]; simpl; [auto|].
  destruct (leb (key x) (key y)); [auto|].
  eapply perm_trans; [apply perm_skip, IH|]. apply perm_swap.
Qed.

Lemma insert_by_hdrel y x l :
  HdRel key_le y l -> key_le y x -> HdRel key_le y (insert_by x l).
Proof.
  destruct l as [|z l]; simpl; intros H Hyx; [now constructor|].
  destruct (leb (key x) (key z)); constructor; [exact Hyx|]. now inversion H.
Qed.

Lemma insert_by_sorted x l : Sorted key_le l -> Sorted key_le (insert_by x l).
Proof.
  induction l as [|y l IH]; simpl; intros Hs; [auto|].
  destruct (leb (key x) (key y)) eqn:Hxy.
  - constructor; [exact Hs | now constructor].
  - apply Sorted_inv in Hs as [Hs Hhd]. constructor; [now apply IH|].
    apply insert_by_hdrel; [exact Hhd|].
    unfold key_le. destruct (leb_total (key x) (key y)); congruence.
Qed.

(** Inserting [x] leaves the elements of any other key class alone and
    puts [x] in front of the elements of its own class. *)
Lemma filter_insert_by (k : K) x l :
  filter (fun y => key_equiv (key y) k) (insert_by x l) =
  filter (fun y => key_equiv (key y) k) (x :: l).
Proof.
  unfold key_equiv.
  induction l as [|y l IH]; simpl; [reflexivity|].
  destruct (leb (key x) (key y)) eqn:Hxy; [reflexivity|].
  simpl. rewrite IH. simpl.
  destruct (leb (key x) k) eqn:H1, (leb k (key x)) eqn:H2; simpl; auto.
  destruct (leb (key y) k) eqn:H3, (leb k (key y)) eqn:H4; simpl; auto.
  (* y is in the class of k, hence of x: then key x <= key y *)
  exfalso. rewrite (leb_trans _ _ _ H1 H4) in Hxy. discriminate.
Qed.

(** ** The properties of [sortBy] *)

Lemma sortBy_perm (l : list A) : Permutation (sortBy l) l.
Proof.
  induction l as [|x l IH]; simpl; [auto|].
  eapply perm_trans; [apply insert_by_perm|]. now apply perm_skip.
Qed.

Lemma sortBy_sorted (l : list A) : Sorted key_le (sortBy l).
Proof. induction l; simpl; [constructor|]. now apply insert_by_sorted. Qed.

Lemma sortBy_stable (k : K) (l : list A) :
  filter (fun y => key_equiv (key y) k) (sortBy l) =
  filter (fun y => key_equiv (key y) k) l.
Proof.
  induction l as [|x l IH]; simpl; [reflexivity|].
  rewrite filter_insert_by. simpl. now rewrite IH.
Qed.

Lemma sortBy_length (l : list A) : length (sortBy l) = length l.
Proof. apply Permutation_length, sortBy_perm. Qed.

Lemma sortBy_In x (l : list A) : In x (sortBy l) <-> In x l.
Proof. split; apply Permutation_in; [|symmetry]; apply sortBy_perm. Qed.
End SortBy.

Arguments sortBy {A K} leb key l.
Arguments key_le {A K} leb key a b.

#[export] Hint Resolve sortBy_perm sortBy_sorted : dmc.
