(* ===== verification/Report.v ===== *)
(** * The result reporter: [logDetails] (deploy.js 306-447)

    The deploy-result payload of the Metadata API ([details]: component
    successes, component failures, test results) and [logDetails], which
    prints it.  [logDetails] is modelled as a function from the payload
    and the command options to the list of log lines it prints, or to the
    [TypeError] it throws when it reads [opts.coverage] with [opts]
    undefined.  Log lines are kept structured where the code formats a
    float ([totalTime / 1000], [coverage.toFixed(2)]); every other line is
    the string the code builds.  The errors the pipelines reject with
    ([jserr]) are declared here because a rejection of the Metadata API
    carries a payload. *)

From S2P Require Import Prelude SortBy.
From Stdlib Require Import QArith.

(** ** The payload *)

(** One element of [details.componentSuccesses]. *)
Record componentSuccess := {
  cs_componentType : jsval;
  cs_fullName : jsval;
  cs_created : jsval;
  cs_changed : jsval;
  cs_deleted : jsval
}.

(** One element of [details.componentFailures]. *)
Record componentFailure := {
  cf_componentType : jsval;
  cf_fullName : jsval;
  cf_problemType : jsval;
  cf_lineNumber : jsval;
  cf_columnNumber : jsval;
  cf_problem : jsval
}.

(** One element of [runTestResult.codeCoverage]. *)
Record coverageEntry := {
  cc_type : jsval;
  cc_name : jsval;
  cc_numLocations : Z;
  cc_numLocationsNotCovered : Z
}.

(** [details.runTestResult]; absent arrays are [None]. *)
Record testResult := {
  numTestsRun : Z;
  numFailures : jsval;
  totalTime : Z;
  codeCoverage : option (list coverageEntry);
  codeCoverageWarnings : option (list jsval);
  failures : option (list jsval)
}.

(** [details]; an absent field is [None] (an empty array is truthy). *)
Record details := {
  componentSuccesses : option (list componentSuccess);
  componentFailures : option (list componentFailure);
  runTestResult : option testResult
}.

(** The command options [logDetails] reads ([opts.coverage]). *)
Record report_opts := { opt_coverage : jsval }.

(** Errors the code throws or rejects with. *)
Inductive jserr : Type :=
| Error (msg : string)                         (* new Error(msg) *)
| ReferenceError (ident : string)              (* use of an undeclared variable *)
| TypeError (msg : string)                     (* property read on undefined *)
| RemoteError (message : jsval) (errorMessage : jsval) (payload : option details).

(** ** Log lines *)

(** The methods of lib/logger: [success], [error], [list], [listError],
    [create], [update], [destroy], the no-change marker, [log] and [info]. *)
Inductive level : Type :=
| LSuccess | LError | LList | LListError | LCreate | LUpdate | LDestroy | LNoChange
| LLog | LInfo.

(** [err.message]. *)
Definition err_message (e : jserr) : string :=
  match e with
  | Error m => m
  | ReferenceError x => x ++ " is not defined"
  | TypeError m => m
  | RemoteError m _ _ => js_to_string m
  end.

(** [logger.highlight(s)]: the colour codes it adds are not modelled. *)
Definition hl (s : string) : string := s.

(** A coverage row, the object built at deploy.js 406-413. *)
Record coverage_row := {
  cr_type : jsval;
  cr_name : jsval;
  cr_locations : Z;
  cr_notCovered : Z;
  cr_covered : Z;
  cr_coverage : Q
}.

Inductive logline : Type :=
| Line (lvl : level) (text : string)
| TotalTimeLine (ms : Z)            (* "total time: " + totalTime / 1000 + "s" *)
| CoverageLine (row : coverage_row)  (* coverage.toFixed(2) + "% => " + ... *)
| ErrorValue (v : jsval).           (* logger.error(f) on a raw value *)

(** ** Component successes (deploy.js 311-341) *)

(** [e.cType] for a success (314-317). *)
Definition success_cType (e : componentSuccess) : string :=
  match cs_componentType e with
  | JStr s => if truthy_str s then s ++ ": " else ""
  | _ => ""
  end.

(** [e.method] (319-325): the first of created, changed, deleted that is truthy. *)
Definition success_method (e : componentSuccess) : level :=
  if truthy (cs_created e) then LCreate
  else if truthy (cs_changed e) then LUpdate
  else if truthy (cs_deleted e) then LDestroy
  else LNoChange.

(** The sort key [e.cType + e.fullName] (329-331). *)
Definition success_key (e : componentSuccess) : string :=
  success_cType e ++ js_to_string (cs_fullName e).

Definition sort_successes (l : list componentSuccess) : list componentSuccess :=
  sortBy String.leb success_key l.

(** [changed] (333): some success other than package.xml has [changed]. *)
Definition any_changed (l : list componentSuccess) : bool :=
  existsb (fun e => negb (match cs_fullName e with JStr "package.xml" => true | _ => false end)
                    && truthy (cs_changed e)) l.

(** [logger[e.method](e.cType + e.fullName)] (334). *)
Definition success_line (e : componentSuccess) : logline :=
  Line (success_method e) (success_key e).

Definition success_lines (l : list componentSuccess) : list logline :=
  (map success_line (sort_successes l)
  ++ (if any_changed l
      then [Line LSuccess ("component successes [" ++ z_to_string (Z.of_nat (length l)) ++ "] ====>")]
      else []))%list.

(** ** Component failures (deploy.js 343-378) *)

(** [e.cType] for a failure (350-353). *)
Definition failure_cType (e : componentFailure) : string :=
  if truthy (cf_componentType e) && is_string (cf_componentType e)
  then js_to_string (cf_componentType e) ++ ": " else "".

Definition failure_key (e : componentFailure) : string :=
  failure_cType e ++ js_to_string (cf_fullName e).

Definition sort_failures (l : list componentFailure) : list componentFailure :=
  sortBy String.leb failure_key l.

(** The line printed for a failure (361-376). *)
Definition failure_text (e : componentFailure) : string :=
  "[" ++ failure_cType e ++ js_to_string (cf_fullName e) ++ "] "
  ++ js_to_string (cf_problemType e) ++ " at " ++ "l:"
  ++ js_to_string (js_or (cf_lineNumber e) (JStr "0")) ++ "/" ++ "c:"
  ++ js_to_string (js_or (cf_columnNumber e) (JStr "0")) ++ " " ++ "=> "
  ++ js_to_string (cf_problem e).

Definition failure_lines (l : list componentFailure) : list logline :=
  Line LError ("component failures [" ++ z_to_string (Z.of_nat (length l)) ++ "] ====>")
  :: map (fun e => Line LListError (failure_text e)) (sort_failures l).

(** ** Test results and coverage (deploy.js 380-446) *)

(** [(covered / locations) * 100], and 100 when [locations === 0] (397-404). *)
Definition coverage_pct (locations notCovered : Z) : Q :=
  if Z.eqb locations 0 then 100%Q
  else ((inject_Z (locations - notCovered) / inject_Z locations) * 100)%Q.

Definition coverage_row_of (c : coverageEntry) : coverage_row := {|
  cr_type := cc_type c;
  cr_name := cc_name c;
  cr_locations := cc_numLocations c;
  cr_notCovered := cc_numLocationsNotCovered c;
  cr_covered := cc_numLocations c - cc_numLocationsNotCovered c;
  cr_coverage := coverage_pct (cc_numLocations c) (cc_numLocationsNotCovered c)
|}.

(** [_(cc).map(...).sortBy(c => c.coverage * -1)] (395-417). *)
Definition coverage_rows (cc : list coverageEntry) : list coverage_row :=
  sortBy Qle_bool (fun r => (- cr_coverage r)%Q) (map coverage_row_of cc).

Definition coverage_lines (cc : list coverageEntry) : list logline :=
  Line LSuccess "code coverage results ====>" :: map CoverageLine (coverage_rows cc).

Definition warning_lines (ccw : option (list jsval)) : list logline :=
  match ccw with
  | Some ((_ :: _) as ws) =>
      Line LError "code coverage warnings ====>" :: map (fun w => Line LList (js_to_string w)) ws
  | _ => []
  end.

(** The head of the test section (380-389). *)
Definition test_head (r : testResult) : list logline :=
  [Line (if truthy (numFailures r) then LError else LSuccess) "test results ====>";
   Line LList ("tests run: " ++ z_to_string (numTestsRun r));
   Line LList ("failures: " ++ js_to_string (numFailures r));
   TotalTimeLine (totalTime r)].

(** An exception thrown by [logDetails], with the lines printed before it. *)
Definition thrown : Type := (list logline * jserr)%type.

(** The test section (380-446); reading [opts.coverage] (392) throws when
    [opts] is undefined, after the head has been printed. *)
Definition test_lines (opts : option report_opts) (r : testResult)
  : result thrown (list logline) :=
  match opts with
  | None => Err (test_head r, TypeError "Cannot read properties of undefined (reading 'coverage')")
  | Some o =>
      let cov :=
        match codeCoverage r with
        | Some ((_ :: _) as cc) => if truthy (opt_coverage o) then coverage_lines cc else []
        | _ => []
        end in
      Ok (test_head r ++ cov ++ warning_lines (codeCoverageWarnings r)
               ++ map ErrorValue (match failures r with Some fs => fs | None => [] end))%list
  end.

(** ** [logDetails(details, opts)] *)
Definition logDetails (d : option details) (opts : option report_opts)
  : result thrown (list logline) :=
  match d with
  | None => Ok []
  | Some d =>
      let succ := match componentSuccesses d with Some l => success_lines l | None => [] end in
      let fail := match componentFailures d with Some l => failure_lines l | None => [] end in
      match runTestResult d with
      | Some r =>
          if Z.ltb 0 (numTestsRun r) then
            match test_lines opts r with
            | Ok t => Ok (succ ++ fail ++ t)%list
            | Err (printed, e) => Err (succ ++ fail ++ printed, e)%list
            end
          else Ok (succ ++ fail)%list
      | None => Ok (succ ++ fail)%list
      end
  end.

(** ** Properties of the reporter *)

Lemma sort_successes_spec (l : list componentSuccess) :
  Permutation (sort_successes l) l /\
  Sorted (key_le String.leb success_key) (sort_successes l) /\
  (forall k, filter (fun e => key_equiv String.leb (success_key e) k) (sort_successes l) =
             filter (fun e => key_equiv String.leb (success_key e) k) l).
Proof.
  unfold sort_successes. repeat split.
  - apply sortBy_perm.
  - apply sortBy_sorted; eauto with dmc.
  - intros k. apply sortBy_stable. eauto with dmc.
Qed.

(** C10: every output of [logDetails] begins with one line per component
    success, in an order that is a permutation of the payload's, sorted
    by the key [cType + fullName], and stable for equal keys. *)
Theorem logDetails_successes_sorted d opts out l :
  logDetails (Some d) opts = Ok out ->
  componentSuccesses d = Some l ->
  exists s rest,
    out = (map success_line s ++ rest)%list /\
    Permutation s l /\
    Sorted (key_le String.leb success_key) s /\
    (forall k, filter (fun e => key_equiv String.leb (success_key e) k) s =
               filter (fun e => key_equiv String.leb (success_key e) k) l).
Proof.
  intros Hlog Hl. exists (sort_successes l).
  unfold logDetails, success_lines in Hlog. rewrite Hl in Hlog.
  destruct (runTestResult d) as [r|]; [destruct (0 <? numTestsRun r)%Z; [destruct (test_lines opts r) as [?|[? ?]]|]|];
    inv Hlog; try discriminate;
    (eexists; split; [rewrite <- !app_assoc; reflexivity | apply sort_successes_spec]).
Qed.

(** C14: the success and failure branches compute [cType] with different
    tests ([_.isString(t) && t.length] and [t && _.isString(t)]) that agree
    on every value of [componentType]. *)
Theorem cType_success_failure_agree (s : componentSuccess) (f : componentFailure) :
  cs_componentType s = cf_componentType f -> success_cType s = failure_cType f.
Proof.
  unfold success_cType, failure_cType. intros ->.
  destruct (cf_componentType f) as [| |[]|z|t]; simpl; try reflexivity.
  - now destruct (negb (z =? 0)%Z).
  - unfold truthy_str. now destruct (t =? "").
Qed.

Lemma Qle_bool_total (x y : Q) : Qle_bool x y = true \/ Qle_bool y x = true.
Proof.
  rewrite !Qle_bool_iff. destruct (Qlt_le_dec x y); [left; now apply Qlt_le_weak | now right].
Qed.

Lemma Qle_bool_trans (x y z : Q) :
  Qle_bool x y = true -> Qle_bool y z = true -> Qle_bool x z = true.
Proof. rewrite !Qle_bool_iff. apply Qle_trans. Qed.

#[export] Hint Resolve Qle_bool_total Qle_bool_trans : dmc.

Lemma sorted_neg_desc (l : list coverage_row) :
  Sorted (key_le Qle_bool (fun r => (- cr_coverage r)%Q)) l ->
  Sorted (fun a b => (cr_coverage b <= cr_coverage a)%Q) l.
Proof.
  apply Sorted_weaken. unfold key_le. intros a b H%Qle_bool_iff.
  rewrite <- (Qopp_involutive (cr_coverage a)), <- (Qopp_involutive (cr_coverage b)).
  now apply Qopp_le_compat.
Qed.

(** C12: the coverage rows are printed in order of decreasing coverage and
    are exactly the rows of the payload's [codeCoverage] entries. *)
Theorem coverage_rows_descending (cc : list coverageEntry) :
  Sorted (fun a b => (cr_coverage b <= cr_coverage a)%Q) (coverage_rows cc) /\
  Permutation (coverage_rows cc) (map coverage_row_of cc).
Proof.
  unfold coverage_rows. split.
  - apply sorted_neg_desc, sortBy_sorted; eauto with dmc.
  - apply sortBy_perm.
Qed.

Lemma coverage_pct_bounds (l nc : Z) :
  (0 <= nc <= l)%Z -> (0 <= coverage_pct l nc <= 100)%Q.
Proof.
  intros Hb. unfold coverage_pct.
  destruct (Z.eqb_spec l 0) as [->|Hl]; [split; discriminate|].
  assert (Hpos : (0 < inject_Z l)%Q) by (change 0%Q with (inject_Z 0); rewrite <- Zlt_Qlt; lia).
  split.
  - apply Qmult_le_0_compat; [|discriminate].
    apply Qle_shift_div_l; [exact Hpos|]. rewrite Qmult_0_l. change 0%Q with (inject_Z 0). rewrite <- Zle_Qle; lia.
  - setoid_replace 100%Q with (1 * 100)%Q at 2 by reflexivity.
    apply Qmult_le_compat_r; [|discriminate].
    apply Qle_shift_div_r; [exact Hpos|]. rewrite Qmult_1_l, <- Zle_Qle. lia.
Qed.

(** C11: every printed coverage row with no code locations reports exactly
    100%, and a row whose uncovered count lies between 0 and its location
    count reports a percentage between 0 and 100. *)
Theorem coverage_row_percentage (cc : list coverageEntry) (r : coverage_row) :
  In r (coverage_rows cc) ->
  (cr_locations r = 0%Z -> cr_coverage r = 100%Q) /\
  ((0 <= cr_notCovered r <= cr_locations r)%Z -> (0 <= cr_coverage r <= 100)%Q).
Proof.
  intros Hin. apply (sortBy_In Qle_bool) in Hin. apply in_map_iff in Hin as [c [<- _]].
  simpl. split.
  - intros ->. reflexivity.
  - apply coverage_pct_bounds.
Qed.

(** When the payload has no test result, or one with no test run, the
    report has no test section: [logDetails] succeeds whatever the options
    (even undefined) and prints only component lines. *)
Theorem logDetails_no_test_section d opts :
  (runTestResult d = None \/
   exists r, runTestResult d = Some r /\ (numTestsRun r <= 0)%Z) ->
  exists out, logDetails (Some d) opts = Ok out /\
              forall x, In x out -> exists lvl t, x = Line lvl t.
Proof.
  intros Hr. unfold logDetails.
  assert (Hcomp : forall x,
    In x ((match componentSuccesses d with Some l => success_lines l | None => [] end) ++
          (match componentFailures d with Some l => failure_lines l | None => [] end))%list ->
    exists lvl t, x = Line lvl t).
  { intros x Hx. apply in_app_or in Hx as [Hx|Hx].
    - destruct (componentSuccesses d) as [l|]; [|contradiction].
      unfold success_lines in Hx. apply in_app_or in Hx as [Hx|Hx].
      + apply in_map_iff in Hx as [e [<- _]]. unfold success_line. eauto.
      + destruct (any_changed l); [destruct Hx as [<-|[]]; eauto | contradiction].
    - destruct (componentFailures d) as [l|]; [|contradiction].
      destruct Hx as [<-|Hx]; [eauto|]. apply in_map_iff in Hx as [e [<- _]]. eauto. }
  destruct Hr as [->|[r [-> Hle]]].
  - eexists; split; [reflexivity|exact Hcomp].
  - replace (0 <? numTestsRun r)%Z with false by (symmetry; apply Z.ltb_ge; lia).
    eexists; split; [reflexivity|exact Hcomp].
Qed.

(** With options given, [logDetails] never throws. *)
Lemma logDetails_with_opts_ok d o : exists out, logDetails d (Some o) = Ok out.
Proof.
  unfold logDetails. destruct d as [d|]; [|eauto].
  destruct (runTestResult d) as [r|]; [|eauto].
  destruct (0 <? numTestsRun r)%Z; [|eauto]. simpl. eauto.
Qed.

(** C13: with tests reported ([numTestsRun > 0]) and [opts] undefined, as in
    the call [logDetails(resp.DeployDetails)] of [deployContainer],
    [logDetails] prints the success and failure lines and the head of the
    test section, then throws a [TypeError] reading [opts.coverage]. *)
Theorem logDetails_undefined_opts_throws d r :
  runTestResult d = Some r -> (0 < numTestsRun r)%Z ->
  logDetails (Some d) None =
    Err ((match componentSuccesses d with Some l => success_lines l | None => [] end) ++
         (match componentFailures d with Some l => failure_lines l | None => [] end) ++ test_head r,
         TypeError "Cannot read properties of undefined (reading 'coverage')")%list.
Proof.
  intros Hr Hpos. unfold logDetails. rewrite Hr.
  now replace (0 <? numTestsRun r)%Z with true by (symmetry; apply Z.ltb_lt; lia).
Qed.

(** The order the spec states for components: by component type, then by
    full name. *)
Definition type_then_name_leb (a b : string * string) : bool :=
  String.ltb (fst a) (fst b) || (String.eqb (fst a) (fst b) && String.leb (snd a) (snd b)).

Definition type_and_name (e : componentSuccess) : string * string :=
  (js_to_string (cs_componentType e), js_to_string (cs_fullName e)).

(** The [package.xml] entry of a deploy result, which has an empty
    component type, and an Apex class. *)
Definition package_xml_success : componentSuccess := {|
  cs_componentType := JStr ""; cs_fullName := JStr "package.xml";
  cs_created := JBool false; cs_changed := JBool true; cs_deleted := JBool false |}.

Definition apex_class_success : componentSuccess := {|
  cs_componentType := JStr "ApexClass"; cs_fullName := JStr "Foo";
  cs_created := JBool false; cs_changed := JBool true; cs_deleted := JBool false |}.

(** The code sorts successes by the concatenated string
    [cType + fullName], not by (component type, full name): the
    [package.xml] entry, whose type is empty, is printed after
    [ApexClass: Foo], where the type-then-name order puts it first. *)
Theorem successes_not_sorted_by_type_then_name :
  sort_successes [package_xml_success; apex_class_success]
    = [apex_class_success; package_xml_success] /\
  sortBy type_then_name_leb type_and_name [package_xml_success; apex_class_success]
    = [package_xml_success; apex_class_success].
Proof. split; vm_compute; reflexivity. Qed.

(** ** Concrete payloads *)

Definition sample_details : details := {|
  componentSuccesses := Some [package_xml_success; apex_class_success];
  componentFailures := None;
  runTestResult := None |}.

Definition sample_opts : report_opts := {| opt_coverage := JBool true |}.

Lemma logDetails_successes_sorted_witness :
  exists s rest,
    [Line LUpdate "ApexClass: Foo"; Line LUpdate "package.xml";
     Line LSuccess "component successes [2] ====>"] = (map success_line s ++ rest)%list /\
    Permutation s [package_xml_success; apex_class_success] /\
    Sorted (key_le String.leb success_key) s /\
    (forall k, filter (fun e => key_equiv String.leb (success_key e) k) s =
               filter (fun e => key_equiv String.leb (success_key e) k)
                      [package_xml_success; apex_class_success]).
Proof.
  apply (logDetails_successes_sorted sample_details (Some sample_opts)); vm_compute; reflexivity.
Defined.

Definition uncovered_class : coverageEntry :=
  {| cc_type := JStr "Class"; cc_name := JStr "Empty"; cc_numLocations := 0;
     cc_numLocationsNotCovered := 0 |}.

Definition half_covered_class : coverageEntry :=
  {| cc_type := JStr "Class"; cc_name := JStr "Half"; cc_numLocations := 10;
     cc_numLocationsNotCovered := 5 |}.

Lemma coverage_row_percentage_witness :
  (cr_locations (coverage_row_of uncovered_class) = 0%Z ->
   cr_coverage (coverage_row_of uncovered_class) = 100%Q) /\
  ((0 <= cr_notCovered (coverage_row_of uncovered_class)
      <= cr_locations (coverage_row_of uncovered_class))%Z ->
   (0 <= cr_coverage (coverage_row_of uncovered_class) <= 100)%Q).
Proof.
  apply (coverage_row_percentage [half_covered_class; uncovered_class]).
  vm_compute. left. reflexivity.
Defined.

Lemma cType_success_failure_agree_witness :
  success_cType apex_class_success =
  failure_cType {| cf_componentType := JStr "ApexClass"; cf_fullName := JStr "Foo";
                   cf_problemType := JStr "Error"; cf_lineNumber := JNum 3;
                   cf_columnNumber := JUndefined; cf_problem := JStr "Missing ';'" |}.
Proof. apply cType_success_failure_agree. reflexivity. Defined.

Lemma logDetails_no_test_section_witness :
  exists out, logDetails (Some sample_details) None = Ok out /\
              forall x, In x out -> exists lvl t, x = Line lvl t.
Proof. apply logDetails_no_test_section. left. reflexivity. Defined.

Definition sample_tests : testResult := {|
  numTestsRun := 2; numFailures := JNum 0; totalTime := 1500;
  codeCoverage := Some [half_covered_class]; codeCoverageWarnings := None;
  failures := None |}.

Definition details_with_tests : details := {|
  componentSuccesses := None; componentFailures := None;
  runTestResult := Some sample_tests |}.

Lemma logDetails_undefined_opts_throws_witness :
  logDetails (Some details_with_tests) None =
    Err ((match componentSuccesses details_with_tests with Some l => success_lines l | None => [] end) ++
         (match componentFailures details_with_tests with Some l => failure_lines l | None => [] end) ++
         test_head sample_tests,
         TypeError "Cannot read properties of undefined (reading 'coverage')")%list.
Proof. apply (logDetails_undefined_opts_throws details_with_tests sample_tests); reflexivity. Defined.
