(* ===== verification/MetaMap.v ===== *)
(** * The metadata map (lib/metadata-map, used by deploy.js)

    The map is created per run by [metaMap.createMap] and is not part of
    [src/]: its operations are modelled from the spec (the "Metadata Map"
    collaborator) and from the way deploy.js uses them.  [map.meta] is an
    object from a type name to the array of members of that type; it is an
    association list here, in key order, because deploy.js iterates it
    ([_.values], [_.each]) and order decides the order of remote calls.

    The selections deploy.js makes on the map are translated from the
    code: the members that get a stub ([createStubFiles], 31-41), the
    members that become container artifacts ([createDeployArtifacts],
    146-151) and the static resources ([createStaticResources], 86). *)

From S2P Require Import Prelude.

(** A member: one deployable unit ([map.meta[type][i]]). *)
Record member := {
  m_type : string;
  m_name : string;
  m_id : option string;     (* [o.id]: absent until resolved or stubbed *)
  m_path : string;
  m_object : string         (* the creation payload passed to [getStub] *)
}.

Record metamap := {
  mm_memberTypes : list string;            (* [map.index.getMemberTypeNames()] *)
  mm_toolingTypes : list string;           (* types the Tooling API can deploy *)
  mm_meta : list (string * list member)    (* [map.meta] *)
}.

(** The stub object [metaMap.getStub(type, name, object)] builds. *)
Record stub := { stub_type : string; stub_name : string; stub_object : string }.

Definition getStub (k name : string) (obj : string) : stub :=
  {| stub_type := k; stub_name := name; stub_object := obj |}.

(** [map.meta[k]], read as an empty collection when absent. *)
Definition meta_of (mm : metamap) (k : string) : list member :=
  match find (fun e => String.eqb (fst e) k) (mm_meta mm) with
  | Some (_, ms) => ms
  | None => []
  end.

Definition with_id (o : member) (id : string) : member :=
  {| m_type := m_type o; m_name := m_name o; m_id := Some id;
     m_path := m_path o; m_object := m_object o |}.

(** The update [setMetaId] makes to one member. *)
Definition set_id_if (name id : string) (o : member) : member :=
  if String.eqb (m_name o) name then with_id o id else o.

Definition map_meta (f : string -> list member -> list member) (mm : metamap) : metamap :=
  {| mm_memberTypes := mm_memberTypes mm; mm_toolingTypes := mm_toolingTypes mm;
     mm_meta := map (fun e => (fst e, f (fst e) (snd e))) (mm_meta mm) |}.

(** [map.setMetaId(type, name, id)]: the members of [type] named [name]
    get the identifier [id]. *)
Definition setMetaId (mm : metamap) (ty name id : string) : metamap :=
  map_meta (fun k ms => if String.eqb k ty then map (set_id_if name id) ms else ms) mm.

(** What [map.fetchIds()] does to the map: the identifiers the org
    already has, as (type, name, id) triples, are written into [map.meta]. *)
Definition applyIds (ids : list (string * string * string)) (mm : metamap) : metamap :=
  fold_left (fun mm e => match e with (ty, nm, id) => setMetaId mm ty nm id end) ids mm.

(** [metaMap.createMap(...)]: a map with no index loaded and no member. *)
Definition createMap : metamap := {| mm_memberTypes := []; mm_toolingTypes := []; mm_meta := [] |}.

(** [map.autoLoad()]: the org's index gives the member types and the
    types the Tooling API deploys. *)
Definition load_index (idx : list string * list string) (mm : metamap) : metamap :=
  {| mm_memberTypes := fst idx; mm_toolingTypes := snd idx; mm_meta := mm_meta mm |}.

(** [map.addFiles(files)]: the members the files stand for. *)
Definition with_meta (meta : list (string * list member)) (mm : metamap) : metamap :=
  {| mm_memberTypes := mm_memberTypes mm; mm_toolingTypes := mm_toolingTypes mm; mm_meta := meta |}.

(** ** The selections deploy.js makes *)

(** [!o.id || o.id === null || o.id === ""] (deploy.js 36). *)
Definition needs_stub (o : member) : bool := negb (truthy_id (m_id o)).

(** The [stubs] array of [createStubFiles] (deploy.js 31-41). *)
Definition stubs_of (mm : metamap) : list stub :=
  flat_map (fun k => map (fun o => getStub k (m_name o) (m_object o))
                         (filter needs_stub (meta_of mm k)))
           (mm_memberTypes mm).

(** [_(map.meta).values().flatten()] (deploy.js 146-148). *)
Definition all_members (mm : metamap) : list member := flat_map snd (mm_meta mm).

(** [.remove(m => m.id && m.id !== "")], whose result is the removed
    elements: the members with an identifier (deploy.js 149-151). *)
Definition artifact_candidates (mm : metamap) : list member :=
  filter (fun m => truthy_id (m_id m)) (all_members mm).

(** [map.meta.StaticResource] (deploy.js 86). *)
Definition static_resources (mm : metamap) : list member := meta_of mm "StaticResource".

(** [map.index.getMemberTypeNames().indexOf(m.type) === -1] (deploy.js 111). *)
Definition is_member_type (mm : metamap) (ty : string) : bool :=
  existsb (String.eqb ty) (mm_memberTypes mm).

(** [map.getFilePathsForDeploy()]: the local path of every member. *)
Definition getFilePathsForDeploy (mm : metamap) : list string := map m_path (all_members mm).

(** [map.requiresMetadataDeploy()]: some member's type is not one the
    Tooling API deploys. *)
Definition requiresMetadataDeploy (mm : metamap) : bool :=
  existsb (fun e => negb (existsb (String.eqb (fst e)) (mm_toolingTypes mm)) &&
                    negb (match snd e with [] => true | _ => false end))
          (mm_meta mm).

(** ** Lemmas *)

Lemma meta_of_map_meta f mm k :
  meta_of (map_meta f mm) k =
  match find (fun e => String.eqb (fst e) k) (mm_meta mm) with
  | Some (k', ms) => f k' ms
  | None => []
  end.
Proof.
  unfold meta_of, map_meta. simpl.
  induction (mm_meta mm) as [|[k' ms] l IH]; simpl; [reflexivity|].
  destruct (String.eqb k' k); [reflexivity | exact IH].
Qed.

Lemma find_key {B} (l : list (string * B)) k k' ms :
  find (fun e => String.eqb (fst e) k) l = Some (k', ms) -> k' = k.
Proof. intros H. apply find_some in H as [_ H]. now apply String.eqb_eq in H. Qed.

Lemma meta_of_setMetaId mm ty name id k :
  meta_of (setMetaId mm ty name id) k =
  if String.eqb k ty then map (set_id_if name id) (meta_of mm k) else meta_of mm k.
Proof.
  unfold setMetaId. rewrite meta_of_map_meta. unfold meta_of.
  destruct (find _ _) as [[k' ms]|] eqn:E; [|now destruct (String.eqb k ty)].
  apply find_key in E. now subst.
Qed.

Lemma setMetaId_memberTypes mm ty name id :
  mm_memberTypes (setMetaId mm ty name id) = mm_memberTypes mm.
Proof. reflexivity. Qed.

#[export] Hint Rewrite meta_of_setMetaId setMetaId_memberTypes : dmc_rw.

(** ** Stubs and identifiers *)

(** Every member of a member type that still lacks an identifier has a
    pending stub of its type and name in [pending]. *)
Definition stubs_cover (mm : metamap) (pending : list stub) : Prop :=
  forall k o, In k (mm_memberTypes mm) -> In o (meta_of mm k) -> needs_stub o = true ->
  exists s, In s pending /\ stub_type s = k /\ stub_name s = m_name o.

Lemma stubs_cover_init mm : stubs_cover mm (stubs_of mm).
Proof.
  intros k o Hk Ho Hn. exists (getStub k (m_name o) (m_object o)).
  split; [|split; reflexivity].
  unfold stubs_of. apply in_flat_map. exists k. split; [exact Hk|].
  apply in_map_iff. exists o. split; [reflexivity|]. apply filter_In. auto.
Qed.

Lemma set_id_if_name name id o : m_name (set_id_if name id o) = m_name o.
Proof. unfold set_id_if. now destruct (String.eqb (m_name o) name). Qed.

(** Giving the first pending stub a (truthy) identifier discharges it. *)
Lemma stubs_cover_step mm s pending id :
  truthy_str id = true ->
  stubs_cover mm (s :: pending) ->
  stubs_cover (setMetaId mm (stub_type s) (stub_name s) id) pending.
Proof.
  intros Hid Hcov k o Hk Ho Hn. rewrite setMetaId_memberTypes in Hk.
  rewrite meta_of_setMetaId in Ho.
  destruct (String.eqb_spec k (stub_type s)) as [Hks|Hks].
  - apply in_map_iff in Ho as [o0 [<- Ho0]].
    unfold set_id_if in Hn |- *.
    destruct (String.eqb_spec (m_name o0) (stub_name s)) as [Hnm|Hnm].
    + unfold needs_stub in Hn. simpl in Hn. rewrite Hid in Hn. discriminate.
    + destruct (Hcov k o0 Hk Ho0 Hn) as (s' & [<-|Hin] & Ht & Hn').
      * congruence.
      * eauto.
  - destruct (Hcov k o Hk Ho Hn) as (s' & [<-|Hin] & Ht & Hn'); [congruence|eauto].
Qed.

Lemma flat_map_all_nil {A B} (f : A -> list B) l :
  (forall x, In x l -> f x = []) -> flat_map f l = [].
Proof.
  induction l as [|x l IH]; intros H; simpl; [reflexivity|].
  rewrite H by (left; reflexivity). apply IH. intros; apply H; now right.
Qed.

(** With nothing pending, no member of a member type lacks an identifier. *)
Lemma stubs_cover_nil mm : stubs_cover mm [] -> stubs_of mm = [].
Proof.
  intros Hcov. unfold stubs_of. apply flat_map_all_nil. intros k Hk.
  rewrite filter_all_false; [reflexivity|].
  intros o Ho. destruct (needs_stub o) eqn:Hn; [|reflexivity].
  destruct (Hcov k o Hk Ho Hn) as (s & [] & _).
Qed.
