(* ===== verification/Effects.v ===== *)
(** * The effect model: calls, suspended programs and their interpreter

    deploy.js is callback and promise code.  A run is modelled as a value
    of [prog A], a free monad whose nodes are what the code does between
    two pieces of synchronous code:
    - [Await c k]: an asynchronous call [c] to a collaborator (the
      Salesforce client, the file system, the metadata map); the run is
      suspended until the response arrives and [k] continues with it;
    - [Invoke c k]: a synchronous call whose answer is used at once
      ([client.tooling.createDeployArtifact], the start of
      [client.meta.deployAndPoll]);
    - [GetGuard]/[SetGuard]: reads and writes of the module-level counter
      [timesBeingDeployed] (deploy.js 16), the state shared by all runs;
    - [GetMap]/[SetMap]: reads and writes of the run's metadata map, which
      the code mutates in place ([setMetaId]);
    - [Log]: lines printed through the logger;
    - [Ret] (the promise resolves), [Throw] (it rejects), [Crash] (an
      exception escapes a callback: the promise never settles and no
      [.finally] runs), [Hang] (a callback is never called) and [Stall]
      (the poll loop is still running when the model's fuel is spent).

    [exec] runs a program against an environment [Env] that answers each
    call from the list of calls made before it, which covers every
    deterministic behaviour of the remote org and the file system.  The
    world records the guard, the map, the calls made (in order) and the
    report printed. *)

From S2P Require Import Prelude Report MetaMap.
Local Open Scope list_scope.

(** ** Calls and their responses *)

Inductive encoding : Type := Base64 | Utf8.

Inductive srmethod : Type := SRInsert | SRUpdate.

(** One element of [resp.CompilerErrors] (printed, deploy.js 193-196):
    each field is an array, absent ([None]) when the API leaves it out. *)
Record compilerError := {
  ce_extent : option (list jsval); ce_name : option (list jsval);
  ce_line : option (list jsval); ce_problem : option (list jsval)
}.

(** The response of [getContainerDeployStatus] (deploy.js 181-217). *)
Record containerStatus := {
  cs_State : string;
  cs_ErrorMsg : jsval;
  cs_CompilerErrors : option (list compilerError);
  cs_DeployDetails : option details
}.

(** The request [runMetadataDeploy] makes to [client.meta.deployAndPoll]. *)
Record metaDeployRequest := {
  md_includeDetails : bool;
  md_rollbackOnError : bool;
  md_runAllTests : jsval        (* [opts.tests ? opts.tests : false] *)
}.

(** An entry of the zip archive: the generated [package.xml] (the types
    with their member names, and the API version), a file or a directory
    copied from a local path to a path of the archive. *)
Inductive archive_entry : Type :=
| PackageXml (types : list (string * list string)) (apiVersion : string)
| FileEntry (src dest : string)
| DirEntry (src dest : string).

(** A type selected for [retrieve] ([map.index.getTypesFromGlobs]):
    its name, its subfolder and its local folder, as the code reads them. *)
Record mdtype := {
  t_name : string;
  t_subFolder : option string;   (* [t.subFolder], absent when not given *)
  t_folder : jsval               (* [t.folder] *)
}.

(** An element of a [listMetadata] answer (jsforce's FileProperties). *)
Record fileProperties := {
  md_type : string;
  md_fullName : string;
  md_fileName : string;
  md_namespacePrefix : option string   (* a string, or null / undefined *)
}.

Inductive call : Type :=
| FetchIds                                       (* map.fetchIds() *)
| ToolingInsert (s : stub)                       (* client.tooling.insert(stub) *)
| ReadFile (enc : encoding) (path : string)      (* fs.readFile *)
| StaticResourceWrite (m : srmethod) (id : option string) (name body : string)
| CreateContainer (name : string)                (* client.tooling.createContainer *)
| CreateDeployArtifact (ty : string) (body : string) (entity : option string)
| AddContainerArtifact (cid : string) (ty : string) (entity : option string) (body : string)
| DeployContainer (cid : string)                 (* client.tooling.deployContainer *)
| GetContainerDeployStatus (asyncId : string)
| DeleteContainer (cid : string)                 (* client.tooling.delete *)
| PathExists (p : string)                        (* fs.existsAsync *)
| Lstat (p : string)                             (* fs.lstatAsync: is a directory? *)
| MetaDeployAndPoll (req : metaDeployRequest)    (* client.meta.deployAndPoll *)
| ArchiveFinalize (entries : list archive_entry) (* archive.finalize(): the zip is sent *)
| MetaDeployResult                               (* the settlement of that promise *)
| DateNow                                        (* new Date().getTime() *)
| LoadConfig                                     (* config.loadAll() *)
| LoadIgnores                                    (* dmcignore.load(): the ignore lines *)
| GetClient                                      (* sfClient.getClient(oauth) *)
| AutoLoad                                       (* map.autoLoad(): the org's index *)
| ConfigGet (key : string)                       (* config.get(key) *)
| GetFiles (globs ignores : list string)         (* getFiles({globs, ignores}) *)
| AddFiles (files : list string)                 (* map.addFiles(files) *)
| Glob (pattern : string)                        (* glob(pattern, globOpts) in watch.js *)
| TypesFromGlobs (globs : list string)           (* map.index.getTypesFromGlobs(globs) *)
| ListMetadata (queries : list (string * option string)) (* client.meta.listMetadata *)
| FilterOnGlobs (paths globs ignores : list string) (* matching.filterOnGlobs *)
| CreateTypesArray                               (* map.createTypesArray() *)
| RetrieveAndPoll (apiVersion : string) (types : list (string * list string)) (* client.meta.retrieveAndPoll *)
| Unzip (zip dir : string)                       (* new AdmZip(zip).extractAllToAsync(dir) *)
| Rimraf (pattern : string)                      (* rimraf(pattern) *)
| CopyDir (src dst : string)                     (* fs.copyAsync(src, dst) *)
| RemoveDir (path : string).                     (* fs.removeAsync(path) *)

(** Does the call reach the Salesforce org? *)
Definition is_remote (c : call) : bool :=
  match c with
  | ReadFile _ _ | CreateDeployArtifact _ _ _ | PathExists _ | Lstat _ | DateNow
  | LoadConfig | LoadIgnores | ConfigGet _ | GetFiles _ _ | AddFiles _ | Glob _
  | TypesFromGlobs _ | FilterOnGlobs _ _ _ | CreateTypesArray | Unzip _ _ | Rimraf _
  | CopyDir _ _ | RemoveDir _ => false
  | _ => true
  end.

Definition resp_of (c : call) : Type :=
  match c with
  | FetchIds => result jserr (list (string * string * string))
  | ToolingInsert _ => result jserr string
  | ReadFile _ _ => result jserr string
  | StaticResourceWrite _ _ _ _ => result jserr unit
  | CreateContainer _ => result jserr string
  | CreateDeployArtifact _ _ _ => bool
  | AddContainerArtifact _ _ _ _ => result jserr unit
  | DeployContainer _ => result jserr string
  | GetContainerDeployStatus _ => result jserr containerStatus
  | DeleteContainer _ => result jserr unit
  | PathExists _ => bool
  | Lstat _ => result jserr bool
  | MetaDeployAndPoll _ => unit
  | ArchiveFinalize _ => unit
  | MetaDeployResult => result jserr (option details)
  | DateNow => Z
  | LoadConfig => result jserr unit
  | LoadIgnores => result jserr (list string)
  | GetClient => result jserr string                       (* the client's apiVersion *)
  | AutoLoad => result jserr (list string * list string)   (* member types, Tooling types *)
  | ConfigGet _ => jsval
  | GetFiles _ _ => result jserr (list string)
  | AddFiles _ => list (string * list member)              (* map.meta after the call *)
  | Glob _ => result jserr (list string)
  | TypesFromGlobs _ => list mdtype
  | ListMetadata _ => result jserr (list fileProperties)
  | FilterOnGlobs _ _ _ => result jserr (list string)
  | CreateTypesArray => list (string * list string)
  | RetrieveAndPoll _ _ => result jserr string    (* the zip file, base64 *)
  | Unzip _ _ => result jserr unit
  | Rimraf _ => result jserr unit
  | CopyDir _ _ => result jserr unit
  | RemoveDir _ => result jserr unit
  end.

(** ** Programs *)

Inductive prog (A : Type) : Type :=
| Ret (a : A)
| Throw (e : jserr)
| Crash (e : jserr)
| Hang
| Stall
| Await (c : call) (k : resp_of c -> prog A)
| Invoke (c : call) (k : resp_of c -> prog A)
| GetGuard (k : Z -> prog A)
| SetGuard (z : Z) (k : prog A)
| GetMap (k : metamap -> prog A)
| SetMap (m : metamap) (k : prog A)
| Log (ls : list logline) (k : prog A).

Arguments Ret {A} a.
Arguments Throw {A} e.
Arguments Crash {A} e.
Arguments Hang {A}.
Arguments Stall {A}.
Arguments Await {A} c k.
Arguments Invoke {A} c k.
Arguments GetGuard {A} k.
Arguments SetGuard {A} z k.
Arguments GetMap {A} k.
Arguments SetMap {A} m k.
Arguments Log {A} ls k.

Fixpoint bind {A B} (p : prog A) (f : A -> prog B) : prog B :=
  match p with
  | Ret a => f a
  | Throw e => Throw e
  | Crash e => Crash e
  | Hang => Hang
  | Stall => Stall
  | Await c k => Await c (fun r => bind (k r) f)
  | Invoke c k => Invoke c (fun r => bind (k r) f)
  | GetGuard k => GetGuard (fun z => bind (k z) f)
  | SetGuard z k => SetGuard z (bind k f)
  | GetMap k => GetMap (fun m => bind (k m) f)
  | SetMap m k => SetMap m (bind k f)
  | Log ls k => Log ls (bind k f)
  end.

Declare Scope prog_scope.
Delimit Scope prog_scope with prog.
Notation "x <- p ;; q" := (bind p (fun x => q))
  (at level 61, p at next level, right associativity) : prog_scope.
Notation "p ;; q" := (bind p (fun _ => q))
  (at level 61, right associativity) : prog_scope.
Open Scope prog_scope.

(** [.catch]: a rejection becomes a value. *)
Fixpoint attempt {A} (p : prog A) : prog (result jserr A) :=
  match p with
  | Ret a => Ret (Ok a)
  | Throw e => Ret (Err e)
  | Crash e => Crash e
  | Hang => Hang
  | Stall => Stall
  | Await c k => Await c (fun r => attempt (k r))
  | Invoke c k => Invoke c (fun r => attempt (k r))
  | GetGuard k => GetGuard (fun z => attempt (k z))
  | SetGuard z k => SetGuard z (attempt k)
  | GetMap k => GetMap (fun m => attempt (k m))
  | SetMap m k => SetMap m (attempt k)
  | Log ls k => Log ls (attempt k)
  end.

(** Re-raise a caught result. *)
Definition settle {A} (r : result jserr A) : prog A :=
  match r with Ok a => Ret a | Err e => Throw e end.

Definition await (c : call) : prog (resp_of c) := Await c Ret.
Definition invoke (c : call) : prog (resp_of c) := Invoke c Ret.
Definition get_guard : prog Z := GetGuard Ret.
Definition set_guard (z : Z) : prog unit := SetGuard z (Ret tt).
Definition get_map : prog metamap := GetMap Ret.
Definition set_map (m : metamap) : prog unit := SetMap m (Ret tt).
Definition modify_map (f : metamap -> metamap) : prog unit :=
  m <- get_map ;; set_map (f m).
Definition log (ls : list logline) : prog unit := Log ls (Ret tt).

(** ** The interpreter *)

Record world := {
  w_guard : Z;                 (* timesBeingDeployed *)
  w_map : metamap;             (* the run's metadata map *)
  w_trace : list call;         (* the calls made, oldest first *)
  w_log : list logline         (* the report printed *)
}.

(** The environment answers a call from the calls made before it. *)
Definition Env : Type := list call -> forall c : call, resp_of c.

Inductive outcome (A : Type) : Type :=
| Done (a : A)        (* the promise resolved *)
| Rejected (e : jserr) (* the promise rejected *)
| Crashed (e : jserr)  (* an uncaught exception: nothing settles *)
| Hung                (* a callback is never called: nothing settles *)
| Stalled.            (* still polling when the fuel ran out *)

Arguments Done {A} a.
Arguments Rejected {A} e.
Arguments Crashed {A} e.
Arguments Hung {A}.
Arguments Stalled {A}.

Definition record_call (c : call) (w : world) : world :=
  {| w_guard := w_guard w; w_map := w_map w; w_trace := w_trace w ++ [c]; w_log := w_log w |}.

(** The world after the calls [cs], with nothing else changed. *)
Definition append_calls (cs : list call) (w : world) : world :=
  {| w_guard := w_guard w; w_map := w_map w; w_trace := w_trace w ++ cs; w_log := w_log w |}.

Definition with_guard (z : Z) (w : world) : world :=
  {| w_guard := z; w_map := w_map w; w_trace := w_trace w; w_log := w_log w |}.

Definition with_map (m : metamap) (w : world) : world :=
  {| w_guard := w_guard w; w_map := m; w_trace := w_trace w; w_log := w_log w |}.

Definition with_log (ls : list logline) (w : world) : world :=
  {| w_guard := w_guard w; w_map := w_map w; w_trace := w_trace w; w_log := w_log w ++ ls |}.

Section Exec.
Variable env : Env.

Fixpoint exec {A} (p : prog A) (w : world) : outcome A * world :=
  match p with
  | Ret a => (Done a, w)
  | Throw e => (Rejected e, w)
  | Crash e => (Crashed e, w)
  | Hang => (Hung, w)
  | Stall => (Stalled, w)
  | Await c k => exec (k (env (w_trace w) c)) (record_call c w)
  | Invoke c k => exec (k (env (w_trace w) c)) (record_call c w)
  | GetGuard k => exec (k (w_guard w)) w
  | SetGuard z k => exec k (with_guard z w)
  | GetMap k => exec (k (w_map w)) w
  | SetMap m k => exec k (with_map m w)
  | Log ls k => exec k (with_log ls w)
  end.

(** The outcome of [bind p f] when [p] does not resolve. *)
Definition lift_outcome {A B} (o : outcome A) : outcome B :=
  match o with
  | Done _ => Stalled
  | Rejected e => Rejected e
  | Crashed e => Crashed e
  | Hung => Hung
  | Stalled => Stalled
  end.

Lemma exec_bind {A B} (p : prog A) (f : A -> prog B) w :
  exec (bind p f) w =
  match exec p w with
  | (Done a, w') => exec (f a) w'
  | (o, w') => (lift_outcome o, w')
  end.
Proof. revert w. induction p; intros w; simpl; auto. Qed.

Lemma exec_attempt {A} (p : prog A) w :
  exec (attempt p) w =
  match exec p w with
  | (Done a, w') => (Done (Ok a), w')
  | (Rejected e, w') => (Done (Err e), w')
  | (o, w') => (lift_outcome o, w')
  end.
Proof. revert w. induction p; intros w; simpl; auto. Qed.

(** Calls are only ever appended to the trace. *)
Lemma exec_trace_extends {A} (p : prog A) w :
  exists t, w_trace (snd (exec p w)) = w_trace w ++ t.
Proof.
  revert w. induction p; intros w; simpl;
    try (exists []; now rewrite app_nil_r);
    try (destruct (H (env (w_trace w) c) (record_call c w)) as [t Ht];
         exists (c :: t); rewrite Ht; simpl; now rewrite <- app_assoc).
  all: match goal with IH : forall _ : _, _ |- _ => edestruct IH as [t Ht]; exists t; exact Ht end.
Qed.
End Exec.

(** The calls a program makes from a world. *)
Definition calls_made {A} (env : Env) (p : prog A) (w : world) : list call :=
  skipn (length (w_trace w)) (w_trace (snd (exec env p w))).

Lemma calls_made_spec {A} env (p : prog A) w :
  w_trace (snd (exec env p w)) = w_trace w ++ calls_made env p w.
Proof.
  unfold calls_made. destruct (exec_trace_extends env p w) as [t Ht].
  rewrite Ht, skipn_app, skipn_all, Nat.sub_diag. reflexivity.
Qed.

(** ** Phases

    [phase P p]: every call [p] can make satisfies [P], and [p] never
    writes the guard.  The pipeline's phases are phases for the calls they
    make; the cleanup theorems use this to count the calls of a run. *)
Inductive phase (P : call -> Prop) {A} : prog A -> Prop :=
| ph_ret a : phase P (Ret a)
| ph_throw e : phase P (Throw e)
| ph_crash e : phase P (Crash e)
| ph_hang : phase P Hang
| ph_stall : phase P Stall
| ph_await c k : P c -> (forall r, phase P (k r)) -> phase P (Await c k)
| ph_invoke c k : P c -> (forall r, phase P (k r)) -> phase P (Invoke c k)
| ph_getguard k : (forall z, phase P (k z)) -> phase P (GetGuard k)
| ph_getmap k : (forall m, phase P (k m)) -> phase P (GetMap k)
| ph_setmap m k : phase P k -> phase P (SetMap m k)
| ph_log ls k : phase P k -> phase P (Log ls k).

#[export] Hint Constructors phase : dmc.

Lemma phase_bind P {A B} (p : prog A) (f : A -> prog B) :
  phase P p -> (forall a, phase P (f a)) -> phase P (bind p f).
Proof. intros Hp Hf. induction Hp; simpl; auto with dmc. Qed.

Lemma phase_attempt P {A} (p : prog A) : phase P p -> phase P (attempt p).
Proof. intros Hp. induction Hp; simpl; auto with dmc. Qed.

Lemma phase_weaken (P Q : call -> Prop) {A} (p : prog A) :
  (forall c, P c -> Q c) -> phase P p -> phase Q p.
Proof. intros HPQ Hp. induction Hp; auto with dmc. Qed.

Lemma phase_settle P {A} (r : result jserr A) : phase P (settle r).
Proof. destruct r; constructor. Qed.

#[export] Hint Resolve phase_bind phase_attempt phase_settle : dmc.

Section PhaseExec.
Variable env : Env.

Lemma exec_phase_trace P {A} (p : prog A) w :
  phase P p ->
  exists t, w_trace (snd (exec env p w)) = w_trace w ++ t /\ Forall P t /\
            w_guard (snd (exec env p w)) = w_guard w.
Proof.
  intros Hp. revert w. induction Hp; intros w; simpl;
    try (exists []; rewrite app_nil_r; auto; fail);
    try (destruct (H1 (env (w_trace w) c) (record_call c w)) as (t & Ht & HF & HG);
         exists (c :: t); simpl in *; rewrite Ht, <- app_assoc; auto; fail).
  all: match goal with
       | IH : forall _, exists _, _ |- _ =>
           edestruct IH as (t & Ht & HF & HG); exists t; exact (conj Ht (conj HF HG))
       | IH : forall _ _, exists _, _ |- _ =>
           edestruct IH as (t & Ht & HF & HG); exists t; exact (conj Ht (conj HF HG))
       end.
Qed.

Lemma exec_phase P {A} (p : prog A) w :
  phase P p ->
  Forall P (calls_made env p w) /\ w_guard (snd (exec env p w)) = w_guard w.
Proof.
  intros Hp. destruct (exec_phase_trace P p w Hp) as (t & Ht & HF & HG).
  rewrite calls_made_spec in Ht. apply app_inv_head in Ht. subst. auto.
Qed.
End PhaseExec.

Lemma append_calls_app cs1 cs2 w :
  append_calls cs2 (append_calls cs1 w) = append_calls (cs1 ++ cs2) w.
Proof. unfold append_calls. simpl. now rewrite app_assoc. Qed.

Lemma record_call_append c w : record_call c w = append_calls [c] w.
Proof. reflexivity. Qed.

Lemma skipn_trace (t u : list call) : skipn (length t) (t ++ u) = u.
Proof. now rewrite skipn_app, skipn_all, Nat.sub_diag. Qed.

Lemma append_calls_nil w : append_calls [] w = w.
Proof. destruct w. unfold append_calls. simpl. now rewrite app_nil_r. Qed.

Lemma with_log_nil w : with_log [] w = w.
Proof. destruct w. unfold with_log. simpl. now rewrite app_nil_r. Qed.

#[export] Hint Rewrite @exec_bind @exec_attempt : dmc_rw.
