(* ===== verification/AsyncLimit.v ===== *)
(** * async's [mapLimit] (used at deploy.js 45, 86, 153, 533)

    [async.mapLimit(coll, limit, iterator, callback)] runs [iterator] on
    every element with at most [limit] calls in flight, collects the
    results in the order of [coll], and calls [callback(err)] as soon as
    one iterator reports an error, starting no new iterator afterwards.
    An iterator reports through its callback: [cb(err)] or
    [cb(null, value)]; here an iterator is a [prog] returning
    [Err e] or [Ok v].  When an iterator never calls back, the final
    callback is never called ([Hang]); when it throws, the exception
    escapes ([Crash]).

    [mapLimit] below is the in-order schedule: each iterator completes
    before the next one starts.  With fail-fast errors and results kept in
    input order, the final result of this schedule is the one async
    delivers whenever every iterator succeeds, and one of the results it
    may deliver otherwise. *)

From S2P Require Import Prelude Report Effects.
Local Open Scope list_scope.
Local Open Scope prog_scope.

Fixpoint mapSeries {A B} (iter : A -> prog (result jserr B)) (xs : list A)
  : prog (result jserr (list B)) :=
  match xs with
  | [] => Ret (Ok [])
  | x :: xs' =>
      r <- iter x ;;
      match r with
      | Err e => Ret (Err e)
      | Ok b =>
          rs <- mapSeries iter xs' ;;
          match rs with
          | Ok bs => Ret (Ok (b :: bs))
          | Err e => Ret (Err e)
          end
      end
  end.

(** [async.mapLimit(xs, limit, iter, cb)] under the in-order schedule. *)
Definition mapLimit {A B} (limit : nat) (xs : list A) (iter : A -> prog (result jserr B))
  : prog (result jserr (list B)) :=
  mapSeries iter xs.

Section Laws.
Variable env : Env.

(** When every iterator succeeds without touching the trace's answers
    it depends on, the final result is the list of their values. *)
Lemma exec_mapSeries_cons {A B} (iter : A -> prog (result jserr B)) x xs w :
  exec env (mapSeries iter (x :: xs)) w =
  match exec env (iter x) w with
  | (Done (Ok b), w1) =>
      match exec env (mapSeries iter xs) w1 with
      | (Done (Ok bs), w2) => (Done (Ok (b :: bs)), w2)
      | (Done (Err e), w2) => (Done (Err e), w2)
      | (o, w2) => (lift_outcome o, w2)
      end
  | (Done (Err e), w1) => (Done (Err e), w1)
  | (o, w1) => (lift_outcome o, w1)
  end.
Proof.
  simpl. rewrite exec_bind.
  destruct (exec env (iter x) w) as [[[b|e]|e|e| |] w1]; try reflexivity.
  rewrite exec_bind.
  destruct (exec env (mapSeries iter xs) w1) as [[[bs|e]|e|e| |] w2]; reflexivity.
Qed.

(** A successful series: each value was the value of its iterator. *)
Lemma exec_mapSeries_ok {A B} (iter : A -> prog (result jserr B)) xs w ys w' :
  exec env (mapSeries iter xs) w = (Done (Ok ys), w') ->
  Forall2 (fun x y => exists w1 w2, exec env (iter x) w1 = (Done (Ok y), w2)) xs ys.
Proof.
  revert w ys w'. induction xs as [|x xs IH]; intros w ys w' H.
  - simpl in H. injection H as <- _. constructor.
  - rewrite exec_mapSeries_cons in H.
    destruct (exec env (iter x) w) as [[[b|e]|e|e| |] w1] eqn:Hx; try discriminate.
    destruct (exec env (mapSeries iter xs) w1) as [[[bs|e]|e|e| |] w2] eqn:Hxs; try discriminate.
    injection H as <- _. constructor; [exists w, w1; exact Hx|]. eapply IH; exact Hxs.
Qed.
(** A series of iterators that always resolve resolves. *)
Lemma mapSeries_done {A B} (iter : A -> prog (result jserr B)) xs :
  (forall x w, In x xs -> exists r, fst (exec env (iter x) w) = Done r) ->
  forall w, exists r, fst (exec env (mapSeries iter xs) w) = Done r.
Proof.
  induction xs as [|x xs IH]; intros Hit w; [eexists; reflexivity|].
  rewrite exec_mapSeries_cons.
  destruct (Hit x w (or_introl eq_refl)) as [r Hr].
  destruct (exec env (iter x) w) as [o w1]. simpl in Hr. subst o.
  destruct r as [b|e]; [|eexists; reflexivity].
  destruct (IH (fun y w' Hy => Hit y w' (or_intror Hy)) w1) as [r' Hr'].
  destruct (exec env (mapSeries iter xs) w1) as [o' w2]. simpl in Hr'. subst o'.
  destruct r'; eexists; reflexivity.
Qed.
End Laws.

Lemma phase_mapSeries P {A B} (iter : A -> prog (result jserr B)) xs :
  (forall x, phase P (iter x)) -> phase P (mapSeries iter xs).
Proof.
  intros Hi. induction xs as [|x xs IH]; simpl; auto with dmc.
  apply phase_bind; [apply Hi|]. intros [b|e]; auto with dmc.
  apply phase_bind; [exact IH|]. intros [bs|e]; auto with dmc.
Qed.

Lemma phase_mapLimit P {A B} n xs (iter : A -> prog (result jserr B)) :
  (forall x, phase P (iter x)) -> phase P (mapLimit n xs iter).
Proof. apply phase_mapSeries. Qed.

#[export] Hint Resolve phase_mapLimit : dmc.

(** Prove that a program built from binds, matches, calls and [mapLimit]
    is a phase, once its definitions are unfolded. *)
Ltac solve_phase :=
  repeat match goal with
  | |- phase _ (bind _ _) => apply phase_bind; [|intros]
  | |- phase _ (mapLimit _ _ _) => apply phase_mapLimit; intros
  | |- phase _ (attempt _) => apply phase_attempt
  | |- phase _ (settle _) => apply phase_settle
  | |- phase _ (match ?x with _ => _ end) => destruct x
  | |- phase _ (Await _ _) => constructor; [|intros]
  | |- phase _ (Invoke _ _) => constructor; [|intros]
  | |- phase _ (GetMap _) => constructor; intros
  | |- phase _ (GetGuard _) => constructor; intros
  | |- phase _ (SetMap _ _) => constructor
  | |- phase _ (Log _ _) => constructor
  | |- phase _ (Ret _) => constructor
  | |- phase _ (Throw _) => constructor
  | |- phase _ (Crash _) => constructor
  | |- phase _ Stall => constructor
  | |- phase _ Hang => constructor
  end.
