(* ===== verification/Selector.v ===== *)
(** * The choice of deploy API ([run], deploy.js 612-634)

    After the local files are added to the map, [run] returns when there
    is nothing to deploy, reads [deploy_mode] from the configuration
    (default ["dynamic"]) and runs the Tooling pipeline unless the map
    requires the Metadata API, [--meta] was given, the mode is
    ["metadata"] or [--tests] was given. *)

From S2P Require Import Prelude MetaMap.

Inductive api : Type := ToolingApi | MetadataApi.

(** The options of [deploy] that the engine reads. *)
Record deploy_opts := {
  o_meta : jsval;          (* --meta *)
  o_tests : jsval;         (* --tests *)
  o_coverage : jsval;      (* --coverage *)
  o_globs : list string    (* [globs...] *)
}.

(** A boolean option of commander: [true] when given, else absent
    ([undefined]). *)
Definition flag (b : bool) : jsval := if b then JBool true else JUndefined.

(** The [.action] of [deploy [globs...]] (647-650): the globs join the
    parsed options, which go to [run] through [cliUtil.executeRun]. *)
Definition deploy_action (globs : list string) (coverage meta tests : bool) : deploy_opts :=
  {| o_meta := flag meta; o_tests := flag tests; o_coverage := flag coverage; o_globs := globs |}.

(** [config.get("deploy_mode") || "dynamic"] (616). *)
Definition deployMode (cfg : jsval) : jsval := js_or cfg (JStr "dynamic").

(** The JavaScript test [deployMode !== "metadata"]. *)
Definition not_metadata_mode (v : jsval) : bool :=
  match v with JStr s => negb (String.eqb s "metadata") | _ => true end.

(** The decision of 612-633: [None] when there is nothing to deploy. *)
Definition select_api (mm : metamap) (cfg : jsval) (opts : deploy_opts) : option api :=
  match getFilePathsForDeploy mm with
  | [] => None
  | _ =>
      if negb (requiresMetadataDeploy mm) && negb (truthy (o_meta opts)) &&
         not_metadata_mode (deployMode cfg) && negb (truthy (o_tests opts))
      then Some ToolingApi else Some MetadataApi
  end.

(** C9: the Tooling API is chosen exactly when there are files to deploy,
    no selected type needs the Metadata API, [--meta] and [--tests] are
    not set and the configured mode is not ["metadata"]; otherwise, with
    files to deploy, the Metadata API is chosen. *)
Theorem select_api_spec mm cfg opts :
  (select_api mm cfg opts = Some ToolingApi <->
   getFilePathsForDeploy mm <> [] /\ requiresMetadataDeploy mm = false /\
   truthy (o_meta opts) = false /\ deployMode cfg <> JStr "metadata" /\
   truthy (o_tests opts) = false) /\
  (select_api mm cfg opts = None <-> getFilePathsForDeploy mm = []).
Proof.
  unfold select_api.
  assert (Hmode : not_metadata_mode (deployMode cfg) = true <-> deployMode cfg <> JStr "metadata").
  { unfold not_metadata_mode.
    destruct (deployMode cfg) as [| | | |s]; try (split; [congruence|reflexivity]).
    destruct (String.eqb_spec s "metadata") as [->|Hs]; simpl; [split; congruence|].
    split; [intros _ H; inversion H; congruence | reflexivity]. }
  destruct (getFilePathsForDeploy mm) as [|p ps].
  { split; split; intros H; try discriminate; try reflexivity; now destruct H. }
  split; [|split; intros H; [destruct (negb _ && _ && _ && _); discriminate | discriminate]].
  destruct (requiresMetadataDeploy mm), (truthy (o_meta opts)),
           (not_metadata_mode (deployMode cfg)), (truthy (o_tests opts)); simpl;
    split; intros H; try discriminate; try (destruct H as (? & ? & ? & ? & ?); congruence).
  - repeat split; try congruence. now apply Hmode.
  - destruct H as (? & ? & ? & H4 & ?). apply Hmode in H4. discriminate.
Qed.
