(* ===== verification/Tooling.v ===== *)
(** * The Tooling API pipeline ([runToolingDeploy], deploy.js 18-304)

    Each phase of the pipeline is one definition, translated from the
    function of deploy.js with the same name, and [runToolingDeploy]
    composes them as the promise chain of lines 244-304 does:
    the guard check and increment, [fetchIds], [createStubFiles],
    [createStaticResources], [createContainer] (whose result is the
    variable [containerId]), [createDeployArtifacts], [deployContainer]
    with its poll loop, and the [.finally] that, when [containerId] is
    set, resets the guard and deletes the container.

    The theorems show what a run does: it is a no-op while the guard is
    set; it creates one stub per member without identifier; when a
    container was created and the run settles, the container is deleted
    exactly once, last, and the guard is released; when a phase before
    [createContainer] fails, the guard is never released (a defect: every
    later run is a no-op); the poll loop asks once more per non-terminal
    status and stops only on a terminal one; an [Errored] status or a
    failed [deployContainer] request throws a [ReferenceError] in a
    callback, so the run never settles and the container is not deleted;
    a [Failed] status whose details report tests throws a [TypeError] in
    [logDetails], called without [opts], after printing the report's
    first lines. *)

From S2P Require Import Prelude Report MetaMap Effects AsyncLimit.
Local Open Scope prog_scope.
Local Open Scope list_scope.

(** ** The phases *)

(** A count printed through [hl]. *)
Definition num (n : nat) : string := hl (z_to_string (Z.of_nat n)).

(** The promise of [map.fetchIds()] and its [.then] (252-259): the map
    takes the identifiers the org already has, and their number is
    printed when there is any. *)
Definition fetchIds : prog unit :=
  r <- await FetchIds ;;
  match r with
  | Err e => Throw e
  | Ok results =>
      modify_map (applyIds results) ;;
      if (0 <? length results)%nat then log [Line LLog ("loaded " ++ num (length results) ++ " ids")%string]
      else Ret tt
  end.

(** [logger.create(obj.type + "::" + hl(obj.object.name))] (22). *)
Definition stub_line (s : stub) : logline := Line LCreate (stub_type s ++ "::" ++ hl (stub_name s))%string.

(** The iterator of [createStubFiles] (21-28). *)
Definition stub_iterator (s : stub) : prog (result jserr string) :=
  log [stub_line s] ;;
  r <- await (ToolingInsert s) ;;
  match r with
  | Err e => Ret (Err e)
  | Ok id => modify_map (fun mm => setMetaId mm (stub_type s) (stub_name s) id) ;; Ret (Ok id)
  end.

(** [createStubFiles(map, client)] (18-54). *)
Definition createStubFiles : prog (list string) :=
  mm <- get_map ;;
  match stubs_of mm with
  | [] => Ret []
  | stubs =>
      r <- mapLimit 5 stubs stub_iterator ;;
      match r with
      | Err e => log [Line LError (err_message e)] ;; Throw (Error "unable to create stub files")
      | Ok ids => Ret ids
      end
  end.

(** [obj.id ? "update" : "insert"] (70). *)
Definition sr_method (o : member) : srmethod := if truthy_id (m_id o) then SRUpdate else SRInsert.

Definition srmethod_name (m : srmethod) : string :=
  match m with SRInsert => "insert" | SRUpdate => "update" end.

(** [logger[method === "insert" ? "create" : "update"]] (76-78). *)
Definition srmethod_level (m : srmethod) : level :=
  match m with SRInsert => LCreate | SRUpdate => LUpdate end.

(** The iterator of [createStaticResources] (57-83). *)
Definition sr_iterator (o : member) : prog (result jserr unit) :=
  b <- await (ReadFile Base64 (m_path o)) ;;
  match b with
  | Err e => Ret (Err e)
  | Ok body =>
      log [Line LLog ("executing StaticResource " ++ srmethod_name (sr_method o))%string] ;;
      r <- await (StaticResourceWrite (sr_method o) (m_id o) (m_name o) body) ;;
      match r with
      | Err e => Ret (Err e)
      | Ok u => log [Line (srmethod_level (sr_method o)) ("StaticResource::" ++ m_name o)%string] ;; Ret (Ok u)
      end
  end.

(** [createStaticResources(map, client)] (56-94). *)
Definition createStaticResources : prog (list unit) :=
  mm <- get_map ;;
  r <- mapLimit 5 (static_resources mm) sr_iterator ;;
  match r with
  | Err e => log [Line LError "StaticResource deploy error"] ;; Throw e
  | Ok srs => Ret srs
  end.

(** [createContainer(client)] (96-107). *)
Definition createContainer : prog string :=
  log [Line LLog "creating container"] ;;
  t <- invoke DateNow ;;
  r <- await (CreateContainer ("dmc:" ++ z_to_string t)%string) ;;
  match r with
  | Err e => Throw e
  | Ok cid => log [Line LCreate ("metadata container: " ++ hl cid)%string] ;; Ret cid
  end.

(** The iterator of [createDeployArtifacts] (110-143); [None] is
    [cb2(null)] for a member whose type has no container member type. *)
Definition artifact_iterator (cid : string) (m : member) : prog (result jserr (option unit)) :=
  mm <- get_map ;;
  if negb (is_member_type mm (m_type m)) then Ret (Ok None) else
  d <- await (ReadFile Utf8 (m_path m)) ;;
  match d with
  | Err e => Ret (Err e)
  | Ok data =>
      ok <- invoke (CreateDeployArtifact (m_type m ++ "Member")%string data (m_id m)) ;;
      if negb ok then Ret (Err (Error ("couldn't create artifact: " ++ m_name m)%string)) else
      r <- await (AddContainerArtifact cid (m_type m ++ "Member")%string (m_id m) data) ;;
      match r with
      | Err e =>
          log [Line LError ("problem creating container artifact: " ++ m_type m ++ "::" ++ m_name m)%string] ;;
          Ret (Err e)
      | Ok resp =>
          log [Line LCreate ("container member: " ++ m_type m ++ "::" ++ m_name m)%string] ;;
          Ret (Ok (Some resp))
      end
  end.

(** [createDeployArtifacts(map, containerId, client)] (109-158). *)
Definition createDeployArtifacts (cid : string) : prog (list (option unit)) :=
  mm <- get_map ;;
  r <- mapLimit 5 (artifact_candidates mm) (artifact_iterator cid) ;;
  match r with Err e => Throw e | Ok res => Ret res end.

(** The terminal states of a container deploy. *)
Definition is_terminal (st : string) : bool :=
  String.eqb st "Completed" || String.eqb st "Failed" || String.eqb st "Errored".

(** [a[0]] for an array field [a] of a compiler error; reading it on an
    absent field throws. *)
Definition first_of (a : option (list jsval)) : result jserr jsval :=
  match a with
  | None => Err (TypeError "Cannot read properties of undefined (reading '0')")
  | Some [] => Ok JUndefined
  | Some (v :: _) => Ok v
  end.

(** [_.each(resp.CompilerErrors, ...)] (192-197): two error lines per
    compiler error; a missing field throws in the status callback. *)
Fixpoint log_compiler_errors (es : list compilerError) : prog unit :=
  match es with
  | [] => Ret tt
  | e :: es =>
      match first_of (ce_extent e), first_of (ce_name e) with
      | Ok x, Ok n =>
          log [Line LError ("=> " ++ js_to_string x ++ ": " ++ js_to_string n)%string] ;;
          match first_of (ce_line e), first_of (ce_problem e) with
          | Ok l, Ok p =>
              log [Line LError ("   Line " ++ js_to_string l ++ " - " ++ js_to_string p)%string] ;;
              log_compiler_errors es
          | Err err, _ | _, Err err => Crash err
          end
      | Err err, _ | _, Err err => Crash err
      end
  end.

(** The [Failed] branch of [poll] (188-203): the error message, the
    compiler errors and the deploy details are printed, the last through
    [logDetails] with [opts] undefined, and the promise rejects; when
    [logDetails] throws, the lines it printed stay printed and the
    exception escapes the status callback. *)
Definition on_failed (resp : containerStatus) : prog containerStatus :=
  (if truthy (cs_ErrorMsg resp) then log [ErrorValue (cs_ErrorMsg resp)] else Ret tt) ;;
  (match cs_CompilerErrors resp with Some es => log_compiler_errors es | None => Ret tt end) ;;
  match logDetails (cs_DeployDetails resp) None with
  | Err (printed, e) => log printed ;; Crash e
  | Ok lines => log lines ;; Throw (Error "Compiler Errors")
  end.

(** [logStatus(resp.State)] (172-174). *)
Definition status_line (resp : containerStatus) : logline :=
  Line LList ("deploy status: " ++ hl (cs_State resp))%string.

(** [poll()] (176-218), with [fuel] polls left.  On [Errored] it reads
    [res.ErrorMsg], and [res] is not declared in any enclosing scope. *)
Fixpoint poll (fuel : nat) (aid : string) : prog containerStatus :=
  match fuel with
  | O => Stall
  | S f =>
      r <- await (GetContainerDeployStatus aid) ;;
      match r with
      | Err e => Throw e
      | Ok resp =>
          log [status_line resp] ;;
          if String.eqb (cs_State resp) "Completed" then
            log [Line LSuccess "deployment successful"] ;; Ret resp
          else if String.eqb (cs_State resp) "Failed" then on_failed resp
          else if String.eqb (cs_State resp) "Errored" then Crash (ReferenceError "res")
          else poll f aid
      end
  end.

(** [deployContainer(containerId, client)] (161-227); an error of the
    deploy request calls [cb], which is not declared. *)
Definition deployContainer (fuel : nat) (cid : string) : prog (option containerStatus) :=
  if negb (truthy_str cid) then Ret None else
  r <- await (DeployContainer cid) ;;
  match r with
  | Err _ => Crash (ReferenceError "cb")
  | Ok aid => log [Line LLog "Deploying..."] ;; s <- poll fuel aid ;; Ret (Some s)
  end.

(** [logger.destroy("metadata container: " + hl(containerId))] (238). *)
Definition deleted_line (cid : string) : logline :=
  Line LDestroy ("metadata container: " ++ hl cid)%string.

(** [deleteContainer(containerId, client)] (229-242). *)
Definition deleteContainer (cid : string) : prog string :=
  r <- await (DeleteContainer cid) ;;
  match r with
  | Err e => Throw e
  | Ok _ => log [deleted_line cid] ;; Ret cid
  end.

(** The chain up to [createContainer] (249-285), before [containerId] is
    set. *)
Definition tooling_setup : prog string :=
  log [Line LLog "loading related metadata ids"] ;;
  fetchIds ;;
  log [Line LLog "creating stub files"] ;;
  stubs <- createStubFiles ;;
  (match stubs with [] => Ret tt | _ => log [Line LLog ("created " ++ num (length stubs) ++ " stub files")%string] end) ;;
  log [Line LLog "creating static resources"] ;;
  srs <- createStaticResources ;;
  (match srs with [] => Ret tt | _ => log [Line LLog ("deployed " ++ num (length srs) ++ " static resources")%string] end) ;;
  createContainer.

(** The [.finally] of 297-302 for a run whose [containerId] is [cid]. *)
Definition tooling_finally (cid : string) (r : result jserr (option containerStatus))
  : prog (option containerStatus) :=
  if truthy_str cid then
    set_guard 0 ;;
    d <- attempt (deleteContainer cid) ;;
    match d with Err e => Throw e | Ok _ => settle r end
  else settle r.

(** [runToolingDeploy(map, client)] (244-304).  [.then(timesBeingDeployed++)]
    increments the guard while the chain is built, before any call. *)
Definition runToolingDeploy (fuel : nat) : prog (option containerStatus) :=
  g <- get_guard ;;
  if (0 <? g)%Z then Ret None else
  set_guard (g + 1) ;;
  r1 <- attempt tooling_setup ;;
  match r1 with
  | Err e => Throw e
  | Ok cid =>
      r2 <- attempt (createDeployArtifacts cid ;; deployContainer fuel cid) ;;
      tooling_finally cid r2
  end.

(** ** Which calls each phase makes *)

(** Every call except the deletion of a container. *)
Definition not_delete (c : call) : Prop :=
  match c with DeleteContainer _ => False | _ => True end.

Lemma not_delete_intro c : (forall cid, c <> DeleteContainer cid) -> not_delete c.
Proof. destruct c; simpl; auto. intros H. now apply (H cid). Qed.

#[export] Hint Resolve not_delete_intro : dmc.
#[export] Hint Extern 1 (not_delete _) => exact I : dmc.
Lemma phase_setup : phase not_delete tooling_setup.
Proof.
  unfold tooling_setup, fetchIds, createStubFiles, createStaticResources, createContainer,
    stub_iterator, sr_iterator, modify_map, get_map, set_map, await, invoke, log.
  solve_phase; exact I.
Qed.

(** The printing of compiler errors and the [Failed] branch make no call. *)
Lemma phase_log_compiler_errors P es : phase P (log_compiler_errors es).
Proof. induction es as [|e es IH]; simpl; unfold log; solve_phase; exact IH. Qed.

Lemma phase_on_failed P resp : phase P (on_failed resp).
Proof. unfold on_failed, log. solve_phase. apply phase_log_compiler_errors. Qed.

#[export] Hint Resolve phase_log_compiler_errors phase_on_failed : dmc.

Lemma phase_deployContainer fuel cid : phase not_delete (deployContainer fuel cid).
Proof.
  unfold deployContainer, await, log.
  destruct (negb (truthy_str cid)); [constructor|].
  solve_phase; try exact I.
  revert a. induction fuel as [|f IH]; intros aid; simpl; [constructor|].
  solve_phase; try exact I; auto with dmc.
Qed.

Lemma phase_artifacts_deploy fuel cid :
  phase not_delete (createDeployArtifacts cid ;; deployContainer fuel cid).
Proof.
  apply phase_bind; [|intros; apply phase_deployContainer].
  unfold createDeployArtifacts, artifact_iterator, get_map, await, invoke, log.
  solve_phase; exact I.
Qed.

(** ** Unfolding a run *)

Section Run.
Variable env : Env.

(** A run entered with the guard clear increments it and runs the
    setup chain; the rest depends on the setup's outcome. *)
Lemma exec_runToolingDeploy fuel w :
  (w_guard w <= 0)%Z ->
  exec env (runToolingDeploy fuel) w =
  match exec env tooling_setup (with_guard (w_guard w + 1) w) with
  | (Done cid, w1) =>
      exec env (r2 <- attempt (createDeployArtifacts cid ;; deployContainer fuel cid) ;;
                tooling_finally cid r2) w1
  | (Rejected e, w1) => (Rejected e, w1)
  | (o, w1) => (lift_outcome o, w1)
  end.
Proof.
  intros Hg. unfold runToolingDeploy.
  rewrite exec_bind. cbn [exec get_guard].
  replace (0 <? w_guard w)%Z with false by (symmetry; apply Z.ltb_ge; lia).
  rewrite exec_bind. cbn [exec set_guard].
  rewrite exec_bind, exec_attempt.
  destruct (exec env tooling_setup _) as [[cid|e|e| |] w1]; reflexivity.
Qed.

(** The [.finally] once the chain after [createContainer] has settled
    with [r2], for a container id that is set. *)
Lemma exec_tooling_finally cid r2 w2 :
  truthy_str cid = true ->
  exec env (tooling_finally cid r2) w2 =
  let w3 := record_call (DeleteContainer cid) (with_guard 0 w2) in
  match env (w_trace w2) (DeleteContainer cid) with
  | Err e => (Rejected e, w3)
  | Ok _ => exec env (settle r2) (with_log [deleted_line cid] w3)
  end.
Proof.
  intros Hc. unfold tooling_finally. rewrite Hc.
  rewrite exec_bind. cbn [exec set_guard].
  rewrite exec_bind, exec_attempt. unfold deleteContainer. rewrite exec_bind.
  cbn [exec await]. simpl.
  destruct (env (w_trace w2) (DeleteContainer cid)); reflexivity.
Qed.
End Run.

(** A settled outcome: the promise resolved or rejected. *)
Definition settled {A} (o : outcome A) : Prop :=
  match o with Done _ | Rejected _ => True | _ => False end.

(** C3: a run that starts while another holds the guard
    ([timesBeingDeployed > 0]) resolves at once, makes no call and
    changes nothing. *)
Theorem tooling_guard_noop env fuel w :
  (0 < w_guard w)%Z -> exec env (runToolingDeploy fuel) w = (Done None, w).
Proof.
  intros Hg. unfold runToolingDeploy. rewrite exec_bind. cbn [exec get_guard].
  now replace (0 <? w_guard w)%Z with true by (symmetry; apply Z.ltb_lt; lia).
Qed.

(** C1: when [createContainer] returned a container id and the run
    settles (resolves or rejects, whatever failed after the container was
    created), the calls of the run end with exactly one deletion, of that
    container, with no other deletion before it, and the guard is
    released. *)
Theorem tooling_container_deleted_once env fuel w cid w1 :
  (w_guard w <= 0)%Z ->
  exec env tooling_setup (with_guard (w_guard w + 1) w) = (Done cid, w1) ->
  truthy_str cid = true ->
  settled (fst (exec env (runToolingDeploy fuel) w)) ->
  exists pre,
    w_trace (snd (exec env (runToolingDeploy fuel) w)) = w_trace w ++ pre ++ [DeleteContainer cid] /\
    Forall not_delete pre /\
    w_guard (snd (exec env (runToolingDeploy fuel) w)) = 0%Z.
Proof.
  intros Hg Hsetup Hc Hset.
  destruct (exec_phase_trace env not_delete tooling_setup (with_guard (w_guard w + 1) w) phase_setup)
    as (t1 & Ht1 & HF1 & _).
  rewrite Hsetup in Ht1. simpl in Ht1.
  rewrite exec_runToolingDeploy, Hsetup in * by exact Hg.
  rewrite exec_bind, exec_attempt in *.
  destruct (exec_phase_trace env not_delete _ w1 (phase_artifacts_deploy fuel cid))
    as (t2 & Ht2 & HF2 & _).
  destruct (exec env (createDeployArtifacts cid ;; deployContainer fuel cid) w1)
    as [[a|e|e| |] w2] eqn:Hx; simpl in Ht2, Hset; try contradiction;
    rewrite exec_tooling_finally in * by exact Hc;
    exists (t1 ++ t2); (split; [|split; [apply Forall_app; auto|]]);
    destruct (env (w_trace w2) (DeleteContainer cid)); simpl;
    rewrite ?Ht2, ?Ht1; simpl; rewrite ?app_assoc; reflexivity.
Qed.

(** C2: when a phase before [createContainer] rejects ([fetchIds], the
    stubs, the static resources, or [createContainer] itself), the run
    rejects with that error and the [.finally] does nothing, because
    [containerId] is unset: no container is deleted and the guard stays
    incremented, so every later run is a no-op. *)
Theorem tooling_setup_failure_keeps_guard env fuel fuel' w e w1 :
  (w_guard w <= 0)%Z ->
  exec env tooling_setup (with_guard (w_guard w + 1) w) = (Rejected e, w1) ->
  exec env (runToolingDeploy fuel) w = (Rejected e, w1) /\
  w_guard w1 = (w_guard w + 1)%Z /\
  Forall not_delete (calls_made env (runToolingDeploy fuel) w) /\
  (w_guard w = 0%Z -> exec env (runToolingDeploy fuel') w1 = (Done None, w1)).
Proof.
  intros Hg Hsetup.
  destruct (exec_phase env not_delete tooling_setup (with_guard (w_guard w + 1) w) phase_setup)
    as [HF HG].
  rewrite Hsetup in HG. simpl in HG.
  assert (Hrun : exec env (runToolingDeploy fuel) w = (Rejected e, w1))
    by (rewrite exec_runToolingDeploy, Hsetup by exact Hg; reflexivity).
  repeat split.
  - exact Hrun.
  - exact HG.
  - unfold calls_made in *. rewrite Hrun, Hsetup in *. exact HF.
  - intros H0. apply tooling_guard_noop. lia.
Qed.

(** ** The poll loop *)

(** Are the answers to the next [n] status requests, from the history
    [t], all non-terminal states (so that the code is still polling)? *)
Fixpoint polls_pending (env : Env) (aid : string) (n : nat) (t : list call) : bool :=
  match n with
  | O => true
  | S n' =>
      match env t (GetContainerDeployStatus aid) with
      | Ok r => negb (is_terminal (cs_State r)) &&
                polls_pending env aid n' (t ++ [GetContainerDeployStatus aid])
      | Err _ => false
      end
  end.

Lemma terminal_cases st :
  is_terminal st = false ->
  String.eqb st "Completed" = false /\ String.eqb st "Failed" = false /\
  String.eqb st "Errored" = false.
Proof. unfold is_terminal. now destruct (String.eqb st "Completed"), (String.eqb st "Failed"). Qed.

(** The printing of compiler errors either finishes or throws. *)
Lemma exec_log_compiler_errors (env : Env) es w :
  fst (exec env (log_compiler_errors es) w) = Done tt \/
  exists e, fst (exec env (log_compiler_errors es) w) = Crashed e.
Proof.
  revert w. induction es as [|ce es IH]; intros w; simpl; [now left|].
  destruct (first_of (ce_extent ce)), (first_of (ce_name ce)); simpl; eauto.
  destruct (first_of (ce_line ce)), (first_of (ce_problem ce)); simpl; eauto.
Qed.

(** The [Failed] branch rejects or throws; it never stays pending. *)
Lemma on_failed_settles (env : Env) resp w :
  match fst (exec env (on_failed resp) w) with Rejected _ | Crashed _ => True | _ => False end.
Proof.
  unfold on_failed. rewrite exec_bind.
  set (w1 := snd (exec env (if truthy (cs_ErrorMsg resp) then log [ErrorValue (cs_ErrorMsg resp)] else Ret tt) w)).
  replace (exec env (if truthy (cs_ErrorMsg resp) then _ else _) w) with (Done tt, w1)
    by (unfold w1; destruct (truthy (cs_ErrorMsg resp)); reflexivity).
  cbv beta iota. rewrite exec_bind.
  assert (Hc : fst (exec env (match cs_CompilerErrors resp with Some es => log_compiler_errors es
                                | None => Ret tt end) w1) = Done tt \/
               exists e, fst (exec env (match cs_CompilerErrors resp with Some es => log_compiler_errors es
                                        | None => Ret tt end) w1) = Crashed e)
    by (destruct (cs_CompilerErrors resp); [apply exec_log_compiler_errors | now left]).
  destruct (exec env _ w1) as [o w2]. simpl in Hc.
  destruct Hc as [->|[e ->]]; [|exact I].
  destruct (logDetails _ _) as [?|[? ?]]; simpl; exact I.
Qed.

Lemma exec_poll_step (env : Env) (f : nat) aid w :
  exec env (poll (S f) aid) w =
  let w1 := record_call (GetContainerDeployStatus aid) w in
  match env (w_trace w) (GetContainerDeployStatus aid) with
  | Err e => (Rejected e, w1)
  | Ok resp =>
      let w2 := with_log [status_line resp] w1 in
      if String.eqb (cs_State resp) "Completed" then
        (Done resp, with_log [Line LSuccess "deployment successful"] w2)
      else if String.eqb (cs_State resp) "Failed" then exec env (on_failed resp) w2
      else if String.eqb (cs_State resp) "Errored" then (Crashed (ReferenceError "res"), w2)
      else exec env (poll f aid) w2
  end.
Proof.
  cbn [poll]. rewrite exec_bind. cbn [exec await].
  destruct (env (w_trace w) (GetContainerDeployStatus aid)) as [r|e]; [|reflexivity].
  cbn [bind exec log]. cbv zeta.
  destruct (String.eqb (cs_State r) "Completed"); [reflexivity|].
  destruct (String.eqb (cs_State r) "Failed"); [reflexivity|].
  destruct (String.eqb (cs_State r) "Errored"); reflexivity.
Qed.

(** A status that is not terminal ([Completed], [Failed], [Errored])
    is printed and leads to exactly one more status request and nothing
    else: the run continues as the same loop with one poll fewer. *)
Theorem poll_nonterminal_repolls (env : Env) (f : nat) aid w resp :
  env (w_trace w) (GetContainerDeployStatus aid) = Ok resp ->
  is_terminal (cs_State resp) = false ->
  exec env (poll (S f) aid) w =
  exec env (poll f aid) (with_log [status_line resp] (record_call (GetContainerDeployStatus aid) w)).
Proof.
  intros Hr Ht. rewrite exec_poll_step, Hr. simpl.
  destruct (terminal_cases _ Ht) as (-> & -> & ->). reflexivity.
Qed.

Lemma poll_stalled_iff env f aid w :
  fst (exec env (poll f aid) w) = Stalled <-> polls_pending env aid f (w_trace w) = true.
Proof.
  revert w. induction f as [|f IH]; intros w; [simpl; tauto|].
  rewrite exec_poll_step. simpl.
  destruct (env (w_trace w) (GetContainerDeployStatus aid)) as [r|e]; simpl; [|split; discriminate].
  unfold is_terminal.
  destruct (String.eqb (cs_State r) "Completed"); simpl; [split; discriminate|].
  destruct (String.eqb (cs_State r) "Failed"); simpl.
  { pose proof (on_failed_settles env r
      (with_log [status_line r] (record_call (GetContainerDeployStatus aid) w))) as Hs.
    destruct (fst (exec env (on_failed r) _)); try contradiction; split; discriminate. }
  destruct (String.eqb (cs_State r) "Errored"); simpl; [split; discriminate|].
  apply IH.
Qed.

Lemma poll_fuel_mono env f aid w :
  polls_pending env aid f (w_trace w) = false ->
  exec env (poll (S f) aid) w = exec env (poll f aid) w.
Proof.
  revert w. induction f as [|f IH]; intros w Hp; [discriminate|].
  rewrite exec_poll_step. rewrite (exec_poll_step env f). simpl in Hp.
  destruct (env (w_trace w) (GetContainerDeployStatus aid)) as [r|e]; [|reflexivity].
  cbv zeta. unfold is_terminal in Hp.
  destruct (String.eqb (cs_State r) "Completed"); [reflexivity|].
  destruct (String.eqb (cs_State r) "Failed"); [reflexivity|].
  destruct (String.eqb (cs_State r) "Errored"); [reflexivity|].
  simpl in Hp. now apply IH.
Qed.

(** C5: liveness of the poll loop: when one of the answers to the first
    [n] status requests is terminal or an error, the loop stops there:
    with any fuel of at least [n] it does not stall and its outcome does
    not depend on the fuel; it stalls only while every answer is a
    non-terminal state. *)
Theorem poll_terminates env n aid w :
  polls_pending env aid n (w_trace w) = false ->
  forall f, n <= f ->
  exec env (poll f aid) w = exec env (poll n aid) w /\
  fst (exec env (poll f aid) w) <> Stalled.
Proof.
  intros Hp f Hf. induction Hf as [|f Hf IH].
  - split; [reflexivity|]. intros H. apply poll_stalled_iff in H. congruence.
  - assert (Hpf : polls_pending env aid f (w_trace w) = false).
    { destruct (polls_pending env aid f (w_trace w)) eqn:E; [|reflexivity].
      apply poll_stalled_iff in E. destruct IH as [_ IH]. contradiction. }
    rewrite poll_fuel_mono by exact Hpf. exact IH.
Qed.

(** C6: an [Errored] status throws a [ReferenceError] in the status
    callback ([res] is not declared): the run never settles, the
    container is not deleted and the guard is not released. *)
Theorem poll_errored_crashes (env : Env) (f : nat) aid w resp :
  env (w_trace w) (GetContainerDeployStatus aid) = Ok resp ->
  cs_State resp = "Errored" ->
  exec env (poll (S f) aid) w =
  (Crashed (ReferenceError "res"), with_log [status_line resp] (record_call (GetContainerDeployStatus aid) w)).
Proof. intros Hr Hs. rewrite exec_poll_step, Hr, Hs. reflexivity. Qed.

(** C36: a [Failed] deploy whose details report tests run, answered
    without compiler errors: [poll] prints the status line, the error
    message if any, the success and failure lines and the head of the
    test section, then [logDetails(resp.DeployDetails)] (200), called
    without [opts], throws a [TypeError] inside the status callback; the
    "Compiler Errors" rejection is never reached and the run never
    settles. *)
Theorem poll_failed_tests_crashes (env : Env) (f : nat) aid w resp d r :
  env (w_trace w) (GetContainerDeployStatus aid) = Ok resp ->
  cs_State resp = "Failed" -> cs_CompilerErrors resp = None ->
  cs_DeployDetails resp = Some d -> runTestResult d = Some r -> (0 < numTestsRun r)%Z ->
  exec env (poll (S f) aid) w =
  (Crashed (TypeError "Cannot read properties of undefined (reading 'coverage')"),
   with_log ((match componentSuccesses d with Some l => success_lines l | None => [] end) ++
             (match componentFailures d with Some l => failure_lines l | None => [] end) ++ test_head r)
     (with_log (if truthy (cs_ErrorMsg resp) then [ErrorValue (cs_ErrorMsg resp)] else [])
        (with_log [status_line resp] (record_call (GetContainerDeployStatus aid) w)))).
Proof.
  intros Hr Hs Hc Hd Ht Hpos. rewrite exec_poll_step, Hr, Hs. cbv zeta. cbn [String.eqb Ascii.eqb Bool.eqb andb].
  unfold on_failed, log. rewrite Hc, Hd. unfold logDetails. rewrite Ht.
  replace (0 <? numTestsRun r)%Z with true by (symmetry; apply Z.ltb_lt; lia).
  destruct (truthy (cs_ErrorMsg resp)); cbn; [reflexivity|now rewrite with_log_nil].
Qed.

(** C8: when the org rejects the [deployContainer] request, the callback
    calls [cb], which is not declared: the run crashes with a
    [ReferenceError] instead of rejecting. *)
Theorem deployContainer_error_crashes (env : Env) (fuel : nat) cid w (e : jserr) :
  truthy_str cid = true ->
  env (w_trace w) (DeployContainer cid) = Err e ->
  exec env (deployContainer fuel cid) w =
  (Crashed (ReferenceError "cb"), record_call (DeployContainer cid) w).
Proof.
  intros Hc He. unfold deployContainer. rewrite Hc. simpl negb. cbv iota.
  rewrite exec_bind. cbn [exec await]. now rewrite He.
Qed.

(** C7: when the chain after [createContainer] never settles (a crash, or
    a callback that is never called), the [.finally] never runs: the run
    does not settle either, no container is deleted and the guard keeps
    its incremented value. *)
Theorem tooling_unsettled_leaks_container env fuel w cid w1 w2 (o : outcome (option containerStatus)) :
  (w_guard w <= 0)%Z ->
  exec env tooling_setup (with_guard (w_guard w + 1) w) = (Done cid, w1) ->
  exec env (createDeployArtifacts cid ;; deployContainer fuel cid) w1 = (o, w2) ->
  ~ settled o ->
  exec env (runToolingDeploy fuel) w = (lift_outcome o, w2) /\
  w_guard w2 = (w_guard w + 1)%Z /\
  Forall not_delete (calls_made env (runToolingDeploy fuel) w).
Proof.
  intros Hg Hsetup Hx Hns.
  destruct (exec_phase_trace env not_delete tooling_setup (with_guard (w_guard w + 1) w) phase_setup)
    as (t1 & Ht1 & HF1 & HG1).
  destruct (exec_phase_trace env not_delete _ w1 (phase_artifacts_deploy fuel cid))
    as (t2 & Ht2 & HF2 & HG2).
  rewrite Hsetup in Ht1, HG1. rewrite Hx in Ht2, HG2.
  cbn [snd w_guard w_trace with_guard] in Ht1, HG1, Ht2, HG2.
  assert (Hrun : exec env (runToolingDeploy fuel) w = (lift_outcome o, w2)).
  { rewrite exec_runToolingDeploy, Hsetup by exact Hg.
    rewrite exec_bind, exec_attempt, Hx.
    destruct o; simpl in Hns |- *; tauto. }
  split; [exact Hrun|]. split; [congruence|].
  unfold calls_made. rewrite Hrun. simpl. rewrite Ht2, Ht1, <- app_assoc, skipn_app,
    skipn_all, Nat.sub_diag. simpl. apply Forall_app; auto.
Qed.

(** ** Stub creation *)

Section Stubs.
Variable env : Env.

(** The org answers every stub insertion with a non-empty id. *)
Hypothesis inserts_succeed :
  forall t s, exists id, env t (ToolingInsert s) = Ok id /\ truthy_str id = true.

Lemma exec_stub_iterator s w id :
  env (w_trace w) (ToolingInsert s) = Ok id ->
  exec env (stub_iterator s) w =
  (Done (Ok id), with_map (setMetaId (w_map w) (stub_type s) (stub_name s) id)
                          (record_call (ToolingInsert s) (with_log [stub_line s] w))).
Proof.
  intros H. unfold stub_iterator, log. rewrite exec_bind. cbn [exec].
  rewrite exec_bind. cbn [exec await w_trace with_log]. now rewrite H.
Qed.

Lemma exec_stub_series (pending : list stub) w :
  stubs_cover (w_map w) pending ->
  exists ids w',
    exec env (mapSeries stub_iterator pending) w = (Done (Ok ids), w') /\
    w_trace w' = w_trace w ++ map ToolingInsert pending /\
    length ids = length pending /\
    w_guard w' = w_guard w /\
    stubs_cover (w_map w') [].
Proof.
  revert w. induction pending as [|s pending IH]; intros w Hcov.
  - exists [], w. rewrite app_nil_r. auto.
  - destruct (inserts_succeed (w_trace w) s) as (id & Hid & Htr).
    rewrite exec_mapSeries_cons, (exec_stub_iterator s w id Hid).
    set (w1 := with_map _ _).
    destruct (IH w1) as (ids & w' & Hex & Ht & Hl & Hg & Hc).
    { apply stubs_cover_step; assumption. }
    rewrite Hex. exists (id :: ids), w'. repeat split; auto.
    + rewrite Ht. simpl. now rewrite <- app_assoc.
    + simpl. now rewrite Hl.
Qed.

(** C4: when the org accepts every stub insertion, [createStubFiles]
    makes exactly one [tooling.insert] call per member of a member type
    whose identifier is missing or empty, in the map's order, and none
    for a member that has one; afterwards every member of a member type
    has an identifier. *)
Theorem createStubFiles_inserts_missing w :
  exists ids w',
    exec env createStubFiles w = (Done ids, w') /\
    calls_made env createStubFiles w = map ToolingInsert (stubs_of (w_map w)) /\
    length ids = length (stubs_of (w_map w)) /\
    w_guard w' = w_guard w /\
    stubs_of (w_map w') = [].
Proof.
  unfold createStubFiles, calls_made. rewrite exec_bind. cbn [exec get_map].
  pose proof (stubs_cover_init (w_map w)) as Hcov.
  destruct (stubs_of (w_map w)) as [|s ss] eqn:Hs.
  - exists [], w. cbn. rewrite skipn_all. auto.
  - destruct (exec_stub_series (s :: ss) w Hcov) as (ids & w' & Hex & Ht & Hl & Hg & Hc).
    rewrite exec_bind. unfold mapLimit. rewrite Hex.
    exists ids, w'. cbn [exec fst snd]. rewrite Ht, skipn_app, skipn_all, Nat.sub_diag.
    repeat split; auto. now apply stubs_cover_nil.
Qed.
End Stubs.

(** ** Concrete runs

    A small org: two Apex classes without identifiers, the two member
    types of the index, and an environment whose answers are set by a
    scenario (whether [fetchIds] and the deploy request succeed, and the
    terminal state reported at the third status request). *)

Record scenario := {
  sc_fetch_ok : bool;
  sc_deploy_ok : bool;
  sc_final : string
}.

Definition is_status_call (c : call) : bool :=
  match c with GetContainerDeployStatus _ => true | _ => false end.

Definition status_of (st : string) : containerStatus :=
  {| cs_State := st; cs_ErrorMsg := JUndefined; cs_CompilerErrors := None;
     cs_DeployDetails := None |}.

Definition sample_env (sc : scenario) : Env := fun t c =>
  match c return resp_of c with
  | FetchIds => if sc_fetch_ok sc then Ok [] else Err (Error "fetch failed")
  | ToolingInsert s => Ok ("id-" ++ stub_name s)%string
  | ReadFile _ p => Ok ("body of " ++ p)%string
  | StaticResourceWrite _ _ _ _ => Ok tt
  | CreateContainer _ => Ok "C1"
  | CreateDeployArtifact _ _ _ => true
  | AddContainerArtifact _ _ _ _ => Ok tt
  | DeployContainer _ => if sc_deploy_ok sc then Ok "A1" else Err (Error "deploy refused")
  | GetContainerDeployStatus _ =>
      Ok (status_of (if Nat.ltb (length (filter is_status_call t)) 2 then "Queued" else sc_final sc))
  | DeleteContainer _ => Ok tt
  | PathExists _ => true
  | Lstat _ => Ok false
  | MetaDeployAndPoll _ => tt
  | ArchiveFinalize _ => tt
  | MetaDeployResult => Ok None
  | DateNow => 1700000000000%Z
  | LoadConfig => Ok tt
  | LoadIgnores => Ok []
  | GetClient => Ok "58.0"
  | AutoLoad => Ok ([], [])
  | ConfigGet _ => JUndefined
  | GetFiles _ _ => Ok []
  | AddFiles _ => []
  | Glob _ => Ok []
  | TypesFromGlobs _ => []
  | ListMetadata _ => Ok []
  | FilterOnGlobs ps _ _ => Ok ps
  | CreateTypesArray => []
  | RetrieveAndPoll _ _ => Ok "zip"
  | Unzip _ _ => Ok tt
  | Rimraf _ => Ok tt
  | CopyDir _ _ => Ok tt
  | RemoveDir _ => Ok tt
  end.

Definition sample_member (n : string) : member :=
  {| m_type := "ApexClass"; m_name := n; m_id := None;
     m_path := ("src/classes/" ++ n ++ ".cls")%string; m_object := "" |}.

Definition sample_map : metamap :=
  {| mm_memberTypes := ["ApexClass"; "ApexPage"];
     mm_toolingTypes := ["ApexClass"; "ApexPage"; "StaticResource"];
     mm_meta := [("ApexClass", [sample_member "A"; sample_member "B"])] |}.

Definition sample_world (g : Z) : world :=
  {| w_guard := g; w_map := sample_map; w_trace := []; w_log := [] |}.

Definition happy (final : string) : scenario :=
  {| sc_fetch_ok := true; sc_deploy_ok := true; sc_final := final |}.

(** Witness of the cleanup theorem: the deploy fails with compiler errors,
    and the container is still deleted. *)
Lemma tooling_container_deleted_once_witness :
  exists pre,
    w_trace (snd (exec (sample_env (happy "Failed")) (runToolingDeploy 10) (sample_world 0))) =
      w_trace (sample_world 0) ++ pre ++ [DeleteContainer "C1"] /\
    Forall not_delete pre /\
    w_guard (snd (exec (sample_env (happy "Failed")) (runToolingDeploy 10) (sample_world 0))) = 0%Z.
Proof.
  apply (tooling_container_deleted_once (sample_env (happy "Failed")) 10 (sample_world 0) "C1"
           (snd (exec (sample_env (happy "Failed")) tooling_setup (with_guard 1 (sample_world 0))))).
  - simpl. lia.
  - vm_compute. reflexivity.
  - reflexivity.
  - vm_compute. exact I.
Defined.

Definition fetch_fails : scenario :=
  {| sc_fetch_ok := false; sc_deploy_ok := true; sc_final := "Completed" |}.

Lemma tooling_setup_failure_keeps_guard_witness :
  exec (sample_env fetch_fails) (runToolingDeploy 10) (sample_world 0) =
    (Rejected (Error "fetch failed"),
     snd (exec (sample_env fetch_fails) tooling_setup (with_guard 1 (sample_world 0)))) /\
  w_guard (snd (exec (sample_env fetch_fails) tooling_setup (with_guard 1 (sample_world 0)))) = 1%Z /\
  Forall not_delete (calls_made (sample_env fetch_fails) (runToolingDeploy 10) (sample_world 0)) /\
  (w_guard (sample_world 0) = 0%Z ->
   exec (sample_env fetch_fails) (runToolingDeploy 10)
     (snd (exec (sample_env fetch_fails) tooling_setup (with_guard 1 (sample_world 0)))) =
   (Done None, snd (exec (sample_env fetch_fails) tooling_setup (with_guard 1 (sample_world 0))))).
Proof.
  apply (tooling_setup_failure_keeps_guard (sample_env fetch_fails) 10 10 (sample_world 0)).
  - simpl. lia.
  - vm_compute. reflexivity.
Defined.

Lemma tooling_guard_noop_witness :
  exec (sample_env (happy "Completed")) (runToolingDeploy 10) (sample_world 1) =
  (Done None, sample_world 1).
Proof. apply tooling_guard_noop. simpl. lia. Defined.

Lemma createStubFiles_inserts_missing_witness :
  exists ids w',
    exec (sample_env (happy "Completed")) createStubFiles (sample_world 0) = (Done ids, w') /\
    calls_made (sample_env (happy "Completed")) createStubFiles (sample_world 0) =
      map ToolingInsert (stubs_of (w_map (sample_world 0))) /\
    length ids = length (stubs_of (w_map (sample_world 0))) /\
    w_guard w' = w_guard (sample_world 0) /\
    stubs_of (w_map w') = [].
Proof.
  apply createStubFiles_inserts_missing.
  intros t s. exists ("id-" ++ stub_name s)%string. split; reflexivity.
Defined.

Lemma poll_terminates_witness :
  exec (sample_env (happy "Completed")) (poll 5 "A1") (sample_world 0) =
    exec (sample_env (happy "Completed")) (poll 3 "A1") (sample_world 0) /\
  fst (exec (sample_env (happy "Completed")) (poll 5 "A1") (sample_world 0)) <> Stalled.
Proof.
  apply (poll_terminates (sample_env (happy "Completed")) 3 "A1" (sample_world 0)).
  - vm_compute. reflexivity.
  - lia.
Defined.

Lemma poll_nonterminal_repolls_witness :
  exec (sample_env (happy "Completed")) (poll 4 "A1") (sample_world 0) =
  exec (sample_env (happy "Completed")) (poll 3 "A1")
       (with_log [status_line (status_of "Queued")]
          (record_call (GetContainerDeployStatus "A1") (sample_world 0))).
Proof.
  apply (poll_nonterminal_repolls (sample_env (happy "Completed")) 3 "A1" (sample_world 0)
           (status_of "Queued")); reflexivity.
Defined.

Definition two_polls : world :=
  {| w_guard := 1; w_map := sample_map;
     w_trace := [GetContainerDeployStatus "A1"; GetContainerDeployStatus "A1"]; w_log := [] |}.

Lemma poll_errored_crashes_witness :
  exec (sample_env (happy "Errored")) (poll 4 "A1") two_polls =
  (Crashed (ReferenceError "res"),
   with_log [status_line (status_of "Errored")] (record_call (GetContainerDeployStatus "A1") two_polls)).
Proof.
  apply (poll_errored_crashes (sample_env (happy "Errored")) 3 "A1" two_polls (status_of "Errored"));
    reflexivity.
Defined.

Definition deploy_refused : scenario :=
  {| sc_fetch_ok := true; sc_deploy_ok := false; sc_final := "Completed" |}.

Lemma deployContainer_error_crashes_witness :
  exec (sample_env deploy_refused) (deployContainer 10 "C1") (sample_world 1) =
  (Crashed (ReferenceError "cb"), record_call (DeployContainer "C1") (sample_world 1)).
Proof.
  apply (deployContainer_error_crashes (sample_env deploy_refused) 10 "C1" (sample_world 1)
           (Error "deploy refused")); reflexivity.
Defined.

(** Witness of the leak: an [Errored] deploy leaves the container. *)
Lemma tooling_unsettled_leaks_container_witness :
  let env := sample_env (happy "Errored") in
  let w1 := snd (exec env tooling_setup (with_guard 1 (sample_world 0))) in
  let x := exec env (createDeployArtifacts "C1" ;; deployContainer 10 "C1") w1 in
  exec env (runToolingDeploy 10) (sample_world 0) = (lift_outcome (fst x), snd x) /\
  w_guard (snd x) = 1%Z /\
  Forall not_delete (calls_made env (runToolingDeploy 10) (sample_world 0)).
Proof.
  intros env w1 x.
  apply (tooling_unsettled_leaks_container env 10 (sample_world 0) "C1" w1 (snd x) (fst x)).
  - simpl. lia.
  - vm_compute. reflexivity.
  - vm_compute. reflexivity.
  - vm_compute. intros [].
Defined.

(** A deploy that fails with one test run and an error message. *)
Definition failed_with_tests : containerStatus :=
  {| cs_State := "Failed"; cs_ErrorMsg := JStr "1 test failed"; cs_CompilerErrors := None;
     cs_DeployDetails := Some details_with_tests |}.

Definition failing_tests_env : Env := fun t c =>
  match c return resp_of c with
  | GetContainerDeployStatus _ => Ok failed_with_tests
  | c' => sample_env (happy "Failed") t c'
  end.

Lemma poll_failed_tests_crashes_witness :
  exec failing_tests_env (poll 3 "A1") (sample_world 1) =
  (Crashed (TypeError "Cannot read properties of undefined (reading 'coverage')"),
   with_log ((match componentSuccesses details_with_tests with Some l => success_lines l | None => [] end) ++
             (match componentFailures details_with_tests with Some l => failure_lines l | None => [] end) ++
             test_head sample_tests)
     (with_log (if truthy (cs_ErrorMsg failed_with_tests) then [ErrorValue (cs_ErrorMsg failed_with_tests)] else [])
        (with_log [status_line failed_with_tests] (record_call (GetContainerDeployStatus "A1") (sample_world 1))))).
Proof.
  apply (poll_failed_tests_crashes failing_tests_env 2 "A1" (sample_world 1) failed_with_tests
           details_with_tests sample_tests); try reflexivity; vm_compute; reflexivity.
Defined.
