(* ===== verification/Archive.v ===== *)
(** * The Metadata API pipeline ([runMetadataDeploy], deploy.js 449-559)

    The archive pipeline checks the guard, starts [client.meta.deployAndPoll]
    with a zip stream that is still empty, appends the generated
    [package.xml], registers the handlers of the deploy promise, and runs
    [async.mapLimit] over the paths of the map: each iterator checks that
    the path exists, reads its [lstat] and adds the file or directory to
    the zip under a path where the first ["force-app/main/default"] is
    replaced by ["src"].  When every iterator has called back, the zip is
    finalized, which is when the deploy request can be sent; the promise's
    settlement prints the report and, on success only, resets the guard.

    In [run], the call is [runMetadataDeploy(map, client, opts).then(
    (timesBeingDeployed = 1))]: the assignment is evaluated as soon as
    [runMetadataDeploy] returns, before any callback.  [runMetadataDeploy]
    takes that synchronous continuation of its caller as the argument
    [after_call], run right after its own synchronous part.

    The iterator throws inside a promise chain when a path is missing
    ([throw new Error("missing file: " + p)]) and never calls [cb]; a
    rejected [lstat] is not passed to [cb] either.  Such a run never
    settles ([Hang]): the check [!r.exists] and the rejection ["cannot
    deploy - missing files"] of lines 540-552 are unreachable. *)

From S2P Require Import Prelude Report MetaMap Effects AsyncLimit Selector.
Local Open Scope prog_scope.
Local Open Scope list_scope.

(** ** The archive *)

(** [s.replace(pat, rep)] for a string [pat]: the first occurrence of
    [pat] in [s] is replaced by [rep]. *)
Fixpoint replace_first (pat rep s : string) : string :=
  if String.prefix pat s then (rep ++ substring (String.length pat) (String.length s - String.length pat) s)%string
  else match s with
       | EmptyString => EmptyString
       | String c s' => String c (replace_first pat rep s')
       end.

(** [p.replace("force-app/main/default", "src")] (515). *)
Definition remap (p : string) : string := replace_first "force-app/main/default" "src" p.

(** The entry the iterator adds for a path (516-520). *)
Definition entry_of (p : string) (isDir : bool) : archive_entry :=
  if isDir then DirEntry p (remap p) else FileEntry p (remap p).

(** [map.createPackageXML(client.apiVersion)]: the types of the map with
    the names of their members, and the API version. *)
Definition package_xml (mm : metamap) (apiVersion : string) : archive_entry :=
  PackageXml (map (fun e => (fst e, map m_name (snd e))) (mm_meta mm)) apiVersion.

(** The options of [deployAndPoll] (455-462). *)
Definition metaRequest (opts : deploy_opts) : metaDeployRequest := {|
  md_includeDetails := true;
  md_rollbackOnError := true;
  md_runAllTests := if truthy (o_tests opts) then o_tests opts else JBool false
|}.

Definition report_opts_of (opts : deploy_opts) : report_opts :=
  {| opt_coverage := o_coverage opts |}.

(** The iterator of the file checks (500-528): the entry is added and
    its destination path listed. *)
Definition archive_iterator (p : string) : prog (result jserr archive_entry) :=
  e <- await (PathExists p) ;;
  if negb e then Hang
  else
    st <- await (Lstat p) ;;
    match st with
    | Err _ => Hang
    | Ok isDir => log [Line LList (remap p)] ;; Ret (Ok (entry_of p isDir))
    end.

(** [err.message] and [err.errorMessage] as the values the [.catch]
    tests (487-492). *)
Definition err_message_val (e : jserr) : jsval :=
  match e with RemoteError m _ _ => m | _ => JStr (err_message e) end.

Definition err_errorMessage (e : jserr) : jsval :=
  match e with RemoteError _ em _ => em | _ => JUndefined end.

(** The error lines the [.catch] prints (487-492). *)
Definition catch_lines (e : jserr) : list logline :=
  (if truthy (err_message_val e) then [ErrorValue (err_message_val e)] else []) ++
  (if truthy (err_errorMessage e) then [ErrorValue (err_errorMessage e)] else []).


(** The settlement of the deploy promise (479-496). *)
Definition on_deploy_result (opts : deploy_opts) (res : result jserr (option details))
  : prog (option Z) :=
  match res with
  | Ok dets =>
      match logDetails dets (Some (report_opts_of opts)) with
      | Ok lines => log lines ;; set_guard 0 ;; Ret (Some 1%Z)
      | Err (printed, e) => log (printed ++ catch_lines e) ;; Throw e
      end
  | Err e =>
      match e with
      | RemoteError _ _ (Some dets) =>
          match logDetails (Some dets) (Some (report_opts_of opts)) with
          | Ok lines => log (lines ++ catch_lines e) ;; Throw e
          | Err (printed, _) => log printed ;; Hang
          end
      | _ => log (catch_lines e) ;; Throw e
      end
  end.

(** [runMetadataDeploy(map, client, opts)] (449-559), followed by the
    caller's synchronous code [after_call]. *)
Definition runMetadataDeploy (apiVersion : string) (opts : deploy_opts) (after_call : prog unit)
  : prog (option Z) :=
  g <- get_guard ;;
  if (0 <? g)%Z then after_call ;; Ret None else
  mm <- get_map ;;
  invoke (MetaDeployAndPoll (metaRequest opts)) ;;
  log [Line LLog "adding metadata"] ;;
  after_call ;;
  r <- mapLimit 5 (getFilePathsForDeploy mm) archive_iterator ;;
  match r with
  | Err e => Throw e
  | Ok entries =>
      log [Line LLog "starting deploy"] ;;
      invoke (ArchiveFinalize (package_xml mm apiVersion :: entries)) ;;
      res <- await MetaDeployResult ;;
      on_deploy_result opts res
  end.

(** ** The archive path remapping *)

Lemma prefix_app (pat rest : string) : String.prefix pat (pat ++ rest) = true.
Proof.
  induction pat as [|c pat IH]; simpl; [destruct rest; reflexivity|].
  destruct (ascii_dec c c); [exact IH | congruence].
Qed.

Lemma string_length_app (s t : string) : String.length (s ++ t) = String.length s + String.length t.
Proof. induction s; simpl; congruence. Qed.

Lemma substring_all (s : string) : substring 0 (String.length s) s = s.
Proof. induction s; simpl; congruence. Qed.

Lemma substring_after_prefix (pat rest : string) :
  substring (String.length pat) (String.length (pat ++ rest) - String.length pat) (pat ++ rest) = rest.
Proof.
  rewrite string_length_app, Nat.add_comm, Nat.add_sub.
  induction pat as [|c pat IH]; simpl; [apply substring_all | exact IH].
Qed.

Lemma replace_first_prefix (pat rep rest : string) :
  replace_first pat rep (pat ++ rest) = (rep ++ rest)%string.
Proof.
  pose proof (prefix_app pat rest) as H. pose proof (substring_after_prefix pat rest) as H2.
  remember (pat ++ rest)%string as s eqn:E.
  destruct s as [|c s']; cbn [replace_first]; rewrite H, H2; reflexivity.
Qed.

(** ** File checks *)

(** The calls of the file checks: existence and [lstat]. *)
Definition fs_check (c : call) : Prop :=
  match c with PathExists _ | Lstat _ => True | _ => False end.

Lemma phase_archive_iterator p : phase fs_check (archive_iterator p).
Proof.
  unfold archive_iterator, await, log. solve_phase; exact I.
Qed.

Section Checks.
Variable env : Env.

Lemma exec_archive_iterator p w :
  exec env (archive_iterator p) w =
  if env (w_trace w) (PathExists p) then
    match env (w_trace (record_call (PathExists p) w)) (Lstat p) with
    | Ok d => (Done (Ok (entry_of p d)),
               with_log [Line LList (remap p)] (record_call (Lstat p) (record_call (PathExists p) w)))
    | Err _ => (Hung, record_call (Lstat p) (record_call (PathExists p) w))
    end
  else (Hung, record_call (PathExists p) w).
Proof.
  unfold archive_iterator, await, log. rewrite exec_bind. cbn [exec].
  destruct (env (w_trace w) (PathExists p)); [|reflexivity]. simpl negb. cbv iota.
  rewrite exec_bind. cbn [exec].
  destruct (env _ (Lstat p)); reflexivity.
Qed.

(** When every path exists and [lstat] answers with [isDir], the checks
    add one entry per path, in order, and make two calls per path. *)
Lemma exec_archive_all (isDir : string -> bool) paths w :
  (forall t q, env t (PathExists q) = true) ->
  (forall t q, env t (Lstat q) = Ok (isDir q)) ->
  exec env (mapSeries archive_iterator paths) w =
  (Done (Ok (map (fun p => entry_of p (isDir p)) paths)),
   with_log (map (fun p => Line LList (remap p)) paths)
     (append_calls (flat_map (fun p => [PathExists p; Lstat p]) paths) w)).
Proof.
  intros He Hl. revert w. induction paths as [|p ps IH]; intros w.
  - destruct w. unfold with_log, append_calls. simpl. now rewrite !app_nil_r.
  - rewrite exec_mapSeries_cons, exec_archive_iterator, He, Hl, IH. simpl.
    destruct w. unfold with_log, append_calls, record_call. simpl.
    now rewrite <- !app_assoc.
Qed.

(** A path that does not exist stops the checks for good. *)
Lemma exec_archive_missing paths w :
  (forall t q, exists d, env t (Lstat q) = Ok d) ->
  (exists p, In p paths /\ forall t, env t (PathExists p) = false) ->
  fst (exec env (mapSeries archive_iterator paths) w) = Hung.
Proof.
  intros Hl. revert w. induction paths as [|q qs IH]; intros w [p [Hin Hp]]; [destruct Hin|].
  rewrite exec_mapSeries_cons, exec_archive_iterator.
  destruct Hin as [<-|Hin]; [now rewrite Hp|].
  destruct (env (w_trace w) (PathExists q)); [|reflexivity].
  destruct (Hl (w_trace (record_call (PathExists q) w)) q) as [d Hd]. rewrite Hd.
  specialize (IH (with_log [Line LList (remap q)] (record_call (Lstat q) (record_call (PathExists q) w)))
                  (ex_intro _ p (conj Hin Hp))).
  destruct (exec env (mapSeries archive_iterator qs) _) as [o w'].
  simpl in IH. subst o. reflexivity.
Qed.
End Checks.

(** ** Runs of the pipeline *)

Lemma phase_archive_series paths : phase fs_check (mapSeries archive_iterator paths).
Proof. apply phase_mapSeries, phase_archive_iterator. Qed.

Section Runs.
Variable env : Env.

(** A run entered with the guard clear: the deploy is started, the
    caller's code runs, the files are checked, and only when every check
    calls back is the archive finalized and the result awaited. *)
Lemma exec_runMetadataDeploy apiVersion opts k w :
  (w_guard w <= 0)%Z ->
  exec env (runMetadataDeploy apiVersion opts k) w =
  match exec env k (with_log [Line LLog "adding metadata"] (record_call (MetaDeployAndPoll (metaRequest opts)) w)) with
  | (Done _, w1) =>
      match exec env (mapSeries archive_iterator (getFilePathsForDeploy (w_map w))) w1 with
      | (Done (Ok es), w2) =>
          let fin := ArchiveFinalize (package_xml (w_map w) apiVersion :: es) in
          let w3 := record_call fin (with_log [Line LLog "starting deploy"] w2) in
          exec env (on_deploy_result opts (env (w_trace w3) MetaDeployResult))
               (record_call MetaDeployResult w3)
      | (Done (Err e), w2) => (Rejected e, w2)
      | (o, w2) => (lift_outcome o, w2)
      end
  | (o, w1) => (lift_outcome o, w1)
  end.
Proof.
  intros Hg. unfold runMetadataDeploy. rewrite exec_bind. cbn [exec get_guard].
  replace (0 <? w_guard w)%Z with false by (symmetry; apply Z.ltb_ge; lia).
  rewrite exec_bind. cbn [exec get_map]. rewrite exec_bind. cbn [exec invoke].
  rewrite exec_bind. cbn [exec log].
  rewrite exec_bind. destruct (exec env k _) as [[u|e|e| |] w1]; try reflexivity.
  rewrite exec_bind. unfold mapLimit.
  destruct (exec env (mapSeries _ _) w1) as [[[es|e]|e|e| |] w2]; reflexivity.
Qed.

(** C15: a path of the map that does not exist makes the run hang: the
    iterator throws inside a promise chain and never calls back, so the
    archive is never finalized, no deploy result is awaited and the run
    neither resolves nor rejects (the rejection "cannot deploy - missing
    files" is unreachable); the only calls are the start of
    [deployAndPoll] and file checks. *)
Theorem metadata_missing_file_hangs apiVersion opts w p :
  (w_guard w <= 0)%Z ->
  In p (getFilePathsForDeploy (w_map w)) ->
  (forall t, env t (PathExists p) = false) ->
  (forall t q, exists d, env t (Lstat q) = Ok d) ->
  fst (exec env (runMetadataDeploy apiVersion opts (Ret tt)) w) = Hung /\
  exists checks,
    calls_made env (runMetadataDeploy apiVersion opts (Ret tt)) w =
      MetaDeployAndPoll (metaRequest opts) :: checks /\
    Forall fs_check checks.
Proof.
  intros Hg Hin Hp Hl.
  set (w1 := with_log [Line LLog "adding metadata"] (record_call (MetaDeployAndPoll (metaRequest opts)) w)).
  pose proof (exec_archive_missing env (getFilePathsForDeploy (w_map w)) w1 Hl
                (ex_intro _ p (conj Hin Hp))) as Hh.
  destruct (exec_phase_trace env fs_check _ w1 (phase_archive_series (getFilePathsForDeploy (w_map w))))
    as (t & Ht & HF & _).
  unfold calls_made. rewrite exec_runMetadataDeploy by exact Hg. cbn [exec].
  fold w1. destruct (exec env (mapSeries archive_iterator _) w1) as [o w2].
  simpl in Hh. subst o. split; [reflexivity|].
  exists t. simpl in Ht |- *. rewrite Ht. unfold w1. simpl.
  rewrite <- app_assoc, skipn_app, skipn_all, Nat.sub_diag. simpl. auto.
Qed.

(** The settlement makes no call; it resolves with [1] and resets the
    guard when the deploy succeeds, and rejects with the deploy's error,
    leaving the guard as it is, when it fails. *)
Lemma exec_on_deploy_result opts r w :
  w_trace (snd (exec env (on_deploy_result opts r) w)) = w_trace w /\
  match r with
  | Ok _ => fst (exec env (on_deploy_result opts r) w) = Done (Some 1%Z) /\
            w_guard (snd (exec env (on_deploy_result opts r) w)) = 0%Z
  | Err e => fst (exec env (on_deploy_result opts r) w) = Rejected e /\
             w_guard (snd (exec env (on_deploy_result opts r) w)) = w_guard w
  end.
Proof.
  unfold on_deploy_result. destruct r as [d|e].
  - destruct (logDetails_with_opts_ok d (report_opts_of opts)) as [ls H]. rewrite H.
    simpl. auto.
  - destruct e as [| | |m em [d|]]; try (simpl; auto; fail).
    destruct (logDetails_with_opts_ok (Some d) (report_opts_of opts)) as [ls H]. rewrite H.
    simpl. auto.
Qed.

(** C16: when every path exists, the run starts [deployAndPoll] with
    [includeDetails], [rollbackOnError] and [runAllTests] set from
    [--tests], checks each path in order, finalizes an archive holding the
    generated package.xml and one entry per path under its remapped name,
    and awaits the deploy result: these are exactly its calls. *)
Theorem metadata_archive_contents apiVersion opts w (isDir : string -> bool) :
  (w_guard w <= 0)%Z ->
  (forall t q, env t (PathExists q) = true) ->
  (forall t q, env t (Lstat q) = Ok (isDir q)) ->
  calls_made env (runMetadataDeploy apiVersion opts (Ret tt)) w =
    MetaDeployAndPoll (metaRequest opts)
    :: flat_map (fun p => [PathExists p; Lstat p]) (getFilePathsForDeploy (w_map w))
    ++ [ArchiveFinalize (package_xml (w_map w) apiVersion
                         :: map (fun p => entry_of p (isDir p)) (getFilePathsForDeploy (w_map w)));
        MetaDeployResult].
Proof.
  intros Hg He Hl. unfold calls_made.
  rewrite exec_runMetadataDeploy by exact Hg. cbn [exec].
  rewrite (exec_archive_all env isDir _ _ He Hl). cbv zeta.
  rewrite (proj1 (exec_on_deploy_result _ _ _)). simpl.
  rewrite <- !app_assoc, skipn_app, skipn_all, Nat.sub_diag. reflexivity.
Qed.

(** C17: in [run], the guard is set to [1] right after the call; when
    the files are all present the run settles, and the guard is reset to
    [0] only when the deploy succeeds: after a failed deploy it stays [1],
    so every later Metadata deploy of the process is skipped. *)
Theorem metadata_guard_after_settlement apiVersion opts w (isDir : string -> bool) r :
  (w_guard w <= 0)%Z ->
  (forall t q, env t (PathExists q) = true) ->
  (forall t q, env t (Lstat q) = Ok (isDir q)) ->
  (forall t, env t MetaDeployResult = r) ->
  let (o, w') := exec env (runMetadataDeploy apiVersion opts (set_guard 1)) w in
  match r with
  | Ok _ => o = Done (Some 1%Z) /\ w_guard w' = 0%Z
  | Err e => o = Rejected e /\ w_guard w' = 1%Z
  end.
Proof.
  intros Hg He Hl Hr.
  rewrite exec_runMetadataDeploy by exact Hg. cbn [exec set_guard].
  rewrite (exec_archive_all env isDir _ _ He Hl). cbv zeta. rewrite Hr.
  match goal with |- context [exec env (on_deploy_result opts r) ?w2] =>
    destruct (exec_on_deploy_result opts r w2) as [_ Hs];
    destruct (exec env (on_deploy_result opts r) w2) as [o w'] end.
  destruct r; simpl in *; exact Hs.
Qed.
End Runs.

(** While the guard is set, the Metadata pipeline makes no call and
    resolves with [undefined]; only the caller's synchronous code runs. *)
Theorem metadata_guard_noop (env : Env) apiVersion opts w :
  (0 < w_guard w)%Z ->
  calls_made env (runMetadataDeploy apiVersion opts (Ret tt)) w = [] /\
  exec env (runMetadataDeploy apiVersion opts (Ret tt)) w = (Done None, w).
Proof.
  intros Hg. unfold calls_made, runMetadataDeploy. rewrite exec_bind. cbn [exec get_guard].
  replace (0 <? w_guard w)%Z with true by (symmetry; now apply Z.ltb_lt).
  simpl. split; [apply skipn_all | reflexivity].
Qed.

(** Whether [pat] starts at a position inside [a] of the string [a ++ s]. *)
Fixpoint starts_within (pat a s : string) : bool :=
  match a with
  | EmptyString => false
  | String c a' => String.prefix pat (String c (a' ++ s)) || starts_within pat a' s
  end.

(** [replace] leaves a prefix where the pattern does not start alone. *)
Lemma replace_first_skip pat rep a s :
  starts_within pat a s = false ->
  replace_first pat rep (a ++ s) = (a ++ replace_first pat rep s)%string.
Proof.
  induction a as [|c a IH]; cbn [starts_within append]; intros H; [reflexivity|].
  apply orb_false_iff in H as [H1 H2]. cbn [replace_first]. rewrite H1. f_equal. auto.
Qed.

(** C18: [p.replace("force-app/main/default", "src")] rewrites the
    first occurrence of ["force-app/main/default"] wherever it is in the
    path, keeping what precedes it: the root segment of a path in the
    per-component layout ([a] empty), but also an inner occurrence of a
    path under another root, which the spec's root-segment rewrite does
    not cover. *)
Theorem remap_first_occurrence (a rest : string) :
  starts_within "force-app/main/default" a ("force-app/main/default" ++ rest) = false ->
  remap (a ++ "force-app/main/default" ++ rest) = (a ++ "src" ++ rest)%string.
Proof. intros H. unfold remap. rewrite (replace_first_skip _ _ _ _ H). now rewrite replace_first_prefix. Qed.

(** ** Witnesses *)

(** Answers of a file system where the paths [missing] says are absent,
    every other path is a file, and the deploy settles with [r]. *)
Definition archive_env (missing : string -> bool) (r : result jserr (option details)) : Env :=
  fun t c =>
  match c return resp_of c with
  | FetchIds => Ok []
  | ToolingInsert _ => Ok "id"
  | ReadFile _ _ => Ok ""
  | StaticResourceWrite _ _ _ _ => Ok tt
  | CreateContainer _ => Ok "C1"
  | CreateDeployArtifact _ _ _ => true
  | AddContainerArtifact _ _ _ _ => Ok tt
  | DeployContainer _ => Ok "A1"
  | GetContainerDeployStatus _ => Err (Error "unused")
  | DeleteContainer _ => Ok tt
  | PathExists p => negb (missing p)
  | Lstat _ => Ok false
  | MetaDeployAndPoll _ => tt
  | ArchiveFinalize _ => tt
  | MetaDeployResult => r
  | DateNow => 0%Z
  | LoadConfig => Ok tt
  | LoadIgnores => Ok []
  | GetClient => Ok "58.0"
  | AutoLoad => Ok ([], [])
  | ConfigGet _ => JUndefined
  | GetFiles _ _ => Ok []
  | AddFiles _ => []
  | Glob _ => Ok []
  | TypesFromGlobs _ => []
  | ListMetadata _ => Ok []
  | FilterOnGlobs ps _ _ => Ok ps
  | CreateTypesArray => []
  | RetrieveAndPoll _ _ => Ok "zip"
  | Unzip _ _ => Ok tt
  | Rimraf _ => Ok tt
  | CopyDir _ _ => Ok tt
  | RemoveDir _ => Ok tt
  end.

Definition archive_member (n : string) : member :=
  {| m_type := "ApexClass"; m_name := n; m_id := None;
     m_path := ("force-app/main/default/classes/" ++ n ++ ".cls")%string; m_object := "" |}.

Definition archive_map : metamap :=
  {| mm_memberTypes := ["ApexClass"];
     mm_toolingTypes := ["ApexClass"];
     mm_meta := [("ApexClass", [archive_member "A"; archive_member "B"])] |}.

Definition archive_world (g : Z) : world :=
  {| w_guard := g; w_map := archive_map; w_trace := []; w_log := [] |}.

Definition archive_opts : deploy_opts :=
  {| o_meta := JBool true; o_tests := JUndefined; o_coverage := JUndefined; o_globs := [] |}.

Definition no_file (p : string) : bool := false.

Definition b_missing (p : string) : bool :=
  String.eqb p "force-app/main/default/classes/B.cls".

Lemma metadata_missing_file_hangs_witness :
  fst (exec (archive_env b_missing (Ok None)) (runMetadataDeploy "58.0" archive_opts (Ret tt))
            (archive_world 0)) = Hung.
Proof.
  apply (metadata_missing_file_hangs (archive_env b_missing (Ok None)) "58.0" archive_opts
           (archive_world 0) "force-app/main/default/classes/B.cls").
  - simpl. lia.
  - simpl. auto.
  - reflexivity.
  - intros. eexists. reflexivity.
Defined.

Lemma metadata_archive_contents_witness :
  calls_made (archive_env no_file (Ok None)) (runMetadataDeploy "58.0" archive_opts (Ret tt))
             (archive_world 0) =
  [MetaDeployAndPoll (metaRequest archive_opts);
   PathExists "force-app/main/default/classes/A.cls"; Lstat "force-app/main/default/classes/A.cls";
   PathExists "force-app/main/default/classes/B.cls"; Lstat "force-app/main/default/classes/B.cls";
   ArchiveFinalize [package_xml archive_map "58.0";
                    FileEntry "force-app/main/default/classes/A.cls" "src/classes/A.cls";
                    FileEntry "force-app/main/default/classes/B.cls" "src/classes/B.cls"];
   MetaDeployResult].
Proof.
  rewrite (metadata_archive_contents (archive_env no_file (Ok None)) "58.0" archive_opts
             (archive_world 0) (fun _ => false)).
  - vm_compute. reflexivity.
  - simpl. lia.
  - reflexivity.
  - reflexivity.
Defined.

Lemma metadata_guard_after_settlement_witness :
  let (o, w') := exec (archive_env no_file (Err (Error "deploy failed")))
                      (runMetadataDeploy "58.0" archive_opts (set_guard 1)) (archive_world 0) in
  o = Rejected (Error "deploy failed") /\ w_guard w' = 1%Z.
Proof.
  exact (metadata_guard_after_settlement (archive_env no_file (Err (Error "deploy failed")))
           "58.0" archive_opts (archive_world 0) (fun _ => false) (Err (Error "deploy failed"))
           ltac:(simpl; lia) (fun _ _ => eq_refl) (fun _ _ => eq_refl) (fun _ => eq_refl)).
Defined.

Lemma metadata_guard_noop_witness :
  calls_made (archive_env no_file (Ok None)) (runMetadataDeploy "58.0" archive_opts (Ret tt))
             (archive_world 1) = [].
Proof.
  apply (metadata_guard_noop (archive_env no_file (Ok None)) "58.0" archive_opts (archive_world 1)).
  simpl. lia.
Defined.

(** A path under another root has its inner occurrence renamed. *)
Lemma remap_first_occurrence_witness :
  remap ("pkg/" ++ "force-app/main/default" ++ "/classes/A.cls") = ("pkg/" ++ "src" ++ "/classes/A.cls")%string.
Proof. apply remap_first_occurrence. vm_compute. reflexivity. Defined.
