(* ===== verification/Sched.v ===== *)
(** * Interleaving of runs that share the guard

    JavaScript runs one callback at a time: a run's code executes
    synchronously until it waits on a call (an [Await] node), and other
    runs' callbacks may execute before the answer arrives.  The only state
    runs share is the module-level counter [timesBeingDeployed] (deploy.js
    16), beside the history of calls and the console; each run has its own
    metadata map ([metaMap.createMap] in [run]).

    - [chunk] executes a program up to and including its next awaited call
      and returns the continuation, or the outcome when it ends first;
      [exec] is the composition of its chunks ([exec_chunk]), and running a
      single thread chunk by chunk gives exactly [exec] ([run_alone]).
    - [gdp] is the guard discipline of a program: it writes the guard only
      to acquire it ([1]) in the same chunk in which it read [0], to keep it
      at [1] in a chunk in which it read [1], or to release it ([0]) while it
      holds it.  [chunk_gdp] shows what one chunk of such a program does to
      the guard.
    - [sys] is the state of the scheduler: the guard, the identifier of the
      run that last acquired it ([s_owner], an instrumentation of the guard
      writes), the threads with their own maps, the finished runs.
      [sched_step] spawns a thread or runs one chunk of one thread. *)

From S2P Require Import Prelude Report MetaMap Effects.
Local Open Scope prog_scope.
Local Open Scope list_scope.

(** ** Chunks *)

Inductive chunk_result (A : Type) : Type :=
| Paused (p : prog A)        (* waiting for the answer of its last call *)
| Finished (o : outcome A).
Arguments Paused {A} p.
Arguments Finished {A} o.

Section Chunk.
Variable env : Env.

(** The synchronous execution of [p] up to its next awaited call. *)
Fixpoint chunk {A} (p : prog A) (w : world) : chunk_result A * world :=
  match p with
  | Ret a => (Finished (Done a), w)
  | Throw e => (Finished (Rejected e), w)
  | Crash e => (Finished (Crashed e), w)
  | Hang => (Finished Hung, w)
  | Stall => (Finished Stalled, w)
  | Await c k => (Paused (k (env (w_trace w) c)), record_call c w)
  | Invoke c k => chunk (k (env (w_trace w) c)) (record_call c w)
  | GetGuard k => chunk (k (w_guard w)) w
  | SetGuard z k => chunk k (with_guard z w)
  | GetMap k => chunk (k (w_map w)) w
  | SetMap m k => chunk k (with_map m w)
  | Log ls k => chunk k (with_log ls w)
  end.

(** A thread run alone, chunk after chunk, with at most [n] chunks. *)
Fixpoint run_alone {A} (n : nat) (p : prog A) (w : world) : option (outcome A * world) :=
  match n with
  | O => None
  | S n' =>
      match chunk p w with
      | (Finished o, w') => Some (o, w')
      | (Paused p', w') => run_alone n' p' w'
      end
  end.

Lemma exec_chunk {A} (p : prog A) w :
  exec env p w =
  match chunk p w with
  | (Finished o, w') => (o, w')
  | (Paused p', w') => exec env p' w'
  end.
Proof. revert w. induction p; intros w; simpl; auto. Qed.

Lemma run_alone_mono {A} n (p : prog A) w r :
  run_alone n p w = Some r -> run_alone (S n) p w = Some r.
Proof.
  revert p w. induction n as [|n IH]; intros p w H; [discriminate|].
  cbn [run_alone] in *. destruct (chunk p w) as [[p'|o] w']; auto.
Qed.

(** Running a program alone, chunk by chunk, terminates and gives the
    outcome and the world of the sequential interpreter. *)
Lemma run_alone_exec {A} (p : prog A) w : exists n, run_alone n p w = Some (exec env p w).
Proof.
  revert w. induction p; intros w; try (exists 1; reflexivity).
  - destruct (H (env (w_trace w) c) (record_call c w)) as [n Hn]. exists (S n). exact Hn.
  - destruct (H (env (w_trace w) c) (record_call c w)) as [[|n] Hn]; [discriminate|].
    exists (S n). exact Hn.
  - destruct (H (w_guard w) w) as [[|n] Hn]; [discriminate|]. exists (S n). exact Hn.
  - destruct (IHp (with_guard z w)) as [[|n] Hn]; [discriminate|]. exists (S n). exact Hn.
  - destruct (H (w_map w) w) as [[|n] Hn]; [discriminate|]. exists (S n). exact Hn.
  - destruct (IHp (with_map m w)) as [[|n] Hn]; [discriminate|]. exists (S n). exact Hn.
  - destruct (IHp (with_log ls w)) as [[|n] Hn]; [discriminate|]. exists (S n). exact Hn.
Qed.

End Chunk.

(** ** The guard discipline *)

(** Where a thread stands with respect to the guard: not holding it
    ([Free]); not holding it and having read [0] ([Zero]) or [1] ([Busy])
    since its last wait; holding it ([Holding]). *)
Inductive mode : Type := Free | Zero | Busy | Holding.

Definition holds (m : mode) : bool := match m with Holding => true | _ => false end.

Definition read_mode (m : mode) (g : Z) : mode :=
  match m with Free => if (0 <? g)%Z then Busy else Zero | _ => m end.

Definition after_await (m : mode) : mode :=
  match m with Zero | Busy => Free | _ => m end.

(** The guard values a thread in mode [m] can read. *)
Definition guard_ok (m : mode) (g : Z) : Prop :=
  match m with
  | Free => (0 <= g <= 1)%Z
  | Zero => g = 0%Z
  | Busy | Holding => g = 1%Z
  end.

(** [gdp Q E m p]: started in mode [m], [p] follows the discipline and
    ends in a mode and with a value satisfying [Q] when it returns, in a
    mode satisfying [E] when it rejects. *)
Inductive gdp {A} (Q : mode -> A -> Prop) (E : mode -> Prop) : mode -> prog A -> Prop :=
| gd_ret m a : Q m a -> gdp Q E m (Ret a)
| gd_throw m e : E m -> gdp Q E m (Throw e)
| gd_crash m e : gdp Q E m (Crash e)
| gd_hang m : gdp Q E m Hang
| gd_stall m : gdp Q E m Stall
| gd_await m c k : (forall r, gdp Q E (after_await m) (k r)) -> gdp Q E m (Await c k)
| gd_invoke m c k : (forall r, gdp Q E m (k r)) -> gdp Q E m (Invoke c k)
| gd_get m k : (forall g, guard_ok m g -> gdp Q E (read_mode m g) (k g)) -> gdp Q E m (GetGuard k)
| gd_acquire k : gdp Q E Holding k -> gdp Q E Zero (SetGuard 1 k)
| gd_keep k : gdp Q E Busy k -> gdp Q E Busy (SetGuard 1 k)
| gd_release k : gdp Q E Free k -> gdp Q E Holding (SetGuard 0 k)
| gd_getmap m k : (forall mm, gdp Q E m (k mm)) -> gdp Q E m (GetMap k)
| gd_setmap m mm k : gdp Q E m k -> gdp Q E m (SetMap mm k)
| gd_log m ls k : gdp Q E m k -> gdp Q E m (Log ls k).

#[export] Hint Constructors gdp : dmc.

Definition any_end {A} : mode -> A -> Prop := fun _ _ => True.
Definition any_mode : mode -> Prop := fun _ => True.

(** A whole run: it follows the discipline from [Free]. *)
Definition disciplined {A} (p : prog A) : Prop := gdp any_end any_mode Free p.

Lemma gdp_weaken {A} (Q Q' : mode -> A -> Prop) (E E' : mode -> Prop) m p :
  (forall m a, Q m a -> Q' m a) -> (forall m, E m -> E' m) ->
  gdp Q E m p -> gdp Q' E' m p.
Proof. intros HQ HE Hp. induction Hp; eauto with dmc. Qed.

Lemma gdp_bind {A B} (Q : mode -> A -> Prop) (R : mode -> B -> Prop) E m p (f : A -> prog B) :
  gdp Q E m p -> (forall m' a, Q m' a -> gdp R E m' (f a)) -> gdp R E m (bind p f).
Proof. intros Hp Hf. induction Hp; simpl; eauto with dmc. Qed.

(** [.catch]: a rejection in mode [m] becomes an [Err] value in mode [m]. *)
Lemma gdp_attempt {A} (Q : mode -> A -> Prop) E E' m (p : prog A) :
  gdp Q E m p ->
  gdp (fun m' r => match r with Ok a => Q m' a | Err _ => E m' end) E' m (attempt p).
Proof. intros Hp. induction Hp; simpl; eauto with dmc. Qed.

Lemma gdp_settle {A} (r : result jserr A) m (Q : mode -> A -> Prop) (E : mode -> Prop) :
  (forall a, r = Ok a -> Q m a) -> (forall e, r = Err e -> E m) -> gdp Q E m (settle r).
Proof. destruct r; simpl; eauto with dmc. Qed.

Lemma holds_read m g : holds (read_mode m g) = holds m.
Proof. destruct m; simpl; try reflexivity. now destruct (0 <? g)%Z. Qed.

Lemma holds_after_await m : holds (after_await m) = holds m.
Proof. now destruct m. Qed.

(** A phase, which never writes the guard, keeps the thread on its side
    of the guard. *)
Lemma phase_gdp P {A} (p : prog A) m :
  phase P p ->
  gdp (fun m' _ => holds m' = holds m) (fun m' => holds m' = holds m) m p.
Proof.
  intros Hp. revert m. induction Hp; intros m0; eauto with dmc.
  - constructor. intros r. eapply gdp_weaken; [| |apply H1]; intros; rewrite holds_after_await in *; auto.
  - constructor. intros g _. eapply gdp_weaken; [| |apply H0]; intros; rewrite holds_read in *; auto.
Qed.

(** Running a phase and continuing: the continuation starts on the same
    side of the guard. *)
Lemma gdp_phase_bind P {B C} (p : prog B) (f : B -> prog C) Q E m0 :
  phase P p ->
  (forall m a, holds m = holds m0 -> gdp Q E m (f a)) ->
  (forall m, holds m = holds m0 -> E m) ->
  gdp Q E m0 (bind p f).
Proof.
  intros Hp Hf HE. eapply gdp_bind; [|intros m a H; apply Hf; exact H].
  eapply gdp_weaken; [| |apply (phase_gdp P p m0 Hp)]; auto.
Qed.

Lemma holds_true m : holds m = true -> m = Holding.
Proof. now destruct m. Qed.

Lemma gdp_any_settle {A} m (r : result jserr A) : gdp any_end any_mode m (settle r).
Proof. apply gdp_settle; constructor. Qed.

#[export] Hint Resolve gdp_any_settle : dmc.

(** ** One chunk of a disciplined thread

    [mode_inv h m g]: a thread in mode [m] sees the guard [g] while the
    other threads hold it [h] times ([0] or [1]). *)
Definition mode_inv (h : Z) (m : mode) (g : Z) : Prop :=
  match m with
  | Free => g = h
  | Zero => g = 0%Z /\ h = 0%Z
  | Busy => g = 1%Z /\ h = 1%Z
  | Holding => g = 1%Z /\ h = 0%Z
  end.

Lemma mode_inv_guard_ok h m g : (h = 0 \/ h = 1)%Z -> mode_inv h m g -> guard_ok m g.
Proof. destruct m; simpl; lia. Qed.

Lemma mode_inv_read h m g : (h = 0 \/ h = 1)%Z -> mode_inv h m g -> mode_inv h (read_mode m g) g.
Proof.
  intros Hh Hm. destruct m; simpl in *; auto.
  destruct (Z.ltb_spec 0 g); simpl; lia.
Qed.

Lemma mode_inv_after_await h m g : mode_inv h m g -> mode_inv h (after_await m) g.
Proof. destruct m; simpl; lia. Qed.

Lemma after_await_paused m : after_await m = Free \/ after_await m = Holding.
Proof. destruct m; simpl; auto. Qed.

(** What one chunk of a disciplined thread does: the mode it ends in is
    consistent with the new guard for the same holders elsewhere, and the
    continuation, if any, is disciplined from a [Free] or [Holding] mode. *)
Lemma chunk_gdp (env : Env) {A} Q E m (p : prog A) w h :
  (h = 0 \/ h = 1)%Z -> mode_inv h m (w_guard w) -> gdp Q E m p ->
  exists m', mode_inv h m' (w_guard (snd (chunk env p w))) /\
    match fst (chunk env p w) with
    | Paused p' => (m' = Free \/ m' = Holding) /\ gdp Q E m' p'
    | Finished (Done a) => Q m' a
    | Finished (Rejected _) => E m'
    | Finished _ => True
    end.
Proof.
  intros Hh Hinv Hp. revert w Hinv. induction Hp; intros w Hinv; simpl.
  - eauto.
  - eauto.
  - exists m; auto.
  - exists m; auto.
  - exists m; auto.
  - exists (after_await m). split; [now apply mode_inv_after_await|].
    split; [apply after_await_paused | apply H].
  - apply H0. exact Hinv.
  - apply H0; [eapply mode_inv_guard_ok; eauto | now apply mode_inv_read].
  - apply IHHp. simpl in *. lia.
  - apply IHHp. simpl in *. lia.
  - apply IHHp. simpl in *. lia.
  - apply H0. exact Hinv.
  - apply IHHp. exact Hinv.
  - apply IHHp. exact Hinv.
Qed.

(** ** The scheduler *)

Record thread (A : Type) : Type := mkThread {
  th_id : nat;            (* the run's identifier *)
  th_prog : prog A;       (* what it does when its awaited call answers *)
  th_map : metamap        (* its own metadata map *)
}.
Arguments mkThread {A} th_id th_prog th_map.
Arguments th_id {A} _.
Arguments th_prog {A} _.
Arguments th_map {A} _.

Record sys (A : Type) : Type := mkSys {
  s_guard : Z;                        (* timesBeingDeployed *)
  s_owner : option nat;               (* the run that set it from 0, while it is set *)
  s_trace : list call;
  s_log : list logline;
  s_threads : list (thread A);        (* the runs waiting on a call *)
  s_done : list (nat * outcome A);    (* the runs that ended, in order *)
  s_next : nat                        (* the identifier of the next run *)
}.
Arguments mkSys {A}.
Arguments s_guard {A} _.
Arguments s_owner {A} _.
Arguments s_trace {A} _.
Arguments s_log {A} _.
Arguments s_threads {A} _.
Arguments s_done {A} _.
Arguments s_next {A} _.

Inductive label (X : Type) : Type :=
| Spawn (x : X)     (* a new run starts (e.g. a watched file changed) *)
| Run (n : nat).    (* the call awaited by the [n]-th waiting run answers *)
Arguments Spawn {X} x.
Arguments Run {X} n.

(** The owner after a chunk of run [i] moved the guard from [g] to [g']. *)
Definition owner_after (o : option nat) (i : nat) (g g' : Z) : option nat :=
  if (g =? 0)%Z && (0 <? g')%Z then Some i
  else if (0 <? g)%Z && (g' =? 0)%Z then None
  else o.

(** The [n]-th element of a list with the elements before and after it. *)
Fixpoint pick {T} (n : nat) (l : list T) : option (list T * T * list T) :=
  match l, n with
  | [], _ => None
  | x :: l', O => Some ([], x, l')
  | x :: l', S n' =>
      match pick n' l' with
      | Some (pre, y, post) => Some (x :: pre, y, post)
      | None => None
      end
  end.

Lemma pick_app {T} n (l : list T) pre x post :
  pick n l = Some (pre, x, post) -> l = pre ++ x :: post.
Proof.
  revert n pre. induction l as [|y l IH]; intros [|n] pre H; simpl in H; try discriminate.
  - now inversion H.
  - destruct (pick n l) as [[[pre' z] post']|] eqn:E; [|discriminate].
    inversion H; subst. simpl. f_equal. eapply IH; eauto.
Qed.

Section Scheduler.
Context {A X : Type} (env : Env) (spawn : X -> prog A).

Definition th_world (s : sys A) (th : thread A) : world :=
  {| w_guard := s_guard s; w_map := th_map th; w_trace := s_trace s; w_log := s_log s |}.

Definition after_chunk (s : sys A) (pre : list (thread A)) (th : thread A)
    (post : list (thread A)) (r : chunk_result A) (w' : world) : sys A :=
  mkSys (w_guard w') (owner_after (s_owner s) (th_id th) (s_guard s) (w_guard w'))
        (w_trace w') (w_log w')
        (match r with
         | Paused p' => pre ++ mkThread (th_id th) p' (w_map w') :: post
         | Finished _ => pre ++ post
         end)
        (match r with
         | Finished o => s_done s ++ [(th_id th, o)]
         | Paused _ => s_done s
         end)
        (s_next s).

Definition sched_step (l : label X) (s : sys A) : option (sys A) :=
  match l with
  | Spawn x =>
      Some (mkSys (s_guard s) (s_owner s) (s_trace s) (s_log s)
                  (s_threads s ++ [mkThread (s_next s) (spawn x) createMap])
                  (s_done s) (S (s_next s)))
  | Run n =>
      match pick n (s_threads s) with
      | Some (pre, th, post) =>
          let (r, w') := chunk env (th_prog th) (th_world s th) in
          Some (after_chunk s pre th post r w')
      | None => None
      end
  end.

Fixpoint sched_run (ls : list (label X)) (s : sys A) : option (sys A) :=
  match ls with
  | [] => Some s
  | l :: ls' => match sched_step l s with Some s' => sched_run ls' s' | None => None end
  end.

Definition sys_init : sys A := mkSys 0%Z None [] [] [] [] 0.

Inductive reachable : sys A -> Prop :=
| reach_init : reachable sys_init
| reach_step l s s' : reachable s -> sched_step l s = Some s' -> reachable s'.

Lemma reachable_run ls s s' : reachable s -> sched_run ls s = Some s' -> reachable s'.
Proof.
  revert s. induction ls as [|l ls IH]; intros s Hs H; simpl in H; [congruence|].
  destruct (sched_step l s) eqn:E; [|discriminate]. eapply IH; [|exact H].
  eapply reach_step; eauto.
Qed.

(** Two scheduler states that differ at most in the owner. *)
Definition same_but_owner (s1 s2 : sys A) : Prop :=
  s_guard s1 = s_guard s2 /\ s_trace s1 = s_trace s2 /\ s_log s1 = s_log s2 /\
  s_threads s1 = s_threads s2 /\ s_done s1 = s_done s2 /\ s_next s1 = s_next s2.

(** The owner is an instrumentation: it never changes what runs do. *)
Lemma step_same l s1 s2 s1' :
  same_but_owner s1 s2 -> sched_step l s1 = Some s1' ->
  exists s2', sched_step l s2 = Some s2' /\ same_but_owner s1' s2'.
Proof.
  destruct s1, s2. intros (Hg & Ht & Hl & Hth & Hd & Hn) H. simpl in *. subst.
  destruct l as [x|n]; simpl in *.
  - injection H as <-. eexists. split; [reflexivity|]. repeat split.
  - destruct (pick n s_threads1) as [[[pre th] post]|]; [|discriminate].
    destruct (chunk env _ _) as [r w']. injection H as <-.
    eexists. split; [reflexivity|]. repeat split.
Qed.

Lemma run_same ls s1 s2 s1' :
  same_but_owner s1 s2 -> sched_run ls s1 = Some s1' ->
  exists s2', sched_run ls s2 = Some s2' /\ same_but_owner s1' s2'.
Proof.
  revert s1 s2. induction ls as [|l ls IH]; intros s1 s2 Hs H; simpl in *.
  - injection H as <-. eauto.
  - destruct (sched_step l s1) as [t1|] eqn:E; [|discriminate].
    destruct (step_same l s1 s2 t1 Hs E) as (t2 & -> & Ht). eapply IH; eauto.
Qed.

(** A scheduler with the single run [p], identifier [0], in world [w]. *)
Definition solo (o : option nat) (p : prog A) (w : world) : sys A :=
  mkSys (w_guard w) o (w_trace w) (w_log w) [mkThread 0 p (w_map w)] [] 1.

(** The state a solo run reaches when [exec] gives [(o, w')]. *)
Definition solo_done (s : sys A) (o : outcome A) (w' : world) : Prop :=
  s_threads s = [] /\ s_done s = [(0, o)] /\ s_guard s = w_guard w' /\
  s_trace s = w_trace w' /\ s_log s = w_log w'.

Lemma run_same_done ls s1 s2 s1' o w' :
  same_but_owner s1 s2 -> sched_run ls s1 = Some s1' -> solo_done s1' o w' ->
  exists s2', sched_run ls s2 = Some s2' /\ solo_done s2' o w'.
Proof.
  intros Hs Hrun Hd. destruct (run_same ls s1 s2 s1' Hs Hrun) as (s2' & Hrun2 & H).
  exists s2'. split; [exact Hrun2|].
  destruct H as (Hg & Ht & Hl & Hth & Hdn & _), Hd as (? & ? & ? & ? & ?).
  repeat split; congruence.
Qed.

(** Two solo runs whose first chunks agree reach the same ends. *)
Lemma solo_cont (p p' : prog A) w w' o :
  chunk env p w = chunk env p' w' ->
  (exists n s', sched_run (repeat (Run 0) n) (solo o p' w') = Some s' /\
                solo_done s' (fst (exec env p' w')) (snd (exec env p' w'))) ->
  exists n s', sched_run (repeat (Run 0) n) (solo o p w) = Some s' /\
               solo_done s' (fst (exec env p w)) (snd (exec env p w)).
Proof.
  intros Hc ([|n] & s' & Hrun & Hd).
  - simpl in Hrun. injection Hrun as <-. destruct Hd as [Hth _]. discriminate.
  - rewrite (exec_chunk env p w), Hc, <- (exec_chunk env p' w').
    exists (S n). destruct w as [g m t l], w' as [g' m' t' l'].
    unfold solo in Hrun |- *. simpl in Hrun |- *. unfold th_world in Hrun |- *. simpl in Hrun |- *.
    rewrite Hc. destruct (chunk env p' _) as [r w''].
    eapply run_same_done; [ | exact Hrun | exact Hd ]. repeat split.
Qed.

Lemma solo_exec (p : prog A) w o :
  exists n s', sched_run (repeat (Run 0) n) (solo o p w) = Some s' /\
               solo_done s' (fst (exec env p w)) (snd (exec env p w)).
Proof.
  revert w o. induction p; intros w o;
    try (exists 1; eexists; split; [reflexivity | repeat split]; fail).
  - destruct w as [wg wm wt wl].
    destruct (H (env wt c) (record_call c (Build_world wg wm wt wl))
                (owner_after o 0 wg wg)) as (n & s' & Hrun & Hd).
    exists (S n), s'. split; [exact Hrun | exact Hd].
  - apply (solo_cont _ (k (env (w_trace w) c)) _ (record_call c w)); [reflexivity|apply H].
  - apply (solo_cont _ (k (w_guard w)) _ w); [reflexivity|apply H].
  - apply (solo_cont _ p _ (with_guard z w)); [reflexivity|apply IHp].
  - apply (solo_cont _ (k (w_map w)) _ w); [reflexivity|apply H].
  - apply (solo_cont _ p _ (with_map m w)); [reflexivity|apply IHp].
  - apply (solo_cont _ p _ (with_log ls w)); [reflexivity|apply IHp].
Qed.

End Scheduler.

(** ** The guard is owned by one run at a time *)

(** The guard value an owner accounts for. *)
Definition guard_of (o : option nat) : Z := match o with Some _ => 1%Z | None => 0%Z end.

(** How the owner and the guard move in one chunk of run [j], which
    started either not holding the guard ([Free], the others holding it
    as the owner says) or holding it. *)
Lemma owner_step o j m0 h m' g' :
  (m0 = Free /\ h = (guard_of o) \/ m0 = Holding /\ o = Some j /\ h = 0%Z) ->
  mode_inv h m' g' ->
  g' = guard_of (owner_after o j (guard_of o) g') /\
  (holds m' = true -> owner_after o j (guard_of o) g' = Some j) /\
  (owner_after o j (guard_of o) g' = o \/
   (o = None /\ owner_after o j (guard_of o) g' = Some j) \/
   (o = Some j /\ owner_after o j (guard_of o) g' = None)).
Proof.
  unfold owner_after. intros [[_ ->]|(_ & -> & ->)] Hm;
    [destruct o as [i|]|]; destruct m'; simpl in Hm;
    repeat match goal with H : _ /\ _ |- _ => destruct H end; subst; simpl;
    try discriminate; intuition congruence.
Qed.

Section Invariant.
Context {A X : Type} (env : Env) (spawn : X -> prog A).
Hypothesis spawn_disc : forall x, disciplined (spawn x).

(** A waiting run is disciplined from [Free], or it is the owner and is
    disciplined from [Holding]. *)
Definition thread_ok (o : option nat) (th : thread A) : Prop :=
  gdp any_end any_mode Free (th_prog th) \/
  (o = Some (th_id th) /\ gdp any_end any_mode Holding (th_prog th)).

Definition sys_inv (s : sys A) : Prop :=
  s_guard s = guard_of (s_owner s) /\
  Forall (thread_ok (s_owner s)) (s_threads s) /\
  NoDup (map th_id (s_threads s)) /\
  Forall (fun th => th_id th < s_next s) (s_threads s) /\
  (forall i, s_owner s = Some i -> i < s_next s).

Lemma others_ok o o' j (l : list (thread A)) :
  Forall (thread_ok o) l -> (forall k, In k l -> th_id k <> j) ->
  (o' = o \/ (o = None /\ o' = Some j) \/ (o = Some j /\ o' = None)) ->
  Forall (thread_ok o') l.
Proof.
  intros Hl Hid Ho. apply Forall_forall. intros k Hk.
  pose proof (proj1 (Forall_forall _ _) Hl k Hk) as [Hf|[Hown Hh]]; [now left|].
  destruct Ho as [->|[[-> _]|[-> _]]]; [now right|discriminate|].
  exfalso. apply (Hid k Hk). congruence.
Qed.

Lemma nodup_others (pre post : list (thread A)) th :
  NoDup (map th_id (pre ++ th :: post)) -> forall k, In k (pre ++ post) -> th_id k <> th_id th.
Proof.
  intros Hnd k Hk Heq. rewrite map_app in Hnd. simpl in Hnd.
  apply NoDup_remove_2 in Hnd. apply Hnd. rewrite <- map_app, <- Heq. now apply in_map.
Qed.

Lemma sys_inv_spawn s x : sys_inv s -> sys_inv (mkSys (s_guard s) (s_owner s) (s_trace s) (s_log s)
    (s_threads s ++ [mkThread (s_next s) (spawn x) createMap]) (s_done s) (S (s_next s))).
Proof.
  intros (Hg & Hok & Hnd & Hlt & Ho). unfold sys_inv; simpl.
  split; [exact Hg|]. split; [apply Forall_app; split; [exact Hok|constructor; [left; apply spawn_disc|constructor]]|].
  split.
  - rewrite map_app. simpl. apply NoDup_app; [exact Hnd|constructor; [intros []|constructor]|].
    intros i Hi [Heq|[]]. apply in_map_iff in Hi as (th & Hth & Hin).
    pose proof (proj1 (Forall_forall _ _) Hlt th Hin). simpl in *. lia.
  - split; [|intros i Hi; specialize (Ho i Hi); lia].
    apply Forall_app. split; [|constructor; [simpl; lia|constructor]].
    eapply Forall_impl; [|exact Hlt]. simpl. intros; lia.
Qed.
Lemma map_th_id_replace (pre post : list (thread A)) th p m :
  map th_id (pre ++ mkThread (th_id th) p m :: post) = map th_id (pre ++ th :: post).
Proof. now rewrite !map_app. Qed.

(** The owner after a chunk is the old one or the run itself. *)
Lemma owner_after_bound (s : sys A) (th : thread A) g' :
  (forall i, s_owner s = Some i -> i < s_next s) -> th_id th < s_next s ->
  forall i, owner_after (s_owner s) (th_id th) (s_guard s) g' = Some i -> i < s_next s.
Proof.
  intros Ho Hth i. unfold owner_after.
  destruct (_ && _); [congruence|]. destruct (_ && _); [discriminate|]. apply Ho.
Qed.

(** The run [th] starts its chunk in a mode consistent with the guard. *)
Lemma start_mode (s : sys A) (th : thread A) :
  s_guard s = guard_of (s_owner s) -> thread_ok (s_owner s) th ->
  exists m0 h, (m0 = Free /\ h = guard_of (s_owner s) \/
                m0 = Holding /\ s_owner s = Some (th_id th) /\ h = 0%Z) /\
               (h = 0 \/ h = 1)%Z /\ mode_inv h m0 (s_guard s) /\
               gdp any_end any_mode m0 (th_prog th).
Proof.
  intros Hg [Hf|[Ho Hh]].
  - exists Free, (guard_of (s_owner s)). rewrite Hg.
    destruct (s_owner s); simpl; intuition lia.
  - exists Holding, 0%Z. rewrite Hg, Ho. simpl. intuition lia.
Qed.

Lemma sys_inv_run (s : sys A) n s' : sys_inv s -> sched_step env spawn (Run n) s = Some s' -> sys_inv s'.
Proof.
  intros (Hg & Hok & Hnd & Hlt & Ho) Hstep. simpl in Hstep.
  destruct (pick n (s_threads s)) as [[[pre th] post]|] eqn:Hpick; [|discriminate].
  apply pick_app in Hpick.
  destruct (chunk env (th_prog th) (th_world s th)) as [r w'] eqn:Hch.
  injection Hstep as <-. rewrite Hpick in Hok, Hnd, Hlt.
  apply Forall_app in Hok as [Hpre Hrest]. inversion Hrest as [|? ? Hth Hpost]; subst.
  apply Forall_app in Hlt as [Hltpre Hltrest]. inversion Hltrest as [|? ? Hltth Hltpost]; subst.
  destruct (start_mode s th Hg Hth) as (m0 & h & Hm0 & Hh & Hinv & Hgd).
  destruct (chunk_gdp env any_end any_mode m0 (th_prog th) (th_world s th) h Hh Hinv Hgd)
    as (m' & Hm' & Hcont).
  rewrite Hch in Hm', Hcont. simpl in Hm', Hcont.
  destruct (owner_step (s_owner s) (th_id th) m0 h m' (w_guard w') Hm0 Hm') as (Hg' & Hhold & Hmove).
  rewrite <- Hg in Hg', Hhold, Hmove.
  assert (Hothers : Forall (thread_ok (owner_after (s_owner s) (th_id th) (s_guard s) (w_guard w')))
                           (pre ++ post)).
  { eapply others_ok; [apply Forall_app; split; eauto | | exact Hmove].
    apply nodup_others. exact Hnd. }
  apply Forall_app in Hothers as [Hopre Hopost].
  pose proof (owner_after_bound s th (w_guard w') Ho Hltth) as Hbound.
  unfold sys_inv, after_chunk. destruct r as [p'|o]; simpl.
  - destruct Hcont as [Hfh Hgd'].
    split; [exact Hg'|]. split.
    + apply Forall_app. split; [exact Hopre|]. constructor; [|exact Hopost].
      destruct Hfh as [->| ->]; [now left|right; split; [now apply Hhold | exact Hgd']].
    + rewrite map_th_id_replace. split; [exact Hnd|]. split; [|exact Hbound].
      apply Forall_app. split; [exact Hltpre|]. now constructor.
  - split; [exact Hg'|]. split; [apply Forall_app; now split|].
    split; [rewrite map_app in *; simpl in Hnd; now apply NoDup_remove_1 in Hnd|].
    split; [apply Forall_app; now split|exact Hbound].
Qed.

Lemma sys_inv_step l s s' : sys_inv s -> sched_step env spawn l s = Some s' -> sys_inv s'.
Proof.
  destruct l as [x|n]; intros Hs Hstep.
  - injection Hstep as <-. now apply sys_inv_spawn.
  - eapply sys_inv_run; eauto.
Qed.

Lemma reachable_inv s : reachable env spawn s -> sys_inv s.
Proof.
  induction 1 as [|l s s' _ IH Hstep].
  - repeat split; simpl; try constructor. intros i H; discriminate.
  - eapply sys_inv_step; eauto.
Qed.
(** While run [i] owns the guard, a chunk of any other run leaves the
    guard and its owner unchanged. *)
Lemma exclusive_chunk s i n pre th post s' :
  reachable env spawn s -> s_owner s = Some i ->
  pick n (s_threads s) = Some (pre, th, post) -> th_id th <> i ->
  sched_step env spawn (Run n) s = Some s' ->
  s_guard s' = s_guard s /\ s_owner s' = s_owner s.
Proof.
  intros Hr Hown Hpick Hne Hstep.
  destruct (reachable_inv s Hr) as (Hg & Hok & _).
  simpl in Hstep. rewrite Hpick in Hstep.
  destruct (chunk env (th_prog th) (th_world s th)) as [r w'] eqn:Hch.
  injection Hstep as <-.
  apply pick_app in Hpick. rewrite Hpick in Hok.
  apply Forall_app in Hok as [_ Hrest]. inversion Hrest as [|? ? Hth _]; subst.
  destruct Hth as [Hf|[Ho Hh]]; [|congruence].
  assert (Hinv : mode_inv 1 Free (w_guard (th_world s th))) by (simpl; rewrite Hg, Hown; reflexivity).
  destruct (chunk_gdp env any_end any_mode Free (th_prog th) (th_world s th) 1 ltac:(lia) Hinv Hf)
    as (m' & Hm' & _).
  rewrite Hch in Hm'. simpl in Hm'.
  assert (Hw' : w_guard w' = 1%Z) by (destruct m'; simpl in Hm'; lia).
  simpl. rewrite Hw', Hg, Hown. simpl. unfold owner_after. simpl. auto.
Qed.

(** A guard whose owner has ended (or crashed, or hangs with no run
    waiting under its identifier) stays set, with the same owner, for
    every later schedule. *)
Lemma owner_stuck s i ls s' :
  reachable env spawn s -> s_owner s = Some i ->
  (forall th, In th (s_threads s) -> th_id th <> i) ->
  sched_run env spawn ls s = Some s' -> s_owner s' = Some i /\ s_guard s' = 1%Z.
Proof.
  revert s. induction ls as [|l ls IH]; intros s Hr Hown Hnot Hrun.
  - simpl in Hrun. injection Hrun as <-. split; [exact Hown|].
    destruct (reachable_inv s Hr) as (Hg & _). now rewrite Hg, Hown.
  - simpl in Hrun. destruct (sched_step env spawn l s) as [s1|] eqn:Hstep; [|discriminate].
    destruct (reachable_inv s Hr) as (_ & _ & _ & _ & Hlt).
    pose proof (Hlt i Hown) as Hi.
    apply (IH s1); [eapply reach_step; eauto| | |exact Hrun].
    + destruct l as [x|n]; [injection Hstep as <-; exact Hown|].
      pose proof Hstep as Hstep'. simpl in Hstep'.
      destruct (pick n (s_threads s)) as [[[pre th] post]|] eqn:Hpick; [|discriminate].
      assert (Hne : th_id th <> i) by (apply Hnot; apply pick_app in Hpick; rewrite Hpick;
                                       apply in_or_app; right; now left).
      destruct (exclusive_chunk s i n pre th post s1 Hr Hown Hpick Hne Hstep) as [_ ->].
      exact Hown.
    + intros th Hth. destruct l as [x|n].
      * injection Hstep as <-. simpl in Hth. apply in_app_or in Hth as [Hth|[<-|[]]]; [now apply Hnot|].
        simpl. lia.
      * simpl in Hstep. destruct (pick n (s_threads s)) as [[[pre th0] post]|] eqn:Hpick; [|discriminate].
        apply pick_app in Hpick.
        destruct (chunk env (th_prog th0) (th_world s th0)) as [[p'|o] w'];
          injection Hstep as <-; simpl in Hth.
        -- apply in_app_or in Hth as [Hth|[<-|Hth]]; simpl;
             apply Hnot; rewrite Hpick; apply in_or_app; simpl; auto.
        -- apply Hnot. rewrite Hpick. apply in_app_or in Hth as [Hth|Hth]; apply in_or_app; simpl; auto.
Qed.
End Invariant.
