(* ===== verification/Engine.v ===== *)
(** * The entry point [run] (deploy.js 561-637) and the watcher (watch.js)

    [run] creates a fresh map, loads the configuration, the ignore file,
    the client and the org's index, then (unless the guard is set) finds
    the local files and adds them to the map; with files to deploy it
    reads [deploy_mode] and runs one pipeline.  Each [.then] waits on a
    promise: the awaited calls are the points where other runs' callbacks
    may execute.  The promise boundaries between two synchronous steps are
    merged into one chunk: the steps merged never read the guard on one
    side and write it on the other.

    The watcher globs the watched files once, then calls [deploy.run] with
    the changed file as the only glob on every ["update"] event, without
    waiting for the previous run.  Overlapping runs are threads of the
    scheduler of [Sched], spawned by file events; the theorems show what
    the guard guarantees about them. *)

From S2P Require Import Prelude Report MetaMap Effects AsyncLimit Selector Tooling Archive Sched.
Local Open Scope prog_scope.
Local Open Scope list_scope.

(** ** The entry point *)

(** [opts.globs] when non-empty, else the default patterns (564-567). *)
Definition run_globs (opts : deploy_opts) : list string :=
  match o_globs opts with
  | [] => ["src/**/*"; "force-app/main/default/**/*"]
  | gs => gs
  end.

(** What the promise of [run] resolves with. *)
Inductive run_value : Type :=
| NothingToDeploy                               (* [return;] at 613-615 *)
| ToolingValue (r : option containerStatus)     (* the value of [runToolingDeploy] *)
| MetadataValue (r : option Z).                 (* the value of [runMetadataDeploy] *)

(** The search step of 598-610. *)
Definition search_files (opts : deploy_opts) (ignores : list string) : prog unit :=
  g <- get_guard ;;
  if (0 <? g)%Z then Ret tt else
  log [Line LLog "searching for local metadata"] ;;
  fs <- await (GetFiles (run_globs opts) ignores) ;;
  match fs with
  | Err e => Throw e
  | Ok [] => Throw (Error "no files for deployment found")
  | Ok files =>
      log [Line LLog ("deploying " ++ num (length files) ++ " metadata files")%string] ;;
      meta <- invoke (AddFiles files) ;; modify_map (with_meta meta)
  end.

(** The deploy step of 612-633. *)
Definition deploy_step (fuel : nat) (apiVersion : string) (opts : deploy_opts) : prog run_value :=
  mm <- get_map ;;
  match getFilePathsForDeploy mm with
  | [] => Ret NothingToDeploy
  | _ =>
      cfg <- invoke (ConfigGet "deploy_mode") ;;
      log [Line LLog ("deploy mode: " ++ js_to_string (deployMode cfg))%string] ;;
      match select_api mm cfg opts with
      | Some ToolingApi =>
          log [Line LInfo ("deploy api: " ++ hl "tooling")%string] ;;
          r <- runToolingDeploy fuel ;; Ret (ToolingValue r)
      | Some MetadataApi =>
          log [Line LInfo ("deploy api: " ++ hl "metadata")%string] ;;
          r <- runMetadataDeploy apiVersion opts (set_guard 1) ;; Ret (MetadataValue r)
      | None => Ret NothingToDeploy
      end
  end.

(** [run(opts, cb)] (561-637), as the promise it returns. *)
Definition run (fuel : nat) (opts : deploy_opts) : prog run_value :=
  set_map createMap ;;
  c <- await LoadConfig ;;
  match c with Err e => Throw e | Ok _ =>
  ig <- await LoadIgnores ;;
  match ig with Err e => Throw e | Ok ignores =>
  cl <- await GetClient ;;
  match cl with Err e => Throw e | Ok apiVersion =>
  ix <- await AutoLoad ;;
  match ix with Err e => Throw e | Ok idx =>
  modify_map (load_index idx) ;;
  search_files opts ignores ;;
  deploy_step fuel apiVersion opts
  end end end end.

(** ** The watcher *)

(** [opts.globs] when non-empty, else the default patterns (19-21). *)
Definition watch_globs (globs : list string) : list string :=
  match globs with
  | [] => ["src/**/*"; "force-app/main/default/**/*"]
  | gs => gs
  end.

(** [Promise.reduce(globs, (all, g) => glob(g).then(fs => all.concat(fs)), [])]
    (23-30). *)
Fixpoint glob_all (globs : list string) (acc : list string) : prog (list string) :=
  match globs with
  | [] => Ret acc
  | g :: gs =>
      r <- await (Glob g) ;;
      match r with Err e => Throw e | Ok files => glob_all gs (acc ++ files) end
  end.

(** [logger.log("now watching " + hl(allFiles.length) + " files")] (32). *)
Definition watching_line (n : nat) : logline := Line LLog ("now watching " ++ num n ++ " files")%string.

(** The files the watcher watches (23-34). *)
Definition watched_files (globs : list string) : prog (list string) :=
  all <- glob_all (watch_globs globs) [] ;;
  log [watching_line (length all)] ;;
  Ret (uniq all).

(** The options of the [deploy.run] a change event starts (35-56), or
    nothing for an event other than ["update"]. *)
Definition on_change (meta : jsval) (evt name : string) : option deploy_opts :=
  if String.eqb evt "update"
  then Some {| o_meta := meta; o_tests := JUndefined; o_coverage := JUndefined; o_globs := [name] |}
  else None.

(** ** Every run follows the guard discipline *)

Lemma phase_deleteContainer cid : phase (fun _ => True) (deleteContainer cid).
Proof. unfold deleteContainer, await, log. solve_phase; exact I. Qed.

Lemma tooling_finally_gdp cid r :
  gdp any_end any_mode Holding (tooling_finally cid r).
Proof.
  unfold tooling_finally. destruct (truthy_str cid); [|apply gdp_any_settle].
  unfold set_guard. cbn [bind]. apply gd_release.
  apply (gdp_phase_bind (fun _ => True)); [apply phase_attempt, phase_deleteContainer| |constructor].
  intros m [u|e] _; [apply gdp_any_settle|constructor; exact I].
Qed.

(** The Tooling pipeline, entered not holding the guard: it acquires the
    guard when it reads [0] and releases it only in its [.finally]. *)
Lemma tooling_gdp fuel m : m = Free \/ m = Busy -> gdp any_end any_mode m (runToolingDeploy fuel).
Proof.
  intros Hm. unfold runToolingDeploy, get_guard. cbn [bind]. constructor. intros g Hg.
  destruct Hm as [-> | ->]; cbn [read_mode guard_ok] in Hg |- *.
  - destruct (Z.ltb_spec 0 g); [constructor; exact I|].
    replace g with 0%Z by lia. cbn [bind set_guard Z.add]. apply gd_acquire.
    apply (gdp_phase_bind not_delete); [apply phase_attempt, phase_setup| |constructor].
    intros m [cid|e] Hh; apply holds_true in Hh; subst m; [|constructor; exact I].
    apply (gdp_phase_bind not_delete); [apply phase_attempt, phase_artifacts_deploy| |constructor].
    intros m r2 Hh. apply holds_true in Hh. subst m. apply tooling_finally_gdp.
  - subst g. replace (0 <? 1)%Z with true by reflexivity. constructor. exact I.
Qed.

Lemma on_deploy_result_gdp opts res : gdp any_end any_mode Holding (on_deploy_result opts res).
Proof.
  unfold on_deploy_result, log, set_guard.
  destruct res as [dets|[| | |m em [dets|]]]; cbn [bind];
    repeat match goal with |- context [match ?x with _ => _ end] => destruct x end;
    cbn [bind]; repeat constructor.
Qed.

(** The Metadata pipeline followed by [timesBeingDeployed = 1]: it
    acquires the guard in the chunk in which it read [0], keeps it at [1]
    when it read [1], and releases it only when the deploy succeeds. *)
Lemma metadata_gdp apiVersion opts m :
  m = Free \/ m = Busy -> gdp any_end any_mode m (runMetadataDeploy apiVersion opts (set_guard 1)).
Proof.
  intros Hm. unfold runMetadataDeploy, get_guard. cbn [bind]. constructor. intros g Hg.
  destruct Hm as [-> | ->]; cbn [read_mode guard_ok] in Hg |- *.
  - destruct (Z.ltb_spec 0 g).
    + unfold set_guard. cbn [bind]. apply gd_keep. constructor. exact I.
    + unfold get_map, invoke, set_guard, log. cbn [bind]. constructor. intros mm.
      constructor. intros _. constructor. apply gd_acquire.
      apply (gdp_phase_bind fs_check); [apply phase_mapLimit, phase_archive_iterator| |constructor].
      intros m [entries|e] Hh; apply holds_true in Hh; subst m; [|constructor; exact I].
      unfold await. cbn [bind]. constructor. constructor. intros _. constructor. intros res.
      apply on_deploy_result_gdp.
  - subst g. replace (0 <? 1)%Z with true by reflexivity.
    unfold set_guard. cbn [bind]. apply gd_keep. constructor. exact I.
Qed.

(** The search step ends without holding the guard; it has read [1]
    ([Busy]) or waited since its read ([Free]). *)
Lemma search_gdp opts ignores :
  gdp (fun m _ => m = Free \/ m = Busy) any_mode Free (search_files opts ignores).
Proof.
  unfold search_files, get_guard, log. cbn [bind]. constructor. intros g Hg. cbn [read_mode guard_ok] in Hg |- *.
  destruct (Z.ltb_spec 0 g); [constructor; auto|].
  unfold await. cbn [bind]. constructor. constructor. intros [[|f fs]|e]; simpl; try (constructor; exact I).
  unfold modify_map, get_map, set_map. cbn [bind]. repeat constructor; auto.
Qed.

Lemma deploy_step_gdp fuel apiVersion opts m :
  m = Free \/ m = Busy -> gdp any_end any_mode m (deploy_step fuel apiVersion opts).
Proof.
  intros Hm. unfold deploy_step, get_map, invoke, log. cbn [bind]. constructor. intros mm.
  destruct (getFilePathsForDeploy mm); [constructor; exact I|].
  constructor. intros cfg. constructor.
  destruct (select_api mm cfg opts) as [[|]|]; [constructor| constructor |constructor; exact I].
  - eapply gdp_bind; [apply tooling_gdp, Hm|]. intros. constructor. exact I.
  - eapply gdp_bind; [apply metadata_gdp, Hm|]. intros. constructor. exact I.
Qed.

Lemma run_disciplined fuel opts : disciplined (run fuel opts).
Proof.
  unfold disciplined, run, set_map, await, modify_map, get_map. cbn [bind].
  constructor. constructor. intros [u|e]; [|constructor; exact I].
  constructor. intros [ignores|e]; [|constructor; exact I].
  constructor. intros [apiVersion|e]; [|constructor; exact I].
  constructor. intros [idx|e]; [|constructor; exact I].
  cbn [bind after_await]. constructor. intros mm. constructor.
  eapply gdp_bind; [apply search_gdp|]. intros m a Hm. now apply deploy_step_gdp.
Qed.

(** ** Concrete schedules *)

(** A member for a local file, already known to the org. *)
Definition engine_member (f : string) : member :=
  {| m_type := "ApexClass"; m_name := f; m_id := Some ("id-" ++ f)%string; m_path := f; m_object := "" |}.

(** An org that accepts every Tooling deploy and answers the Metadata
    deploy with [r]; the clock reads the number of calls made so far. *)
Definition engine_env (r : result jserr (option details)) : Env := fun t c =>
  match c return resp_of c with
  | FetchIds => Ok []
  | ToolingInsert s => Ok ("id-" ++ stub_name s)%string
  | ReadFile _ _ => Ok "body"
  | StaticResourceWrite _ _ _ _ => Ok tt
  | CreateContainer name => Ok name
  | CreateDeployArtifact _ _ _ => true
  | AddContainerArtifact _ _ _ _ => Ok tt
  | DeployContainer cid => Ok ("deploy-" ++ cid)%string
  | GetContainerDeployStatus _ => Ok (status_of "Completed")
  | DeleteContainer _ => Ok tt
  | PathExists _ => true
  | Lstat _ => Ok false
  | MetaDeployAndPoll _ => tt
  | ArchiveFinalize _ => tt
  | MetaDeployResult => r
  | DateNow => Z.of_nat (length t)
  | LoadConfig => Ok tt
  | LoadIgnores => Ok []
  | GetClient => Ok "58.0"
  | AutoLoad => Ok (["ApexClass"], ["ApexClass"])
  | ConfigGet _ => JUndefined
  | GetFiles globs _ => Ok globs
  | AddFiles files => [("ApexClass", map engine_member files)]
  | Glob g => Ok [g]
  | TypesFromGlobs _ => []
  | ListMetadata _ => Ok []
  | FilterOnGlobs ps _ _ => Ok ps
  | CreateTypesArray => []
  | RetrieveAndPoll _ _ => Ok "zip"
  | Unzip _ _ => Ok tt
  | Rimraf _ => Ok tt
  | CopyDir _ _ => Ok tt
  | RemoveDir _ => Ok tt
  end.

(** The runs [watch] starts for a change of [f], with and without [--meta]. *)
Definition tooling_opts (f : string) : deploy_opts :=
  {| o_meta := JUndefined; o_tests := JUndefined; o_coverage := JUndefined; o_globs := [f] |}.
Definition meta_opts (f : string) : deploy_opts :=
  {| o_meta := JBool true; o_tests := JUndefined; o_coverage := JUndefined; o_globs := [f] |}.

(** ** Theorems *)

Section Runs.
Variable env : Env.
Variable fuel : nat.

(** C19: in every state reachable by starting runs of [run] at any time
    and answering their calls in any order, [timesBeingDeployed] is [0]
    or [1], and it is [1] exactly when some run acquired it and has not
    released it. *)
Theorem watch_guard_bounded s :
  reachable env (run fuel) s ->
  s_guard s = guard_of (s_owner s) /\ (s_guard s = 0 \/ s_guard s = 1)%Z.
Proof.
  intros Hr. destruct (reachable_inv env (run fuel) (run_disciplined fuel) s Hr) as [Hg _].
  split; [exact Hg|]. rewrite Hg. destruct (s_owner s); simpl; auto.
Qed.

(** C20: while a run owns the guard, whatever another run does when its
    awaited call answers leaves the guard and its owner unchanged: no
    second run acquires or releases it. *)
Theorem runs_exclusive s i n pre th post s' :
  reachable env (run fuel) s -> s_owner s = Some i ->
  pick n (s_threads s) = Some (pre, th, post) -> th_id th <> i ->
  sched_step env (run fuel) (Run n) s = Some s' ->
  s_guard s' = s_guard s /\ s_owner s' = s_owner s.
Proof. apply exclusive_chunk. apply run_disciplined. Qed.

(** C21: when the run owning the guard is no longer waiting on any call
    (it rejected, crashed or hangs with no callback pending), the guard
    stays [1] with the same owner whatever runs start and answer later. *)
Theorem owner_gone_guard_stuck s i ls s' :
  reachable env (run fuel) s -> s_owner s = Some i ->
  (forall th, In th (s_threads s) -> th_id th <> i) ->
  sched_run env (run fuel) ls s = Some s' ->
  s_owner s' = Some i /\ s_guard s' = 1%Z.
Proof. apply owner_stuck. apply run_disciplined. Qed.

(** The setup of [run] (569-595) when the configuration, the ignore
    file, the client and the index load. *)
Lemma exec_run_setup opts w ig v idx :
  (forall t, env t LoadConfig = Ok tt) -> (forall t, env t LoadIgnores = Ok ig) ->
  (forall t, env t GetClient = Ok v) -> (forall t, env t AutoLoad = Ok idx) ->
  exec env (run fuel opts) w =
  exec env (search_files opts ig ;; deploy_step fuel v opts)
       (with_map (load_index idx createMap)
          (record_call AutoLoad (record_call GetClient (record_call LoadIgnores
             (record_call LoadConfig (with_map createMap w)))))).
Proof.
  intros H1 H2 H3 H4. unfold run, set_map, await, modify_map, get_map. cbn [bind exec].
  rewrite H1. cbn [exec]. rewrite H2. cbn [exec]. rewrite H3. cbn [exec]. rewrite H4. cbn [exec].
  unfold set_map. cbn [bind exec]. reflexivity.
Qed.

(** The world after the setup of [run]. *)
Definition setup_world (idx : list string * list string) (w : world) : world :=
  with_map (load_index idx createMap)
    (record_call AutoLoad (record_call GetClient (record_call LoadIgnores
       (record_call LoadConfig (with_map createMap w))))).

(** A run with the guard set resolves with nothing deployed after the
    setup. *)
Lemma exec_run_guard_set opts w ig v idx :
  (0 < w_guard w)%Z ->
  (forall t, env t LoadConfig = Ok tt) -> (forall t, env t LoadIgnores = Ok ig) ->
  (forall t, env t GetClient = Ok v) -> (forall t, env t AutoLoad = Ok idx) ->
  exec env (run fuel opts) w = (Done NothingToDeploy, setup_world idx w).
Proof.
  intros Hg H1 H2 H3 H4. rewrite (exec_run_setup opts w ig v idx H1 H2 H3 H4).
  unfold search_files, get_guard. cbn [bind exec record_call with_map w_guard].
  replace (0 <? w_guard w)%Z with true by (symmetry; now apply Z.ltb_lt).
  reflexivity.
Qed.

(** A run with the guard clear whose search finds nothing rejects after
    printing the search line. *)
Lemma exec_run_no_files opts w ig v idx :
  w_guard w = 0%Z ->
  (forall t, env t LoadConfig = Ok tt) -> (forall t, env t LoadIgnores = Ok ig) ->
  (forall t, env t GetClient = Ok v) -> (forall t, env t AutoLoad = Ok idx) ->
  (forall t, env t (GetFiles (run_globs opts) ig) = Ok []) ->
  exec env (run fuel opts) w =
  (Rejected (Error "no files for deployment found"),
   record_call (GetFiles (run_globs opts) ig)
     (with_log [Line LLog "searching for local metadata"] (setup_world idx w))).
Proof.
  intros Hg H1 H2 H3 H4 H5. rewrite (exec_run_setup opts w ig v idx H1 H2 H3 H4).
  unfold search_files, get_guard, await, log. cbn [bind exec record_call with_map w_guard w_trace].
  rewrite Hg. change (0 <? 0)%Z with false. cbn [exec bind record_call with_map with_log w_trace].
  rewrite H5. reflexivity.
Qed.

(** C22: a run started while the guard is set loads the configuration,
    the ignore file, the client and the org's index, then resolves with
    nothing deployed: these four calls are all it makes (the spec asks
    for no call at all). *)
Theorem run_guard_set_setup_only opts w ig v idx :
  (0 < w_guard w)%Z ->
  (forall t, env t LoadConfig = Ok tt) -> (forall t, env t LoadIgnores = Ok ig) ->
  (forall t, env t GetClient = Ok v) -> (forall t, env t AutoLoad = Ok idx) ->
  calls_made env (run fuel opts) w = [LoadConfig; LoadIgnores; GetClient; AutoLoad] /\
  fst (exec env (run fuel opts) w) = Done NothingToDeploy /\
  w_guard (snd (exec env (run fuel opts) w)) = w_guard w.
Proof.
  intros Hg H1 H2 H3 H4. unfold calls_made. rewrite (exec_run_guard_set opts w ig v idx Hg H1 H2 H3 H4).
  cbn. rewrite <- !app_assoc, skipn_app, skipn_all, Nat.sub_diag. auto.
Qed.

(** C23: a run with the guard clear whose file search finds nothing
    rejects with "no files for deployment found" after the setup calls
    and the search, and deploys nothing. *)
Theorem run_no_files_rejects opts w ig v idx :
  w_guard w = 0%Z ->
  (forall t, env t LoadConfig = Ok tt) -> (forall t, env t LoadIgnores = Ok ig) ->
  (forall t, env t GetClient = Ok v) -> (forall t, env t AutoLoad = Ok idx) ->
  (forall t, env t (GetFiles (run_globs opts) ig) = Ok []) ->
  calls_made env (run fuel opts) w =
    [LoadConfig; LoadIgnores; GetClient; AutoLoad; GetFiles (run_globs opts) ig] /\
  fst (exec env (run fuel opts) w) = Rejected (Error "no files for deployment found").
Proof.
  intros Hg H1 H2 H3 H4 H5. unfold calls_made. rewrite (exec_run_no_files opts w ig v idx Hg H1 H2 H3 H4 H5).
  cbn. rewrite <- !app_assoc, skipn_app, skipn_all, Nat.sub_diag. auto.
Qed.

Lemma exec_glob_all (fs : string -> list string) gs acc w :
  (forall t g, env t (Glob g) = Ok (fs g)) ->
  exec env (glob_all gs acc) w = (Done (acc ++ flat_map fs gs), append_calls (map Glob gs) w).
Proof.
  intros Hg. revert acc w. induction gs as [|g gs IH]; intros acc w; simpl.
  - now rewrite app_nil_r, append_calls_nil.
  - rewrite Hg, IH, <- app_assoc, record_call_append, append_calls_app. reflexivity.
Qed.

(** The watcher globs each pattern once, in order (the default
    patterns when none is given), and watches every file the globs found,
    each once. *)
Theorem watched_files_spec (fs : string -> list string) globs w :
  (forall t g, env t (Glob g) = Ok (fs g)) ->
  exists l, exec env (watched_files globs) w =
    (Done l, with_log [watching_line (length (flat_map fs (watch_globs globs)))]
               (append_calls (map Glob (watch_globs globs)) w)) /\
            NoDup l /\ (forall x, In x l <-> exists g, In g (watch_globs globs) /\ In x (fs g)).
Proof.
  intros Hg. unfold watched_files. rewrite exec_bind, (exec_glob_all fs _ [] w Hg).
  exists (uniq (flat_map fs (watch_globs globs))). split; [reflexivity|].
  destruct (uniq_spec (flat_map fs (watch_globs globs))) as [Hnd Hin].
  split; [exact Hnd|]. intros x. rewrite Hin, in_flat_map. reflexivity.
Qed.

End Runs.

(** Run 0 deploys A.cls with the Tooling API up to the deletion of its
    container, which releases the guard; then run 1 starts for B.cls and
    runs until it waits on the creation of its own container. *)
Definition overlap_schedule : list (label deploy_opts) :=
  Spawn (tooling_opts "A.cls") :: repeat (Run 0) 12 ++
  Spawn (tooling_opts "B.cls") :: repeat (Run 1) 7.

(** Run 0 deploys A.cls with [--meta] and the deploy fails; then run 1
    starts for B.cls and runs to its end. *)
Definition blocked_schedule : list (label deploy_opts) :=
  Spawn (meta_opts "A.cls") :: repeat (Run 0) 9 ++
  Spawn (tooling_opts "B.cls") :: repeat (Run 0) 5.

Definition deploy_failed : jserr := Error "deploy failed".

(** A concrete schedule: the Tooling cleanup releases the guard before the container is
    deleted, so a run started meanwhile acquires the guard and creates
    its own container while the first run still waits on the deletion of
    its container. *)
Example tooling_cleanup_overlaps :
  option_map (fun s => (s_owner s, map th_id (s_threads s),
                        skipn 15 (s_trace s)))
    (sched_run (engine_env (Ok None)) (run 5) overlap_schedule sys_init) =
  Some (Some 1, [0; 1],
        [DeleteContainer "dmc:8"; LoadConfig; LoadIgnores; GetClient; AutoLoad;
         GetFiles ["B.cls"] []; AddFiles ["B.cls"]; ConfigGet "deploy_mode";
         FetchIds; DateNow; CreateContainer "dmc:24"]).
Proof. vm_compute. reflexivity. Qed.

(** A concrete schedule: after a failed Metadata deploy the guard stays set: a later run
    makes only its setup calls and resolves with nothing deployed. *)
Example failed_metadata_blocks_later_runs :
  option_map (fun s => (s_guard s, s_owner s, s_done s, skipn 12 (s_trace s)))
    (sched_run (engine_env (Err deploy_failed)) (run 5) blocked_schedule sys_init) =
  Some (1%Z, Some 0, [(0, Rejected deploy_failed); (1, Done NothingToDeploy)],
        [LoadConfig; LoadIgnores; GetClient; AutoLoad]).
Proof. vm_compute. reflexivity. Qed.

(** ** Witnesses *)

Lemma some_not_none {T} (o : option T) :
  match o with Some _ => true | None => false end = true -> o = None -> False.
Proof. now intros H ->. Qed.

Lemma option_map_some {T U} (o : option T) (x : T) (f : T -> U) (y : U) :
  o = Some x -> option_map f o = Some y -> f x = y.
Proof. intros -> H. now injection H. Qed.

Lemma watch_guard_bounded_witness :
  match sched_run (engine_env (Ok None)) (run 5) overlap_schedule sys_init with
  | Some s => s_guard s = guard_of (s_owner s) /\ (s_guard s = 0 \/ s_guard s = 1)%Z
  | None => False
  end.
Proof.
  destruct (sched_run (engine_env (Ok None)) (run 5) overlap_schedule sys_init) as [s|] eqn:E.
  - apply (watch_guard_bounded (engine_env (Ok None)) 5 s).
    exact (reachable_run _ _ _ _ _ (reach_init _ _) E).
  - revert E; apply some_not_none; vm_compute; reflexivity.
Defined.

Lemma runs_exclusive_witness :
  match sched_run (engine_env (Ok None)) (run 5) overlap_schedule sys_init with
  | Some s =>
      match sched_step (engine_env (Ok None)) (run 5) (Run 0) s with
      | Some s' => s_guard s' = s_guard s /\ s_owner s' = s_owner s
      | None => False
      end
  | None => False
  end.
Proof.
  destruct (sched_run (engine_env (Ok None)) (run 5) overlap_schedule sys_init) as [s|] eqn:E;
    [|revert E; apply some_not_none; vm_compute; reflexivity].
  pose proof (reachable_run _ _ _ _ _ (reach_init _ _) E) as Hr.
  pose proof (option_map_some _ _ s_owner _ E ltac:(vm_compute; reflexivity)) as Hown.
  pose proof (option_map_some _ _ (fun s => match pick 0 (s_threads s) with
                                            | Some (_, t, _) => th_id t | None => 1 end)
                _ E ltac:(vm_compute; reflexivity)) as Hid.
  pose proof (option_map_some _ _ (fun s => match sched_step (engine_env (Ok None)) (run 5) (Run 0) s with
                                            | Some _ => true | None => false end)
                _ E ltac:(vm_compute; reflexivity)) as Hstep.
  cbv beta in Hid, Hstep.
  destruct (pick 0 (s_threads s)) as [[[pre th] post]|] eqn:Hp; [|discriminate].
  destruct (sched_step (engine_env (Ok None)) (run 5) (Run 0) s) as [s'|] eqn:E'; [|discriminate].
  apply (runs_exclusive (engine_env (Ok None)) 5 s 1 0 pre th post s' Hr Hown Hp);
    [rewrite Hid; discriminate | exact E'].
Defined.

Lemma owner_gone_guard_stuck_witness :
  match sched_run (engine_env (Err deploy_failed)) (run 5)
          (Spawn (meta_opts "A.cls") :: repeat (Run 0) 9) sys_init with
  | Some s =>
      match sched_run (engine_env (Err deploy_failed)) (run 5)
              (Spawn (tooling_opts "B.cls") :: repeat (Run 0) 5) s with
      | Some s' => s_owner s' = Some 0 /\ s_guard s' = 1%Z
      | None => False
      end
  | None => False
  end.
Proof.
  destruct (sched_run (engine_env (Err deploy_failed)) (run 5) _ sys_init) as [s|] eqn:E;
    [|revert E; apply some_not_none; vm_compute; reflexivity].
  pose proof (reachable_run _ _ _ _ _ (reach_init _ _) E) as Hr.
  pose proof (option_map_some _ _ s_owner _ E ltac:(vm_compute; reflexivity)) as Hown.
  pose proof (option_map_some _ _ s_threads _ E ltac:(vm_compute; reflexivity)) as Hth.
  pose proof (option_map_some _ _ (fun s => match sched_run (engine_env (Err deploy_failed)) (run 5)
                    (Spawn (tooling_opts "B.cls") :: repeat (Run 0) 5) s with
                    | Some _ => true | None => false end) _ E ltac:(vm_compute; reflexivity)) as Hrun.
  cbv beta in Hrun.
  destruct (sched_run (engine_env (Err deploy_failed)) (run 5) _ s) as [s'|] eqn:E'; [|discriminate].
  apply (owner_gone_guard_stuck (engine_env (Err deploy_failed)) 5 s 0
           (Spawn (tooling_opts "B.cls") :: repeat (Run 0) 5) s' Hr Hown);
    [rewrite Hth; intros th [] | exact E'].
Defined.

Lemma run_guard_set_setup_only_witness :
  calls_made (engine_env (Ok None)) (run 5 (tooling_opts "A.cls"))
    {| w_guard := 1; w_map := createMap; w_trace := []; w_log := [] |} =
  [LoadConfig; LoadIgnores; GetClient; AutoLoad].
Proof.
  exact (proj1 (run_guard_set_setup_only (engine_env (Ok None)) 5 (tooling_opts "A.cls")
           {| w_guard := 1; w_map := createMap; w_trace := []; w_log := [] |}
           [] "58.0" (["ApexClass"], ["ApexClass"]) ltac:(simpl; lia) (fun _ => eq_refl)
           (fun _ => eq_refl) (fun _ => eq_refl) (fun _ => eq_refl))).
Defined.

Lemma run_no_files_rejects_witness :
  fst (exec (sample_env (happy "Completed")) (run 5 (tooling_opts "A.cls")) (sample_world 0)) =
  Rejected (Error "no files for deployment found").
Proof.
  exact (proj2 (run_no_files_rejects (sample_env (happy "Completed")) 5 (tooling_opts "A.cls")
           (sample_world 0) [] "58.0" ([], []) eq_refl (fun _ => eq_refl) (fun _ => eq_refl)
           (fun _ => eq_refl) (fun _ => eq_refl) (fun _ => eq_refl))).
Defined.

Lemma watched_files_spec_witness :
  exists l, exec (engine_env (Ok None)) (watched_files ["a"; "b"; "a"]) (sample_world 0) =
            (Done l, with_log [watching_line 3] (append_calls [Glob "a"; Glob "b"; Glob "a"] (sample_world 0)))
            /\ NoDup l.
Proof.
  destruct (watched_files_spec (engine_env (Ok None)) (fun g => [g]) ["a"; "b"; "a"]
              (sample_world 0) (fun _ _ => eq_refl)) as (l & H & Hnd & _).
  exists l. split; [exact H | exact Hnd].
Defined.
