(* ===== verification/Watcher.v ===== *)
(** * The watcher's deploy callback (watch.js 35-58)

    On every ["update"] event the watcher calls [deploy.run(opts, cb)]
    with a callback that reports the run (watch.js 44-53).  [run] hands
    its promise and [cb] to [resolve(cb, fn)] of lib/resolve, which
    calls [cb(err)] when the promise rejects and [cb(null, res)] when it
    resolves.  The callback prints ["deploy failed: " +
    JSON.stringify(err) + ", re-watching files"] on an error, and
    ["deploy complete: re-watching files"] when [res && res !== null].

    This file models what [run] resolves with as a JavaScript value, the
    serialization of the errors the code rejects with, the callback, the
    handler of one event run to the end of the deploy it starts, and a
    watch session ([run] of watch.js) whose events each arrive after the
    previous deploy has ended; [Sched] covers the overlapping schedules.
    The theorems show: the report of every event as a function of how
    its run settles; that an error raised with [new Error(...)] is
    reported as ["{}"], so the watcher never shows why a deploy failed;
    and that once the guard is left set, every later change of the
    session is neither deployed nor reported. *)

From S2P Require Import Prelude Report MetaMap Effects Selector Tooling Archive Engine.
Local Open Scope prog_scope.
Local Open Scope list_scope.

(** ** What the promise of [run] resolves with *)

(** [res && res !== null] for the value [run] resolves with: [undefined]
    when nothing is deployed (613-615), when [runToolingDeploy] is a
    no-op ([Promise.resolve()], 247) or [deployContainer] has no
    container (162); the poll response of [deployContainer] (an object);
    [undefined] or [1] for [runMetadataDeploy] (its [.then] at 631 is
    given a number and passes the value through). *)
Definition run_value_truthy (v : run_value) : bool :=
  match v with
  | NothingToDeploy => false
  | ToolingValue None => false
  | ToolingValue (Some _) => true
  | MetadataValue None => false
  | MetadataValue (Some z) => truthy (JNum z)
  end.

(** The options of the run an ["update"] of [name] starts (38-43). *)
Definition update_opts (meta : jsval) (name : string) : deploy_opts :=
  {| o_meta := meta; o_tests := JUndefined; o_coverage := JUndefined; o_globs := [name] |}.

Section Callback.
(** How the client serializes the errors of the Metadata API: the
    development does not fix it. *)
Variable remote_json : jsval -> jsval -> option details -> string.

(** [JSON.stringify(err)]: an [Error], [ReferenceError] or [TypeError]
    instance has no enumerable own property, so it is ["{}"]. *)
Definition stringify_err (e : jserr) : string :=
  match e with
  | Error _ | ReferenceError _ | TypeError _ => "{}"
  | RemoteError m em d => remote_json m em d
  end.

(** The callback the watcher passes to [deploy.run] (44-53). *)
Definition deploy_callback (r : result jserr run_value) : list logline :=
  match r with
  | Err err => [Line LError ("deploy failed: " ++ stringify_err err ++ ", re-watching files")%string]
  | Ok res =>
      if run_value_truthy res then [Line LSuccess "deploy complete: re-watching files"] else []
  end.

(** [resolve(cb, fn)] of lib/resolve: the promise of [fn], with [cb]
    called when it settles. *)
Definition resolve_cb {A} (cb : result jserr A -> list logline) (p : prog A) : prog A :=
  r <- attempt p ;; log (cb r) ;; settle r.

(** The change handler [promiseWatcher] (35-56) for one event, followed
    to the end of the deploy it starts; the watcher does not use the
    promise [deploy.run] returns. *)
Definition watch_event (fuel : nat) (meta : jsval) (evt name : string) : prog unit :=
  match on_change meta evt name with
  | None => Ret tt
  | Some opts => _ <- attempt (resolve_cb deploy_callback (run fuel opts)) ;; Ret tt
  end.

(** The handler registered by [watcher.on("change", promiseWatcher)]
    (58) for the events in the order they arrive, each followed to the
    end of its deploy before the next. *)
Fixpoint watch_events (fuel : nat) (meta : jsval) (evs : list (string * string)) : prog unit :=
  match evs with
  | [] => Ret tt
  | (evt, name) :: evs' => watch_event fuel meta evt name ;; watch_events fuel meta evs'
  end.

(** [run(opts)] of watch.js (18-60): the watched files, then the events. *)
Definition watch_run (fuel : nat) (globs : list string) (meta : jsval) (evs : list (string * string))
  : prog unit :=
  _ <- watched_files globs ;; watch_events fuel meta evs.

(** The [.action] of [watch [globs...]] (68-71): [watch] has no
    [--tests] or [--coverage] option, only [--meta]. *)
Definition watch_action (fuel : nat) (globs : list string) (meta : bool) (evs : list (string * string))
  : prog unit :=
  watch_run fuel globs (flag meta) evs.

(** The loading calls of the runs the events start. *)
Definition loading_calls (evs : list (string * string)) : list call :=
  flat_map (fun ev => if String.eqb (fst ev) "update" then [LoadConfig; LoadIgnores; GetClient; AutoLoad] else []) evs.

Lemma exec_resolve_cb {A} (env : Env) (cb : result jserr A -> list logline) p w :
  exec env (resolve_cb cb p) w =
  match exec env p w with
  | (Done a, w1) => (Done a, with_log (cb (Ok a)) w1)
  | (Rejected e, w1) => (Rejected e, with_log (cb (Err e)) w1)
  | (o, w1) => (lift_outcome o, w1)
  end.
Proof.
  unfold resolve_cb, log. rewrite exec_bind, exec_attempt.
  destruct (exec env p w) as [[a|e|e| |] w1]; reflexivity.
Qed.

(** The handler of an ["update"] event, from how its run settles. *)
Lemma exec_watch_update (env : Env) fuel meta name w :
  exec env (watch_event fuel meta "update" name) w =
  match exec env (run fuel (update_opts meta name)) w with
  | (Done v, w1) => (Done tt, with_log (deploy_callback (Ok v)) w1)
  | (Rejected e, w1) => (Done tt, with_log (deploy_callback (Err e)) w1)
  | (o, w1) => (lift_outcome o, w1)
  end.
Proof.
  unfold watch_event, on_change. cbn [String.eqb Ascii.eqb Bool.eqb andb].
  rewrite exec_bind, exec_attempt, exec_resolve_cb.
  destruct (exec env (run fuel _) w) as [[v|e|e| |] w1]; reflexivity.
Qed.

(** C34: a change to a file the search does not find (ignored by
    .dmcignore, or deleted) with the guard clear: the run rejects with
    "no files for deployment found", and the watcher prints "deploy
    failed: {}, re-watching files": [JSON.stringify] of an [Error] drops
    its message, so the report never says why the deploy failed. *)
Theorem watch_error_message_lost (env : Env) fuel meta name w ig v idx :
  w_guard w = 0%Z ->
  (forall t, env t LoadConfig = Ok tt) -> (forall t, env t LoadIgnores = Ok ig) ->
  (forall t, env t GetClient = Ok v) -> (forall t, env t AutoLoad = Ok idx) ->
  (forall t, env t (GetFiles [name] ig) = Ok []) ->
  w_log (snd (exec env (watch_event fuel meta "update" name) w)) =
    w_log w ++ [Line LLog "searching for local metadata";
                Line LError "deploy failed: {}, re-watching files"].
Proof.
  intros Hg H1 H2 H3 H4 H5. rewrite exec_watch_update.
  rewrite (exec_run_no_files env fuel (update_opts meta name) w ig v idx Hg H1 H2 H3 H4 H5).
  cbn. now rewrite <- app_assoc.
Qed.

(** C35: once the guard is left set with no run to release it (a failed
    Metadata deploy, or a Tooling setup that failed before creating its
    container), the watcher deploys nothing and reports nothing for the
    rest of the session: every later ["update"] starts a run that only
    loads the configuration, the ignore file, the client and the index,
    no line is printed, and the guard stays set. *)
Theorem watch_session_guard_stuck (env : Env) fuel meta evs w ig v idx :
  (0 < w_guard w)%Z ->
  (forall t, env t LoadConfig = Ok tt) -> (forall t, env t LoadIgnores = Ok ig) ->
  (forall t, env t GetClient = Ok v) -> (forall t, env t AutoLoad = Ok idx) ->
  fst (exec env (watch_events fuel meta evs) w) = Done tt /\
  w_log (snd (exec env (watch_events fuel meta evs) w)) = w_log w /\
  w_guard (snd (exec env (watch_events fuel meta evs) w)) = w_guard w /\
  w_trace (snd (exec env (watch_events fuel meta evs) w)) = w_trace w ++ loading_calls evs.
Proof.
  intros Hg H1 H2 H3 H4. revert w Hg. induction evs as [|[evt name] evs IH]; intros w Hg.
  - cbn. rewrite app_nil_r. auto.
  - cbn [watch_events loading_calls flat_map fst]. rewrite exec_bind.
    destruct (String.eqb_spec evt "update") as [->|Hne].
    + rewrite exec_watch_update, (exec_run_guard_set env fuel _ w ig v idx Hg H1 H2 H3 H4).
      cbn [run_value_truthy]. rewrite with_log_nil.
      destruct (IH (setup_world idx w) Hg) as (Hd & Hl & Hg' & Ht).
      rewrite Hd, Hl, Hg', Ht. cbn. rewrite <- !app_assoc. auto.
    + unfold watch_event, on_change. rewrite (proj2 (String.eqb_neq evt "update") Hne).
      cbn [exec]. destruct (IH w Hg) as (Hd & Hl & Hg' & Ht). auto.
Qed.

End Callback.

(** The org of [Engine] on a workspace whose search finds no file (the
    changed file is ignored). *)
Definition ignoring_env : Env := fun t c =>
  match c return resp_of c with
  | GetFiles _ _ => Ok []
  | c' => engine_env (Ok None) t c'
  end.

Definition idle_world (g : Z) : world :=
  {| w_guard := g; w_map := createMap; w_trace := []; w_log := [] |}.

(** A change to an ignored class is reported as "deploy failed: {}". *)
Lemma watch_error_message_lost_witness :
  w_log (snd (exec ignoring_env (watch_event (fun _ _ _ => "") 5 JUndefined "update" "src/classes/A.cls") (idle_world 0))) =
    w_log (idle_world 0) ++ [Line LLog "searching for local metadata";
                             Line LError "deploy failed: {}, re-watching files"].
Proof.
  apply (watch_error_message_lost (fun _ _ _ => "") ignoring_env 5 JUndefined "src/classes/A.cls"
           (idle_world 0) [] "58.0" (["ApexClass"], ["ApexClass"])); intros; reflexivity.
Defined.


(** The guard is held; two saves of a class and an event that is not an
    update: eight loading calls and no line printed. *)
Lemma watch_session_guard_stuck_witness :
  let evs := [("update", "src/classes/A.cls"); ("remove", "src/classes/B.cls"); ("update", "src/classes/A.cls")] in
  let W := exec (engine_env (Ok None)) (watch_events (fun _ _ _ => "") 5 JUndefined evs) (idle_world 1) in
  fst W = Done tt /\ w_log (snd W) = w_log (idle_world 1) /\
  w_guard (snd W) = w_guard (idle_world 1) /\
  w_trace (snd W) = w_trace (idle_world 1) ++ loading_calls evs.
Proof.
  intros evs W.
  apply (watch_session_guard_stuck (fun _ _ _ => "") (engine_env (Ok None)) 5 JUndefined evs
           (idle_world 1) [] "58.0" (["ApexClass"], ["ApexClass"]));
    [cbn; lia|intros; reflexivity..].
Defined.
