(* ===== verification/AsyncMachine.v ===== *)
(** * async's [mapLimit] as a machine (async's eachOfLimit and _asyncMap)

    [AsyncLimit] runs the iterators of [async.mapLimit(coll, limit,
    iteratee, callback)] one after the other.  The library itself starts
    up to [limit] iteratees at once and starts the next element whenever
    one calls back.  This file models that algorithm as a state machine
    whose only nondeterminism is which element in flight calls back
    next; every iteratee answers [answer x] for its element [x].

    The state is the one of eachOfLimit: the index of the next element
    ([m_next], the iterator of the collection), the elements in flight
    ([m_running], whose length is the counter [running]), the [done]
    flag, the [results] array of _asyncMap, and what the final callback
    (wrapped by [once]) has received.  [replenish] is the [while] loop of
    eachOfLimit; [complete i] is the iteratee callback of element [i].
    Callbacks are asynchronous here, so the [looping] guard never fires.

    The theorems show: a well-formedness invariant of every reachable
    state (never more than [limit] in flight, indices distinct and
    started, results only for finished elements); every schedule ends
    after at most [length xs] callbacks with the final callback called;
    when every element succeeds, every schedule gives the sequential
    result of [AsyncLimit.mapSeries], in the order of the collection;
    and after a failure the elements still in flight keep running.

    Section [StubBatch] instantiates the machine at the batch of
    [createStubFiles] (deploy.js 20-52): five inserts at a time, each
    insert callback writing its id into the map.  The claims are stated
    there.  The file comes after [Engine] only for the environment its
    examples run the Tooling model against. *)

From S2P Require Import Prelude Report MetaMap Effects AsyncLimit Tooling Engine.
Local Open Scope list_scope.

(** [a[i] = v] on an array of fixed length. *)
Fixpoint upd {T} (l : list T) (i : nat) (v : T) : list T :=
  match l, i with
  | [], _ => []
  | _ :: l', O => v :: l'
  | x :: l', S i' => x :: upd l' i' v
  end.

(** [once(callback)]: only the first call is delivered. *)
Definition call_once {R} (fin : option R) (r : R) : option R :=
  match fin with Some _ => fin | None => Some r end.

(** The sequential model on iterators that answer at once. *)
Lemma mapSeries_pure {A B} (env : Env) (f : A -> result jserr B) xs w vs :
  fst (exec env (mapSeries (fun x => Ret (f x)) xs) w) = Done (Ok vs) ->
  Forall2 (fun x v => f x = Ok v) xs vs.
Proof.
  revert vs. induction xs as [|x xs IH]; intros vs H.
  - cbn in H. injection H as <-. constructor.
  - rewrite exec_mapSeries_cons in H. cbn [exec] in H.
    destruct (f x) as [v|e] eqn:Ef; [|discriminate].
    destruct (exec env (mapSeries (fun x => Ret (f x)) xs) w) as [o w'] eqn:E.
    destruct o as [[vs'|e]|e|e| |]; cbn in H; try discriminate.
    injection H as <-. constructor; [exact Ef|]. apply IH. reflexivity.
Qed.

Section Machine.
Context {A B : Type}.
Variable limit : nat.
Variable xs : list A.
Variable answer : A -> result jserr B.

Record mstate := mkM {
  m_next : nat;                                       (* index of the next element *)
  m_running : list nat;                               (* elements in flight *)
  m_results : list (option B);                        (* [results] of _asyncMap *)
  m_done : bool;                                      (* [done] *)
  m_final : option (result jserr (list (option B)))   (* what [callback] received *)
}.

(** [replenish()]: [while (running < limit && !done)] start the next
    element, or, when there is none, set [done] and call back when
    nothing is in flight; [k] bounds the iterations. *)
Fixpoint replenish (k : nat) (s : mstate) : mstate :=
  match k with
  | O => s
  | S k' =>
      if ((length (m_running s) <? limit)%nat) && negb (m_done s) then
        if (m_next s <? length xs)%nat then
          replenish k' (mkM (S (m_next s)) (m_running s ++ [m_next s]) (m_results s) (m_done s) (m_final s))
        else
          mkM (m_next s) (m_running s) (m_results s) true
              (match m_running s with [] => call_once (m_final s) (Ok (m_results s)) | _ => m_final s end)
      else s
  end.

(** The call of [mapLimit]: an empty [results] array, then [replenish()]. *)
Definition start : mstate :=
  replenish (S limit) (mkM 0 [] (repeat None (length xs)) false None).

(** The callback of element [i] ([iterateeCallback] behind the wrapper of
    _asyncMap that stores [results[index] = v]). *)
Definition complete (i : nat) (s : mstate) : mstate :=
  let running := remove Nat.eq_dec i (m_running s) in
  match nth_error xs i with
  | None => s
  | Some x =>
      match answer x with
      | Err e => mkM (m_next s) running (m_results s) true (call_once (m_final s) (Err e))
      | Ok v =>
          let res := upd (m_results s) i (Some v) in
          if m_done s then
            match running with
            | [] => mkM (m_next s) running res true (call_once (m_final s) (Ok res))
            | _ => mkM (m_next s) running res true (m_final s)
            end
          else replenish (S limit) (mkM (m_next s) running res false (m_final s))
      end
  end.

(** One step of the event loop: an element in flight calls back. *)
Inductive mstep : mstate -> mstate -> Prop :=
| ms_complete s i : In i (m_running s) -> mstep s (complete i s).

(** Schedules of [k] callbacks. *)
Inductive msteps : nat -> mstate -> mstate -> Prop :=
| msteps_refl s : msteps 0 s s
| msteps_step k s s' s'' : mstep s s' -> msteps k s' s'' -> msteps (S k) s s''.

Definition reachable (s : mstate) : Prop := exists k, msteps k start s.

(** ** The loop of [replenish] in closed form *)

(** How many elements one [replenish()] starts. *)
Definition starts (s : mstate) : nat :=
  Nat.min (limit - length (m_running s)) (length xs - m_next s).

Lemma replenish_spec k s :
  m_done s = false -> length (m_running s) <= limit -> m_next s <= length xs ->
  limit - length (m_running s) < k ->
  replenish k s =
  let m := starts s in
  let r := m_running s ++ seq (m_next s) m in
  if (length (m_running s) + m <? limit)%nat then
    mkM (m_next s + m) r (m_results s) true
        (match r with [] => call_once (m_final s) (Ok (m_results s)) | _ => m_final s end)
  else mkM (m_next s + m) r (m_results s) false (m_final s).
Proof.
  revert s. induction k as [|k IH]; intros [nx r res d fin];
    cbn [m_running m_next m_done m_results m_final]; intros Hd Hl Hn Hk; [lia|].
  subst d. unfold starts. cbn [replenish m_running m_next m_done m_results m_final negb].
  rewrite andb_true_r.
  destruct (Nat.ltb_spec (length r) limit) as [Hlt|Hge].
  - destruct (Nat.ltb_spec nx (length xs)) as [Hx|Hx].
    + rewrite IH by (cbn [m_running m_next m_done]; rewrite ?length_app; cbn; lia).
      unfold starts. cbn [m_running m_next m_done m_results m_final]. rewrite length_app. cbn [length].
      set (m' := Nat.min (limit - (length r + 1)) (length xs - S nx)).
      replace (Nat.min (limit - length r) (length xs - nx)) with (S m') by (unfold m'; lia).
      cbn [seq]. rewrite <- app_assoc. cbn [app].
      replace (length r + 1 + m') with (length r + S m') by lia.
      now replace (S nx + m') with (nx + S m') by lia.
    + replace (Nat.min (limit - length r) (length xs - nx)) with 0 by lia.
      cbn [seq]. rewrite app_nil_r, !Nat.add_0_r.
      destruct (Nat.ltb_spec (length r) limit); [reflexivity | lia].
  - replace (Nat.min (limit - length r) (length xs - nx)) with 0 by lia.
    cbn [seq]. rewrite app_nil_r, !Nat.add_0_r.
    destruct (Nat.ltb_spec (length r) limit); [lia | reflexivity].
Qed.

(** ** Well-formed states *)

(** The shape of every state of the machine. *)
Record wf (s : mstate) : Prop := {
  wf_limit : length (m_running s) <= limit;
  wf_nodup : NoDup (m_running s);
  wf_started : forall i, In i (m_running s) -> i < m_next s;
  wf_next : m_next s <= length xs;
  wf_len : length (m_results s) = length xs;
  wf_busy : m_done s = false -> length (m_running s) = limit /\ m_final s = None;
  wf_called : m_done s = true -> m_running s = [] -> m_final s <> None;
  wf_results : forall i v, nth_error (m_results s) i = Some (Some v) ->
    ~ In i (m_running s) /\ i < m_next s /\ exists x, nth_error xs i = Some x /\ answer x = Ok v
}.

(** What [wf] asks of the results. *)
Definition results_ok (s : mstate) : Prop :=
  forall i v, nth_error (m_results s) i = Some (Some v) ->
    ~ In i (m_running s) /\ i < m_next s /\ exists x, nth_error xs i = Some x /\ answer x = Ok v.

Lemma wf_replenish s :
  length (m_running s) <= limit -> NoDup (m_running s) ->
  (forall i, In i (m_running s) -> i < m_next s) -> m_next s <= length xs ->
  length (m_results s) = length xs -> results_ok s ->
  m_done s = false -> m_final s = None ->
  wf (replenish (S limit) s).
Proof.
  intros Hl Hnd Hst Hn Hlen Hres Hd Hf.
  rewrite replenish_spec by (auto; lia). unfold starts. cbv zeta.
  set (m := Nat.min (limit - length (m_running s)) (length xs - m_next s)).
  assert (Hm1 : length (m_running s) + m <= limit) by (unfold m; lia).
  assert (Hm2 : m_next s + m <= length xs) by (unfold m; lia).
  assert (Hin : forall i, In i (m_running s ++ seq (m_next s) m) -> i < m_next s + m).
  { intros i Hi. apply in_app_or in Hi as [Hi|Hi]; [specialize (Hst i Hi); lia|].
    apply in_seq in Hi. lia. }
  assert (Hnd' : NoDup (m_running s ++ seq (m_next s) m)).
  { apply NoDup_app; [exact Hnd | apply seq_NoDup |].
    intros i Hi Hi'. apply in_seq in Hi'. specialize (Hst i Hi). lia. }
  assert (Hres' : forall i v, nth_error (m_results s) i = Some (Some v) ->
            ~ In i (m_running s ++ seq (m_next s) m) /\ i < m_next s + m /\
            exists x, nth_error xs i = Some x /\ answer x = Ok v).
  { intros i v Hv. destruct (Hres i v Hv) as (Hni & Hlt & Hx). split; [|split; [lia | exact Hx]].
    intros Hi. apply in_app_or in Hi as [Hi|Hi]; [contradiction|]. apply in_seq in Hi. lia. }
  destruct (Nat.ltb_spec (length (m_running s) + m) limit);
    constructor; cbn [m_running m_next m_results m_done m_final]; rewrite ?length_app, ?length_seq;
    auto; try discriminate.
  - intros _ Hnil. destruct (m_running s ++ seq (m_next s) m); [|discriminate].
    unfold call_once. destruct (m_final s); discriminate.
  - intros _. split; [lia | exact Hf].
Qed.

Lemma NoDup_remove_nat (l : list nat) i : NoDup l -> NoDup (remove Nat.eq_dec i l).
Proof.
  induction 1 as [|x l Hx Hnd IH]; cbn; [constructor|].
  destruct (Nat.eq_dec i x); [exact IH|].
  constructor; [|exact IH]. intros Hin. apply in_remove in Hin. tauto.
Qed.

Lemma length_upd {T} (l : list T) i v : length (upd l i v) = length l.
Proof. revert i. induction l as [|x l IH]; intros [|i]; cbn; auto. Qed.

Lemma nth_error_upd {T} (l : list T) i j v :
  nth_error (upd l i v) j =
  if Nat.eqb i j then match nth_error l j with Some _ => Some v | None => None end
  else nth_error l j.
Proof.
  revert i j. induction l as [|x l IH]; intros [|i] [|j]; cbn; auto;
    destruct (Nat.eqb _ _); reflexivity.
Qed.

Lemma wf_start : wf start.
Proof.
  unfold start. apply wf_replenish; cbn [m_running m_next m_results m_done m_final length].
  - lia.
  - constructor.
  - intros i [].
  - lia.
  - apply repeat_length.
  - intros i v Hv. cbn in Hv. destruct (Nat.lt_ge_cases i (length xs)) as [Hi|Hi].
    + rewrite nth_error_repeat in Hv by exact Hi. discriminate.
    + rewrite (proj2 (nth_error_None _ _)) in Hv by (rewrite repeat_length; exact Hi). discriminate.
  - reflexivity.
  - reflexivity.
Qed.
(** The element of an index in flight. *)
Lemma running_element s i : wf s -> In i (m_running s) -> exists x, nth_error xs i = Some x.
Proof.
  intros Hw Hi. destruct (nth_error xs i) as [x|] eqn:E; [eauto|].
  apply nth_error_None in E. pose proof (wf_started s Hw i Hi). pose proof (wf_next s Hw). lia.
Qed.

(** The results after element [i] calls back with [v]. *)
Lemma results_after s i x v :
  wf s -> In i (m_running s) -> nth_error xs i = Some x -> answer x = Ok v ->
  forall j w, nth_error (upd (m_results s) i (Some v)) j = Some (Some w) ->
    ~ In j (remove Nat.eq_dec i (m_running s)) /\ j < m_next s /\
    exists y, nth_error xs j = Some y /\ answer y = Ok w.
Proof.
  intros Hw Hi Hx Ha j w Hj. rewrite nth_error_upd in Hj.
  destruct (Nat.eqb_spec i j) as [<-|Hij].
  - destruct (nth_error (m_results s) i); [|discriminate]. injection Hj as <-.
    split; [apply remove_In|]. split; [exact (wf_started s Hw i Hi)|]. eauto.
  - destruct (wf_results s Hw j w Hj) as (Hnj & Hlt & Hy). split; [|auto].
    intros Hin. apply in_remove in Hin. tauto.
Qed.

Lemma wf_complete s i : wf s -> In i (m_running s) -> wf (complete i s).
Proof.
  intros Hw Hi. destruct (running_element s i Hw Hi) as [x Hx].
  pose proof (NoDup_remove_nat (m_running s) i (wf_nodup s Hw)) as Hnd.
  pose proof (remove_length_le Nat.eq_dec (m_running s) i) as Hl.
  assert (Hst : forall j, In j (remove Nat.eq_dec i (m_running s)) -> j < m_next s)
    by (intros j Hj; apply in_remove in Hj; apply (wf_started s Hw); tauto).
  pose proof (wf_limit s Hw). pose proof (wf_next s Hw). pose proof (wf_len s Hw).
  unfold complete. rewrite Hx. destruct (answer x) as [v|e] eqn:Ha.
  - pose proof (results_after s i x v Hw Hi Hx Ha) as Hres.
    destruct (m_done s) eqn:Hd.
    + destruct (remove Nat.eq_dec i (m_running s)) as [|j r] eqn:Er;
        constructor; cbn [m_running m_next m_results m_done m_final];
        rewrite ?length_upd; auto; try lia; try discriminate.
      intros _ _. unfold call_once. destruct (m_final s); discriminate.
    + apply wf_replenish; cbn [m_running m_next m_results m_done m_final];
        rewrite ?length_upd; auto; try lia.
      apply (wf_busy s Hw Hd).
  - constructor; cbn [m_running m_next m_results m_done m_final]; auto; try lia; try discriminate.
    + unfold call_once. destruct (m_final s); discriminate.
    + intros j w Hj. destruct (wf_results s Hw j w Hj) as (Hnj & Hlt & Hy).
      split; [|auto]. intros Hin. apply in_remove in Hin. tauto.
Qed.

Lemma wf_steps k s s' : msteps k s s' -> wf s -> wf s'.
Proof.
  induction 1 as [|k s1 s2 s3 Hstep _ IH]; intros Hw; [exact Hw|].
  apply IH. destruct Hstep as [s i Hi]. now apply wf_complete.
Qed.

(** Every state the machine reaches is well formed: at most [limit]
    elements are in flight, each once and already started, the next
    index stays within the collection, [results] keeps its length, the
    machine is busy (not [done]) only with [limit] elements in flight and
    before calling back, once [done] with nothing in flight it has called
    back, and a stored result is the answer of a finished element. *)
Theorem reachable_wf s : reachable s -> wf s.
Proof. intros [k Hk]. exact (wf_steps k start s Hk wf_start). Qed.

(** ** Termination *)

(** Elements not yet called back: those never started and those in flight. *)
Definition pending (s : mstate) : nat := (length xs - m_next s) + length (m_running s).

Lemma pending_complete s i : wf s -> In i (m_running s) -> pending (complete i s) < pending s.
Proof.
  intros Hw Hi. destruct (running_element s i Hw Hi) as [x Hx].
  pose proof (remove_length_lt Nat.eq_dec (m_running s) i Hi) as Hlt.
  pose proof (wf_next s Hw). pose proof (wf_limit s Hw).
  unfold complete, pending. rewrite Hx.
  destruct (answer x) as [v|e]; cbn [m_next m_running]; [|lia].
  destruct (m_done s) eqn:Hd.
  - destruct (remove Nat.eq_dec i (m_running s)); cbn [m_next m_running]; lia.
  - rewrite replenish_spec by (cbn [m_done m_running m_next]; auto; lia).
    unfold starts. cbn [m_next m_running m_done m_results m_final].
    destruct (Nat.ltb _ _); cbn [m_next m_running]; rewrite length_app, length_seq; lia.
Qed.

Lemma steps_bounded k s s' : msteps k s s' -> wf s -> k <= pending s.
Proof.
  induction 1 as [|k s1 s2 s3 Hstep _ IH]; intros Hw; [lia|].
  destruct Hstep as [s i Hi].
  pose proof (pending_complete s i Hw Hi). specialize (IH (wf_complete s i Hw Hi)). lia.
Qed.

Lemma pending_start : pending start = length xs.
Proof.
  unfold start. rewrite replenish_spec by (cbn; lia).
  unfold starts, pending. cbn [m_next m_running m_done m_results m_final length].
  destruct (Nat.ltb _ _); cbn [m_next m_running]; rewrite length_app, length_seq; cbn; lia.
Qed.

(** Every schedule of the callbacks is finite and ends with the
    final callback called: after any [k] callbacks, [k] is at most the
    number of elements; while an element is in flight another callback
    can come; and once nothing is in flight the final callback has been
    called (with a positive [limit], as async requires). *)
Theorem mapLimit_terminates k s :
  0 < limit -> msteps k start s ->
  k <= length xs /\
  (m_running s <> [] -> exists s', mstep s s') /\
  (m_running s = [] -> m_final s <> None).
Proof.
  intros Hlim Hk. pose proof (wf_steps k start s Hk wf_start) as Hw.
  split; [pose proof (steps_bounded k start s Hk wf_start); rewrite pending_start in *; lia|].
  split.
  - destruct (m_running s) as [|i r] eqn:Er; [congruence|]. intros _.
    exists (complete i s). constructor. rewrite Er. now left.
  - intros Hnil. destruct (m_done s) eqn:Hd; [exact (wf_called s Hw Hd Hnil)|].
    destruct (wf_busy s Hw Hd) as [Hl _]. rewrite Hnil in Hl. cbn in Hl. lia.
Qed.

(** ** Refinement of the sequential model *)

Section Success.
Variable vs : list B.
Hypothesis answers_ok : Forall2 (fun x v => answer x = Ok v) xs vs.
Hypothesis limit_pos : 0 < limit.

Lemma answer_nth i x : nth_error xs i = Some x -> exists v, nth_error vs i = Some v /\ answer x = Ok v.
Proof.
  pose proof answers_ok as Hf. revert i. clear limit_pos.
  induction Hf as [|y v ys ws Hyv Hf IH]; intros [|i] Hi; cbn in Hi |- *;
    try discriminate; [injection Hi as <-; eauto | exact (IH Hf i Hi)].
Qed.

(** When every element succeeded, [results] is the sequential result. *)
Definition ok_inv (s : mstate) : Prop :=
  (m_done s = true -> m_next s = length xs) /\
  (forall i, i < m_next s -> ~ In i (m_running s) ->
     nth_error (m_results s) i = option_map Some (nth_error vs i)) /\
  (forall r, m_final s = Some r -> r = Ok (map Some vs) /\ m_running s = []).

Lemma filled_map (res : list (option B)) :
  length res = length xs ->
  (forall i, i < length xs -> nth_error res i = option_map Some (nth_error vs i)) ->
  res = map Some vs.
Proof.
  intros Hl H. pose proof (Forall2_length answers_ok) as Hvs. apply nth_error_ext. intros i.
  rewrite nth_error_map. destruct (Nat.lt_ge_cases i (length xs)) as [Hi|Hi]; [now apply H|].
  rewrite (proj2 (nth_error_None res i)), (proj2 (nth_error_None vs i)) by lia. reflexivity.
Qed.

Lemma ok_start : ok_inv start.
Proof.
  unfold start. rewrite replenish_spec by (cbn; lia). unfold starts, ok_inv.
  cbn [m_next m_running m_done m_results m_final length].
  pose proof (Forall2_length answers_ok) as Hvs.
  destruct (Nat.ltb_spec (0 + Nat.min (limit - 0) (length xs - 0)) limit);
    cbn [m_next m_running m_done m_results m_final app]; (split; [|split]).
  - intros _. lia.
  - intros i Hi Hn. exfalso. apply Hn. apply in_seq. lia.
  - destruct (seq 0 _) eqn:E; [|discriminate]. cbn. intros r [= <-]. split; [|reflexivity].
    f_equal. apply filled_map; [apply repeat_length|].
    intros i Hi. exfalso. apply (f_equal (@length nat)) in E. rewrite length_seq in E. cbn in E. lia.
  - discriminate.
  - intros i Hi Hn. exfalso. apply Hn. apply in_seq. lia.
  - discriminate.
Qed.

Lemma ok_results_after s i x v :
  wf s -> ok_inv s -> In i (m_running s) -> nth_error xs i = Some x -> answer x = Ok v ->
  forall j, j < m_next s -> ~ In j (remove Nat.eq_dec i (m_running s)) ->
    nth_error (upd (m_results s) i (Some v)) j = option_map Some (nth_error vs j).
Proof.
  intros Hw [_ [Hres _]] Hi Hx Ha j Hj Hn. rewrite nth_error_upd.
  destruct (Nat.eqb_spec i j) as [<-|Hij].
  - destruct (answer_nth i x Hx) as (v' & Hv' & Ha'). rewrite Ha in Ha'. injection Ha' as <-.
    rewrite Hv'. destruct (nth_error (m_results s) i) eqn:E; [reflexivity|].
    apply nth_error_None in E. rewrite (wf_len s Hw) in E.
    pose proof (wf_started s Hw i Hi). pose proof (wf_next s Hw). lia.
  - apply Hres; [exact Hj|]. intros Hin. apply Hn. now apply in_in_remove.
Qed.

Lemma ok_complete s i : wf s -> ok_inv s -> In i (m_running s) -> ok_inv (complete i s).
Proof.
  intros Hw Hok Hi. destruct (running_element s i Hw Hi) as [x Hx].
  destruct (answer_nth i x Hx) as (v & _ & Ha).
  pose proof (ok_results_after s i x v Hw Hok Hi Hx Ha) as Hres.
  destruct Hok as (Hdn & _ & Hfin).
  assert (Hf0 : m_final s = None).
  { destruct (m_final s) as [r|] eqn:E; [|reflexivity].
    destruct (Hfin r eq_refl) as [_ Hnil]. rewrite Hnil in Hi. destruct Hi. }
  pose proof (wf_next s Hw) as Hn. pose proof (wf_len s Hw) as Hlen.
  pose proof (remove_length_le Nat.eq_dec (m_running s) i) as Hl.
  pose proof (wf_limit s Hw) as Hlim.
  unfold complete. rewrite Hx, Ha. destruct (m_done s) eqn:Hd.
  - specialize (Hdn eq_refl).
    destruct (remove Nat.eq_dec i (m_running s)) as [|j r] eqn:Er;
      unfold ok_inv; cbn [m_next m_running m_done m_results m_final]; rewrite ?Hf0;
      (split; [auto|split; [exact Hres|]]); cbn; [|discriminate].
    intros r [= <-]. split; [|reflexivity]. f_equal.
    apply filled_map; [now rewrite length_upd|]. intros k Hk. apply Hres; [lia | intros []].
  - rewrite replenish_spec by (cbn [m_done m_running m_next]; auto; lia).
    unfold starts, ok_inv. cbn [m_next m_running m_done m_results m_final].
    set (r' := remove Nat.eq_dec i (m_running s)) in *.
    set (m := Nat.min (limit - length r') (length xs - m_next s)).
    assert (Hres' : forall j, j < m_next s + m -> ~ In j (r' ++ seq (m_next s) m) ->
              nth_error (upd (m_results s) i (Some v)) j = option_map Some (nth_error vs j)).
    { intros j Hj Hnj. apply Hres.
      - destruct (Nat.lt_ge_cases j (m_next s)) as [Hlt|Hge]; [exact Hlt|].
        exfalso. apply Hnj. apply in_or_app. right. apply in_seq. lia.
      - intros Hin. apply Hnj. now apply in_or_app; left. }
    destruct (Nat.ltb_spec (length r' + m) limit);
      cbn [m_next m_running m_done m_results m_final]; (split; [|split; [exact Hres'|]]).
    + intros _. unfold m in *. lia.
    + rewrite Hf0. destruct (r' ++ seq (m_next s) m) as [|j r] eqn:Er; cbn; [|discriminate].
      intros r [= <-]. split; [|reflexivity]. f_equal.
      apply filled_map; [now rewrite length_upd|]. intros k Hk. apply Hres'.
      * unfold m in *. lia.
      * intros [].
    + discriminate.
    + rewrite Hf0. discriminate.
Qed.

Lemma ok_steps k s s' : msteps k s s' -> wf s -> ok_inv s -> ok_inv s'.
Proof.
  induction 1 as [|k s1 s2 s3 Hstep _ IH]; intros Hw Hok; [exact Hok|].
  destruct Hstep as [s i Hi]. apply IH; [now apply wf_complete | now apply ok_complete].
Qed.

Lemma success_final s :
  reachable s -> m_running s = [] -> m_final s = Some (Ok (map Some vs)).
Proof.
  intros [k Hk] Hnil. pose proof (wf_steps k start s Hk wf_start) as Hw.
  destruct (ok_steps k start s Hk wf_start ok_start) as (_ & _ & Hfin).
  destruct (m_done s) eqn:Hd.
  - destruct (m_final s) as [r|] eqn:E; [|destruct (wf_called s Hw Hd Hnil E)].
    now destruct (Hfin r eq_refl) as [-> _].
  - destruct (wf_busy s Hw Hd) as [Hl _]. rewrite Hnil in Hl. cbn in Hl. lia.
Qed.
End Success.

(** Refinement of the sequential model: when the sequential
    [mapSeries] of [AsyncLimit] resolves with [vs] (every element
    succeeds), every schedule of the concurrent machine, whatever the
    order in which the elements call back, ends with the final callback
    receiving [vs], in the order of the collection. *)
Theorem mapLimit_refines_mapSeries (env : Env) w vs s :
  0 < limit ->
  fst (exec env (mapSeries (fun x => Ret (answer x)) xs) w) = Done (Ok vs) ->
  reachable s -> m_running s = [] ->
  m_final s = Some (Ok (map Some vs)).
Proof.
  intros Hlim Hseq. apply success_final; [|exact Hlim].
  exact (mapSeries_pure env answer xs w vs Hseq).
Qed.

(** ** Fail-fast on the first error *)

(** Once [callback] has been called, [replenish()] and later callbacks
    leave what it received unchanged ([once]). *)
Lemma replenish_final k s r : m_final s = Some r -> m_final (replenish k s) = Some r.
Proof.
  revert s. induction k as [|k IH]; intros s Hf; cbn [replenish]; [exact Hf|].
  destruct (_ && _); [|exact Hf]. destruct (_ <? _)%nat; [now apply IH|].
  cbn [m_final]. destruct (m_running s); [|exact Hf]. now rewrite Hf.
Qed.

Lemma complete_final i s r : m_final s = Some r -> m_final (complete i s) = Some r.
Proof.
  intros Hf. unfold complete. destruct (nth_error xs i) as [x|]; [|exact Hf].
  destruct (answer x) as [v|e]; [|cbn; now rewrite Hf].
  destruct (m_done s); [|apply replenish_final; exact Hf].
  destruct (remove Nat.eq_dec i (m_running s)); cbn; now rewrite Hf.
Qed.

Lemma steps_final k s s' r : msteps k s s' -> m_final s = Some r -> m_final s' = Some r.
Proof.
  induction 1 as [|k s1 s2 s3 Hstep _ IH]; intros Hf; [exact Hf|].
  destruct Hstep. apply IH. now apply complete_final.
Qed.

(** Fail-fast: when an element in flight calls back with an error
    before [callback] has been called, [callback] receives that error,
    the other elements in flight stay in flight (they are not cancelled),
    no further element is started, and whatever the remaining elements
    answer later, [callback] is not called again. *)
Theorem mapLimit_fail_fast s i x e k s' :
  In i (m_running s) -> nth_error xs i = Some x -> answer x = Err e -> m_final s = None ->
  msteps k (complete i s) s' ->
  m_running (complete i s) = remove Nat.eq_dec i (m_running s) /\
  m_next (complete i s) = m_next s /\
  m_final s' = Some (Err e).
Proof.
  intros _ Hx He Hf Hk. unfold complete at 1 2. rewrite Hx, He. cbn [m_running m_next].
  split; [reflexivity|split; [reflexivity|]].
  apply (steps_final k _ _ _ Hk). unfold complete. rewrite Hx, He. cbn. now rewrite Hf.
Qed.

End Machine.

(** ** The stub batch of [createStubFiles] (deploy.js 18-54)

    [createStubFiles] inserts its stubs with [async.mapLimit(stubs, 5,
    iterator, ...)]: up to five [client.tooling.insert] calls are in
    flight, and each insert callback writes the new id into the map
    ([map.setMetaId]) before calling back.  [ins s] is what the insert
    of stub [s] answers. *)
Section StubBatch.
Variable ins : stub -> result jserr string.
Variable stubs : list stub.

(** The metadata map and the machine of [mapLimit]. *)
Record batch := mkBatch { b_map : metamap; b_mach : @mstate string }.

(** [async.mapLimit(stubs, 5, iterator, ...)] (45). *)
Definition batch_start (mm : metamap) : batch := mkBatch mm (start 5 stubs).

(** The insert callback of stub [i] (22-26): on success [map.setMetaId]
    then [cb(null, res.id)], on error [cb(err)]. *)
Definition insert_done (i : nat) (b : batch) : batch :=
  let mm :=
    match nth_error stubs i with
    | Some st =>
        match ins st with
        | Ok id => setMetaId (b_map b) (stub_type st) (stub_name st) id
        | Err _ => b_map b
        end
    | None => b_map b
    end in
  mkBatch mm (complete 5 stubs ins i (b_mach b)).

(** The callback of [mapLimit] (45-52): log the error and reject, or
    resolve with the results. *)
Definition stubs_callback (fin : result jserr (list (option string))) : prog (list (option string)) :=
  match fin with
  | Err e => log [Line LError (err_message e)] ;; Throw (Error "unable to create stub files")
  | Ok results => Ret results
  end.

(** One step of the event loop: an insert in flight answers. *)
Inductive bstep : batch -> batch -> Prop :=
| bs_done b i : In i (m_running (b_mach b)) -> bstep b (insert_done i b).

Inductive bsteps : nat -> batch -> batch -> Prop :=
| bsteps_refl b : bsteps 0 b b
| bsteps_step k b b' b'' : bstep b b' -> bsteps k b' b'' -> bsteps (S k) b b''.

Definition breachable (mm : metamap) (b : batch) : Prop := exists k, bsteps k (batch_start mm) b.

(** The machine of a batch runs the generic machine. *)
Lemma bsteps_msteps k b b' : bsteps k b b' -> msteps 5 stubs ins k (b_mach b) (b_mach b').
Proof.
  induction 1 as [|k b1 b2 b3 Hstep _ IH]; [constructor|].
  destruct Hstep as [b i Hi]. econstructor; [constructor; exact Hi | exact IH].
Qed.

Lemma breachable_reachable mm b : breachable mm b -> reachable 5 stubs ins (b_mach b).
Proof. intros [k Hk]. exists k. exact (bsteps_msteps k _ _ Hk). Qed.

Lemma stub_iterator_answer env st w :
  fst (exec env (stub_iterator st) w) = Done (env (w_trace w) (ToolingInsert st)).
Proof.
  unfold stub_iterator, log. rewrite exec_bind. cbn [exec].
  rewrite exec_bind. cbn [exec await w_trace with_log].
  destruct (env _ _); [rewrite exec_bind|]; reflexivity.
Qed.

(** C30: every state of the stub batch is well formed: at most five
    inserts in flight, each once and already started, results only for
    stubs whose insert succeeded, and once every stub has been started
    and no insert is in flight, the callback of [mapLimit] has been
    called. *)
Theorem batch_reachable_wf mm b : breachable mm b -> wf 5 stubs ins (b_mach b).
Proof. intros H. exact (reachable_wf 5 stubs ins _ (breachable_reachable mm b H)). Qed.

(** C31: the stub batch terminates: every schedule makes at most one
    insert callback per stub, a state with an insert in flight can step,
    and a state with none in flight has called the callback of
    [mapLimit], so [createStubFiles] settles under every order of the
    insert answers. *)
Theorem batch_terminates mm k b :
  bsteps k (batch_start mm) b ->
  k <= length stubs /\
  (m_running (b_mach b) <> [] -> exists b', bstep b b') /\
  (m_running (b_mach b) = [] -> m_final (b_mach b) <> None).
Proof.
  intros Hk. destruct (mapLimit_terminates 5 stubs ins k (b_mach b) ltac:(lia) (bsteps_msteps k _ _ Hk))
    as (Hle & _ & Hfin).
  split; [exact Hle|split; [|exact Hfin]].
  destruct (m_running (b_mach b)) as [|i r] eqn:Er; [congruence|]. intros _.
  exists (insert_done i b). constructor. rewrite Er. now left.
Qed.

(** C32: refinement of the sequential model of [Tooling]: when the
    inserts answer independently of the order of the calls and the
    in-order [mapLimit] over [stub_iterator] resolves with [ids], every
    schedule of the five-wide batch ends with the callback of [mapLimit]
    receiving [ids], in the order of the stubs. *)
Theorem batch_refines_mapLimit (env : Env) w ids mm b :
  (forall t st, env t (ToolingInsert st) = ins st) ->
  fst (exec env (mapLimit 5 stubs stub_iterator) w) = Done (Ok ids) ->
  breachable mm b -> m_running (b_mach b) = [] ->
  m_final (b_mach b) = Some (Ok (map Some ids)).
Proof.
  intros Hins Hseq Hr Hnil. unfold mapLimit in Hseq.
  destruct (exec env (mapSeries stub_iterator stubs) w) as [o w'] eqn:E. cbn in Hseq. subst o.
  apply (success_final 5 stubs ins ids); [|lia|exact (breachable_reachable mm b Hr)|exact Hnil].
  refine (Forall2_impl _ _ (exec_mapSeries_ok env stub_iterator stubs w ids w' E)).
  intros st id (w1 & w2 & Hx). apply (f_equal fst) in Hx.
  rewrite stub_iterator_answer, Hins in Hx. now injection Hx.
Qed.

(** C33: fail-fast of the stub batch: when the insert of stub [i]
    fails before the callback of [mapLimit] has been called, that
    callback logs the insert's error message and [createStubFiles]
    rejects with "unable to create stub files"; the insert of stub [j],
    still in flight, is not cancelled, and when it succeeds afterwards
    its id is still written into the map. *)
Theorem batch_fail_fast b i j si sj e id (env : Env) w :
  In i (m_running (b_mach b)) -> In j (m_running (b_mach b)) -> i <> j ->
  nth_error stubs i = Some si -> nth_error stubs j = Some sj ->
  ins si = Err e -> ins sj = Ok id -> m_final (b_mach b) = None ->
  let b2 := insert_done j (insert_done i b) in
  bstep b (insert_done i b) /\ bstep (insert_done i b) b2 /\
  m_final (b_mach b2) = Some (Err e) /\
  exec env (stubs_callback (Err e)) w =
    (Rejected (Error "unable to create stub files"), with_log [Line LError (err_message e)] w) /\
  b_map b2 = setMetaId (b_map b) (stub_type sj) (stub_name sj) id.
Proof.
  intros Hi Hj Hij Hsi Hsj He Hid Hf b2.
  assert (Hc : complete 5 stubs ins i (b_mach b) =
     mkM (m_next (b_mach b)) (remove Nat.eq_dec i (m_running (b_mach b))) (m_results (b_mach b))
         true (Some (Err e))) by (unfold complete; now rewrite Hsi, He, Hf).
  split; [constructor; exact Hi|]. split.
  { constructor. cbn [b_mach insert_done]. rewrite Hc. cbn [m_running].
    apply in_in_remove; [congruence|exact Hj]. }
  split; [cbn [b2 b_mach insert_done]; apply complete_final; now rewrite Hc|].
  split; [unfold stubs_callback, log; now rewrite exec_bind|].
  cbn [b2 b_map insert_done]. now rewrite Hsi, He, Hsj, Hid.
Qed.

End StubBatch.

Arguments mkM {B} _ _ _ _ _.

(** Five elements, at most two in flight: the first callback of element 0
    starts element 2, and the machine has not finished. *)
Lemma mapLimit_terminates_witness :
  let s1 := complete 2 [1;2;3;4;5] (fun n : nat => @Ok jserr nat n) 0 (@start nat nat 2 [1;2;3;4;5]) in
  1 <= length [1;2;3;4;5] /\
  (m_running s1 <> [] -> exists s', mstep 2 [1;2;3;4;5] (fun n => Ok n) s1 s') /\
  (m_running s1 = [] -> m_final s1 <> None).
Proof.
  apply (mapLimit_terminates 2 [1;2;3;4;5] (fun n : nat => Ok n) 1); [lia|].
  apply msteps_step with (complete 2 [1;2;3;4;5] (fun n : nat => Ok n) 0 (@start nat nat 2 [1;2;3;4;5]));
    [apply ms_complete; vm_compute; now left | apply msteps_refl].
Defined.

(** Three elements at most two at a time, answered in the order 1, 0, 2:
    [callback] receives the results in the order of the collection. *)
Lemma mapLimit_refines_mapSeries_witness :
  let f := fun n : nat => @Ok jserr nat (10 * n) in
  let s3 := complete 2 [1;2;3] f 2 (complete 2 [1;2;3] f 0 (complete 2 [1;2;3] f 1 (@start nat nat 2 [1;2;3]))) in
  m_final s3 = Some (Ok (map Some [10;20;30])).
Proof.
  intros f s3.
  apply (mapLimit_refines_mapSeries 2 [1;2;3] f (engine_env (Ok None))
    {| w_guard := 0; w_map := createMap; w_trace := []; w_log := [] |} [10;20;30]); [lia|reflexivity| |reflexivity].
  exists 3. unfold s3.
  apply msteps_step with (complete 2 [1;2;3] f 1 (@start nat nat 2 [1;2;3]));
    [apply ms_complete; vm_compute; auto|].
  apply msteps_step with (complete 2 [1;2;3] f 0 (complete 2 [1;2;3] f 1 (@start nat nat 2 [1;2;3])));
    [apply ms_complete; vm_compute; auto|].
  eapply msteps_step; [|apply msteps_refl]. apply ms_complete; vm_compute; auto.
Defined.

(** Three elements, two in flight; element 1 fails first: [callback]
    receives its error while element 0 stays in flight, and element 0's
    later success changes nothing. *)
Lemma mapLimit_fail_fast_witness :
  let f := fun n : nat => if (n =? 2)%nat then @Err jserr nat (Error "bad") else Ok n in
  let s := @start nat nat 2 [1;2;3] in
  m_running (complete 2 [1;2;3] f 1 s) = remove Nat.eq_dec 1 (m_running s) /\
  m_next (complete 2 [1;2;3] f 1 s) = m_next s /\
  m_final (complete 2 [1;2;3] f 0 (complete 2 [1;2;3] f 1 s)) = Some (Err (Error "bad")).
Proof.
  intros f s.
  apply (mapLimit_fail_fast 2 [1;2;3] f s 1 2 (Error "bad") 1); [vm_compute; auto|reflexivity|reflexivity|reflexivity|].
  eapply msteps_step; [|apply msteps_refl]. apply ms_complete; vm_compute; auto.
Defined.

(** Three elements, two in flight: the state after element 1 has called
    back is well formed. *)
Lemma reachable_wf_witness :
  wf 2 [1;2;3] (fun n : nat => @Ok jserr nat n)
     (complete 2 [1;2;3] (fun n : nat => @Ok jserr nat n) 1 (@start nat nat 2 [1;2;3])).
Proof.
  apply reachable_wf. exists 1.
  eapply msteps_step; [|apply msteps_refl]. apply ms_complete; vm_compute; auto.
Defined.

(** Three stubs, inserted five at a time. *)
Definition sample_stubs : list stub :=
  [{| stub_type := "ApexClass"; stub_name := "A"; stub_object := "{}" |};
   {| stub_type := "ApexClass"; stub_name := "B"; stub_object := "{}" |};
   {| stub_type := "ApexPage"; stub_name := "C"; stub_object := "{}" |}].

Definition sample_ins (st : stub) : result jserr string := Ok ("id-" ++ stub_name st)%string.

(** The insert of "B" is refused. *)
Definition refusing_ins (st : stub) : result jserr string :=
  if String.eqb (stub_name st) "B" then Err (Error "DUPLICATE_VALUE") else sample_ins st.

(** The batch after the insert of "B" has answered is well formed. *)
Lemma batch_reachable_wf_witness :
  wf 5 sample_stubs sample_ins
     (b_mach (insert_done sample_ins sample_stubs 1 (batch_start sample_stubs createMap))).
Proof.
  apply (batch_reachable_wf sample_ins sample_stubs createMap). exists 1.
  eapply bsteps_step; [|apply bsteps_refl]. apply bs_done; vm_compute; auto.
Defined.

(** After one insert answer, the batch can step and has not finished. *)
Lemma batch_terminates_witness :
  let b := insert_done sample_ins sample_stubs 0 (batch_start sample_stubs createMap) in
  1 <= length sample_stubs /\
  (m_running (b_mach b) <> [] -> exists b', bstep sample_ins sample_stubs b b') /\
  (m_running (b_mach b) = [] -> m_final (b_mach b) <> None).
Proof.
  apply (batch_terminates sample_ins sample_stubs createMap 1).
  eapply bsteps_step; [|apply bsteps_refl]. apply bs_done; vm_compute; auto.
Defined.

(** Inserts answering in the order C, A, B: the callback still receives
    the ids in the order of the stubs. *)
Lemma batch_refines_mapLimit_witness :
  let b := insert_done sample_ins sample_stubs 1
             (insert_done sample_ins sample_stubs 0
                (insert_done sample_ins sample_stubs 2 (batch_start sample_stubs createMap))) in
  m_final (b_mach b) = Some (Ok (map Some ["id-A"; "id-B"; "id-C"]%string)).
Proof.
  intros b.
  apply (batch_refines_mapLimit sample_ins sample_stubs (engine_env (Ok None))
           {| w_guard := 0; w_map := createMap; w_trace := []; w_log := [] |} _ createMap);
    [reflexivity|vm_compute; reflexivity| |vm_compute; reflexivity].
  exists 3. unfold b.
  apply bsteps_step with (insert_done sample_ins sample_stubs 2 (batch_start sample_stubs createMap));
    [apply bs_done; vm_compute; auto|].
  apply bsteps_step with (insert_done sample_ins sample_stubs 0
                            (insert_done sample_ins sample_stubs 2 (batch_start sample_stubs createMap)));
    [apply bs_done; vm_compute; auto|].
  eapply bsteps_step; [|apply bsteps_refl]. apply bs_done; vm_compute; auto.
Defined.

(** The insert of "B" fails first; the insert of "A" answers afterwards
    and its id still reaches the map. *)
Lemma batch_fail_fast_witness :
  let b := batch_start sample_stubs createMap in
  let b2 := insert_done refusing_ins sample_stubs 0 (insert_done refusing_ins sample_stubs 1 b) in
  bstep refusing_ins sample_stubs b (insert_done refusing_ins sample_stubs 1 b) /\
  bstep refusing_ins sample_stubs (insert_done refusing_ins sample_stubs 1 b) b2 /\
  m_final (b_mach b2) = Some (Err (Error "DUPLICATE_VALUE")) /\
  exec (engine_env (Ok None)) (stubs_callback (Err (Error "DUPLICATE_VALUE")))
       {| w_guard := 0; w_map := createMap; w_trace := []; w_log := [] |} =
    (Rejected (Error "unable to create stub files"),
     with_log [Line LError (err_message (Error "DUPLICATE_VALUE"))]
       {| w_guard := 0; w_map := createMap; w_trace := []; w_log := [] |}) /\
  b_map b2 = setMetaId (b_map b) "ApexClass" "A" "id-A".
Proof.
  apply (batch_fail_fast refusing_ins sample_stubs (batch_start sample_stubs createMap) 1 0
           (nth 1 sample_stubs (nth 0 sample_stubs (Build_stub "" "" ""))) (nth 0 sample_stubs (Build_stub "" "" ""))
           (Error "DUPLICATE_VALUE") "id-A");
    vm_compute; auto; discriminate.
Defined.
