(* ===== verification/Retrieve.v ===== *)
(** * The retrieve command (src/commands/retrieve.js)

    [run] (207-307) loads the ignore file, the client and the org's index,
    selects the types the globs name, groups them by three (the limit of
    one [listMetadata] request), lists the files of each group
    ([getFilePaths], 22-146), filters them on the globs, retrieves them in
    one zip, unzips it into the temporary directory, clears [src/] when
    [--replace] is given, copies the unpacked files into [src/] and removes
    the temporary directory.

    [getFilePaths] lists the members of each group; a type stored in
    folders (documents, e-mail templates, reports, dashboards) asked
    without a subfolder is listed as its folder type, and each folder
    found is listed again as a subfolder query whose answer comes back as
    a list of finished paths.  The answers are filtered on the namespace
    ([--all], [--ns]) and turned into local paths under [src/], where a
    file name that starts with a type name is moved to the type's folder.

    The recursion over folders has no bound in the code; [list_iterator]
    takes a depth [fuel] and stops with [Stall] when it is spent.  Strings
    are ASCII: [toLowerCase] is modelled on ASCII letters. *)

From Equations Require Import Equations.
From S2P Require Import Prelude Report MetaMap Effects AsyncLimit Archive.
Local Open Scope prog_scope.
Local Open Scope list_scope.

(** ** Grouping by three *)

(** [_.chunk(typeMatches, 3)] (248). *)
Equations chunk3 {A} (l : list A) : list (list A) by wf (length l) lt :=
  chunk3 [] := [];
  chunk3 (x :: l') := firstn 3 (x :: l') :: chunk3 (skipn 3 (x :: l')).
Next Obligation. destruct l' as [|a [|b l0]]; simpl; lia. Qed.

(** ** The options and the answers *)

Record retrieve_opts := {
  r_all : jsval;               (* --all *)
  r_ns : option string;        (* --ns <ns> *)
  r_replace : jsval;           (* --replace *)
  r_globs : list string        (* [globs...] *)
}.

(** [opts.globs] when non-empty, else ["src/**/*"] (211-213). *)
Definition retrieve_globs (opts : retrieve_opts) : list string :=
  match r_globs opts with [] => ["src/**/*"] | gs => gs end.

(** An element of the answers [getFilePaths] flattens: a listed member,
    or a path already computed by a subfolder listing. *)
Inductive listed : Type :=
| LMd (md : fileProperties)
| LPath (p : string).

(** ** Folder types (25-41, 56-84) *)

(** The folder type listed for a type asked without a subfolder. *)
Definition folder_of_type (name : string) : option string :=
  if String.eqb name "Document" then Some "DocumentFolder"
  else if String.eqb name "EmailTemplate" then Some "EmailFolder"
  else if String.eqb name "Report" then Some "ReportFolder"
  else if String.eqb name "Dashboard" then Some "DashboardFolder"
  else None.

(** The type of the members of a folder found in an answer. *)
Definition folder_member (ty : string) : option string :=
  if String.eqb ty "DocumentFolder" then Some "Document"
  else if String.eqb ty "EmailFolder" then Some "EmailTemplate"
  else if String.eqb ty "ReportFolder" then Some "Report"
  else if String.eqb ty "DashboardFolder" then Some "Dashboard"
  else None.

(** The mapping of the types of a request (25-41). *)
Definition folder_query (t : mdtype) : mdtype :=
  if truthy_id (t_subFolder t) then t
  else match folder_of_type (t_name t) with
       | Some f => {| t_name := f; t_subFolder := None; t_folder := JUndefined |}
       | None => t
       end.

(** The [queries] of [listMetadata] (43-51). *)
Definition query_of (t : mdtype) : string * option string := (t_name t, t_subFolder t).

(** The type of a subfolder query (59-75). *)
Definition subfolder_type (ty : string) (md : fileProperties) : mdtype :=
  {| t_name := ty; t_subFolder := Some (md_fullName md); t_folder := JUndefined |}.

(** ** The namespace filter (98-113) *)

Definition lower_ascii (c : ascii) : ascii :=
  let n := nat_of_ascii c in
  if ((65 <=? n) && (n <=? 90))%nat then ascii_of_nat (n + 32)%nat else c.

(** [s.toLowerCase()] on ASCII strings. *)
Fixpoint lower (s : string) : string :=
  match s with
  | EmptyString => EmptyString
  | String c s' => String (lower_ascii c) (lower s')
  end.

(** The filter of 98-113; a path has no [namespacePrefix] field. *)
Definition ns_keep (opts : retrieve_opts) (x : listed) : bool :=
  if truthy (r_all opts) then true
  else match r_ns opts with
       | Some ns =>
           if truthy_str ns then
             match x with
             | LMd md =>
                 match md_namespacePrefix md with
                 | Some p => truthy_str p && String.eqb (lower p) (lower ns)
                 | None => false
                 end
             | LPath _ => false
             end
           else match x with
                | LMd md => match md_namespacePrefix md with
                            | Some p => (String.length p <? 1)%nat
                            | None => true
                            end
                | LPath _ => true
                end
       | None =>
           match x with
           | LMd md => match md_namespacePrefix md with
                       | Some p => (String.length p <? 1)%nat
                       | None => true
                       end
           | LPath _ => true
           end
       end.

(** ** Local paths (114-129) *)

(** [re.test(fileName)] and [fileName.replace(re, rep)] for
    [re = /^(N1|N2|...)\//]: the first name [N] such that the file name
    starts with [N/], and what follows. *)
Fixpoint match_type_dir (names : list string) (fileName : string) : option string :=
  match names with
  | [] => None
  | n :: ns =>
      if String.prefix (n ++ "/")%string fileName
      then Some (substring (String.length (n ++ "/")%string)
                           (String.length fileName - String.length (n ++ "/")%string) fileName)
      else match_type_dir ns fileName
  end.

(** The local path of an answer; a file name under a type's directory
    moves to the folder of the member's type, which [_.find] may not
    find ([TypeError] on [undefined.folder]). *)
Definition local_path (types : list mdtype) (x : listed) : result jserr string :=
  match x with
  | LPath p => Ok p
  | LMd md =>
      match match_type_dir (map t_name types) (md_fileName md) with
      | Some rest =>
          match find (fun t => String.eqb (t_name t) (md_type md)) types with
          | Some t => Ok ("src/" ++ js_to_string (t_folder t) ++ "/" ++ rest)%string
          | None => Err (TypeError "Cannot read properties of undefined (reading 'folder')")
          end
      | None => Ok ("src/" ++ md_fileName md)%string
      end
  end.

(** [_.map] of a function that may throw: the first error. *)
Fixpoint map_result {A B} (f : A -> result jserr B) (l : list A) : result jserr (list B) :=
  match l with
  | [] => Ok []
  | x :: l' =>
      match f x with
      | Err e => Err e
      | Ok y => match map_result f l' with Err e => Err e | Ok ys => Ok (y :: ys) end
      end
  end.

(** [_(res).flattenDeep().compact().filter(...).map(...)] (95-129). *)
Definition file_paths (opts : retrieve_opts) (types : list mdtype) (res : list listed)
  : result jserr (list string) :=
  map_result (local_path types) (filter (ns_keep opts) res).

(** ** Listing the files (22-146) *)

(** The answer of a subfolder listing as elements of the outer answer:
    [null] disappears and each path stays ([compact]). *)
Definition sub_listed (r : option (list string)) : list listed :=
  match r with None => [] | Some ps => map LPath (filter truthy_str ps) end.

(** [iterator(types, cb)] (24-136), with [fuel] levels of subfolder
    listings; [None] is [cb(null, null)].  The subfolder listings started
    for one answer are awaited by [Promise.all]; they are run in order,
    the first rejection rejecting the whole. *)
Fixpoint list_iterator (fuel : nat) (opts : retrieve_opts) (types0 : list mdtype)
  : prog (result jserr (option (list string))) :=
  match fuel with
  | O => Stall
  | S f =>
      let types := map folder_query types0 in
      r <- await (ListMetadata (map query_of types)) ;;
      match r with
      | Err e => Ret (Err e)
      | Ok res =>
          parts <- mapSeries (fun md =>
                     match folder_member (md_type md) with
                     | Some ty =>
                         sub <- list_iterator f opts [subfolder_type ty md] ;;
                         match sub with
                         | Err e => Ret (Err e)
                         | Ok ps => Ret (Ok (sub_listed ps))
                         end
                     | None => Ret (Ok [LMd md])
                     end) res ;;
          match parts with
          | Err e => Ret (Err e)
          | Ok [] => Ret (Ok None)
          | Ok ls => Ret (match file_paths opts types (concat ls) with
                          | Ok ps => Ok (Some ps)
                          | Err e => Err e
                          end)
          end
      end
  end.

(** [getFilePaths(typeGroups, opts, client)] (22-146). *)
Definition getFilePaths (fuel : nat) (opts : retrieve_opts) (groups : list (list mdtype))
  : prog (list string) :=
  r <- mapLimit 5 groups (list_iterator fuel opts) ;;
  match r with
  | Err e => Throw e
  | Ok res => Ret (uniq (concat (map (fun o => match o with Some ps => ps | None => [] end) res)))
  end.

(** ** Writing the files (148-205) *)

Definition unwrap (r : result jserr unit) : prog unit :=
  match r with Err e => Throw e | Ok _ => Ret tt end.

(** [clearSrcDir()] (148-155). *)
Definition clearSrcDir : prog unit := r <- await (Rimraf "src/*") ;; unwrap r.

(** [unzipToTmp(zipBase64)] (157-170), [tmp] being [paths.dir.tmp]. *)
Definition unzipToTmp (tmp zip : string) : prog unit :=
  log [Line LLog ("unzipping to tmp dir: " ++ tmp)%string; Line LLog "extracting zip"] ;;
  u <- await (Unzip zip tmp) ;;
  unwrap u.

(** The [.catch] of [copyFiles] (191-194): the message is printed and the
    promise rejects. *)
Definition copy_failed {A} (e : jserr) : prog A := log [Line LError (err_message e)] ;; Throw e.

(** [copyFiles(replace)] (172-196), [cwd] being the working directory. *)
Definition copyFiles (tmp cwd : string) (replace : jsval) : prog unit :=
  let tmpPkgFile := (tmp ++ "/unpackaged/package.xml")%string in
  c <- await (ReadFile Utf8 tmpPkgFile) ;;
  match c with
  | Err e => copy_failed e
  | Ok _ =>
      r1 <- (if truthy replace then Ret (Ok tt) else await (Rimraf tmpPkgFile)) ;;
      match r1 with
      | Err e => copy_failed e
      | Ok _ =>
          r <- await (CopyDir (tmp ++ "/unpackaged/")%string (cwd ++ "/src/")%string) ;;
          match r with Err e => copy_failed e | Ok _ => Ret tt end
      end
  end.

(** [removeTmpDir()] (198-205). *)
Definition removeTmpDir (tmp : string) : prog unit :=
  e <- await (PathExists tmp) ;;
  if e then log [Line LLog "removing tmp directory"] ;; r <- await (RemoveDir tmp) ;; unwrap r
  else Ret tt.

(** ** The command (207-307) *)

(** After the retrieve: unzip, clear [src/] with [--replace], copy, clean
    up (282-305). *)
Definition write_files (tmp cwd zip : string) (replace : jsval) : prog unit :=
  unzipToTmp tmp zip ;;
  (if truthy replace then log [Line LLog "clearing src dir"] ;; clearSrcDir else Ret tt) ;;
  log [Line LLog "merging files to src"] ;;
  copyFiles tmp cwd replace ;;
  log [Line LLog "cleaning up temporary files"] ;;
  removeTmpDir tmp ;;
  log [Line LSuccess "retrieve successful"].

(** From the filtered paths to the end (259-305). *)
Definition retrieve_files (tmp cwd : string) (opts : retrieve_opts) (apiV : string)
    (filtered : list string) : prog unit :=
  meta <- invoke (AddFiles filtered) ;;
  modify_map (with_meta meta) ;;
  types <- invoke CreateTypesArray ;;
  res <- await (RetrieveAndPoll (replace_first "v" "" apiV) types) ;;
  match res with
  | Err e => Throw e
  | Ok zip => write_files tmp cwd zip (r_replace opts)
  end.

(** The lines printed for the matched types (242-245). *)
Definition matched_lines (typeMatches : list mdtype) : list logline :=
  Line LLog "matching types" :: map (fun tm => Line LList ("matched type: " ++ t_name tm)%string) typeMatches.

(** [run(opts, cb)] (207-307), as the promise it returns. *)
Definition retrieve_run (fuel : nat) (tmp cwd : string) (opts : retrieve_opts) : prog unit :=
  set_map createMap ;;
  ig <- await LoadIgnores ;;
  match ig with Err e => Throw e | Ok ignores =>
  cl <- await GetClient ;;
  match cl with Err e => Throw e | Ok apiV =>
  ix <- await AutoLoad ;;
  match ix with Err e => Throw e | Ok idx =>
  modify_map (load_index idx) ;;
  typeMatches <- invoke (TypesFromGlobs (retrieve_globs opts)) ;;
  log (matched_lines typeMatches) ;;
  fpaths <- getFilePaths fuel opts (chunk3 typeMatches) ;;
  match fpaths with
  | [] => Throw (Error "no files found for retrieve")
  | _ =>
      fr <- await (FilterOnGlobs fpaths (retrieve_globs opts) ignores) ;;
      match fr with
      | Err e => Throw e
      | Ok [] => Throw (Error "no files found for retrieve")
      | Ok filtered => retrieve_files tmp cwd opts apiV filtered
      end
  end end end end.

(** ** Grouping by three *)

(** Grouping the selected types by three loses, adds and reorders
    nothing: the groups concatenate back to the types. *)
Theorem chunk3_concat {A} (l : list A) : concat (chunk3 l) = l.
Proof.
  funelim (chunk3 l); [reflexivity|].
  change (firstn 3 (x :: l') ++ concat (chunk3 (skipn 3 (x :: l'))) = x :: l').
  rewrite H. apply firstn_skipn.
Qed.

(** C24: every group has one to three types, and there are
    [ceil(n / 3)] groups: no [listMetadata] request asks for more than
    three types or for none. *)
Theorem chunk3_bounds {A} (l : list A) :
  Forall (fun g => 1 <= length g <= 3) (chunk3 l) /\ length (chunk3 l) = (length l + 2) / 3.
Proof.
  funelim (chunk3 l); [split; [constructor|reflexivity]|].
  change (Forall (fun g => 1 <= length g <= 3) (firstn 3 (x :: l') :: chunk3 (skipn 3 (x :: l'))) /\
          S (length (chunk3 (skipn 3 (x :: l')))) = (length (x :: l') + 2) / 3).
  destruct H as [Hall Hlen]. split.
  - constructor; [|exact Hall]. destruct l' as [|a [|b l0]]; simpl; lia.
  - rewrite Hlen. destruct l' as [|a [|b l0]]; [reflexivity|reflexivity|].
    change (length (skipn 3 (x :: a :: b :: l0))) with (length l0).
    change (length (x :: a :: b :: l0)) with (S (S (S (length l0)))).
    replace (S (S (S (length l0))) + 2) with ((length l0 + 2) + 1 * 3) by lia.
    rewrite Nat.div_add by lia. lia.
Qed.

(** ** The namespace filter and subfolder listings *)

Lemma map_result_in {A B} (f : A -> result jserr B) l ys :
  map_result f l = Ok ys -> forall y, In y ys -> exists x, In x l /\ f x = Ok y.
Proof.
  revert ys. induction l as [|x l IH]; intros ys H y Hy; simpl in H.
  - injection H as <-. destruct Hy.
  - destruct (f x) as [y0|e] eqn:Hx; [|discriminate].
    destruct (map_result f l) as [ys'|e] eqn:Hl; [|discriminate].
    injection H as <-. destruct Hy as [Heq|Hin]; [subst y0; exists x; split; [left|]; auto|].
    destruct (IH ys' eq_refl y Hin) as (x' & ? & ?). exists x'. split; [right|]; auto.
Qed.

(** With [--ns] (and not [--all]), the filter drops every path. *)
Lemma ns_keep_path opts p :
  truthy (r_all opts) = false -> (exists ns, r_ns opts = Some ns /\ truthy_str ns = true) ->
  ns_keep opts (LPath p) = false.
Proof. intros Hall (ns & Hns & Ht). unfold ns_keep. now rewrite Hall, Hns, Ht. Qed.

Section Listing.
Variable env : Env.

(** What the iterator of one answer gives: the member itself, or the
    paths of a subfolder listing. *)
Lemma listing_part f opts md w1 part w2 :
  exec env (match folder_member (md_type md) with
            | Some ty =>
                sub <- list_iterator f opts [subfolder_type ty md] ;;
                match sub with Err e => Ret (Err e) | Ok ps => Ret (Ok (sub_listed ps)) end
            | None => Ret (Ok [LMd md])
            end) w1 = (Done (Ok part), w2) ->
  (folder_member (md_type md) = None /\ part = [LMd md]) \/ Forall (fun x => exists p, x = LPath p) part.
Proof.
  destruct (folder_member (md_type md)) as [ty|]; intros H.
  - right. rewrite exec_bind in H.
    destruct (exec env (list_iterator f opts _) w1) as [[[ps|e]|e|e| |] w'];
      cbn [exec] in H; try discriminate. injection H as <- _.
    unfold sub_listed. destruct ps; [|constructor].
    apply Forall_forall. intros x Hx. apply in_map_iff in Hx as (p & <- & _). eauto.
  - left. cbn [exec] in H. now injection H as <- _.
Qed.

(** C25: with [--ns] and without [--all], every path a listing returns
    is the path of a member of its own answer that is not a folder: the
    members found in subfolders (documents, e-mail templates, reports,
    dashboards), already filtered on the namespace by the subfolder
    listing, come back as paths and are all dropped by the filter of the
    enclosing listing. *)
Theorem ns_drops_subfolder_paths f opts types w ps w' res :
  truthy (r_all opts) = false -> (exists ns, r_ns opts = Some ns /\ truthy_str ns = true) ->
  env (w_trace w) (ListMetadata (map query_of (map folder_query types))) = Ok res ->
  exec env (list_iterator (S f) opts types) w = (Done (Ok (Some ps)), w') ->
  forall p, In p ps -> exists md, In md res /\ folder_member (md_type md) = None /\
                                 local_path (map folder_query types) (LMd md) = Ok p.
Proof.
  intros Hall Hns Hres Hexec p Hp.
  cbn [list_iterator] in Hexec. unfold await in Hexec. rewrite exec_bind in Hexec.
  cbn [exec] in Hexec. rewrite Hres, exec_bind in Hexec.
  destruct (exec env (mapSeries _ res) _) as [[[parts|e]|e|e| |] w1] eqn:Hm;
    cbn [exec] in Hexec; try discriminate.
  destruct parts as [|part0 parts']; [discriminate|].
  destruct (file_paths opts (map folder_query types) (concat (part0 :: parts'))) as [ps0|e] eqn:Hfp;
    [|discriminate].
  injection Hexec as <- _.
  destruct (map_result_in _ _ _ Hfp p Hp) as (x & Hx & Hpx).
  apply filter_In in Hx as [Hx Hkeep]. apply in_concat in Hx as (part & Hpart & Hx).
  destruct (Forall2_in_r _ _ _ _ (exec_mapSeries_ok env _ _ _ _ _ Hm) Hpart)
    as (md & Hmd & w2 & w3 & Hit).
  destruct (listing_part f opts md w2 part w3 Hit) as [[Hnone ->]|Hpaths].
  - destruct Hx as [<-|[]]. eauto.
  - destruct (proj1 (Forall_forall _ _) Hpaths x Hx) as [q ->].
    rewrite ns_keep_path in Hkeep by assumption. discriminate.
Qed.
End Listing.

(** ** Writing the files *)

Section Writing.
Variable env : Env.
Variables (tmp cwd apiV : string) (opts : retrieve_opts) (filtered : list string).
Variable types : list (string * list string).
Hypothesis types_answer : forall t, env t CreateTypesArray = types.

Definition pkg_file : string := (tmp ++ "/unpackaged/package.xml")%string.

(** The calls from [addFiles] to the retrieve request. *)
Definition request_calls : list call :=
  [AddFiles filtered; CreateTypesArray; RetrieveAndPoll (replace_first "v" "" apiV) types].

(** The world when the retrieve request is made. *)
Definition before_request (w : world) : world :=
  record_call CreateTypesArray
    (with_map (with_meta (env (w_trace w) (AddFiles filtered)) (w_map w))
              (record_call (AddFiles filtered) w)).

Lemma exec_retrieve_request w :
  exec env (retrieve_files tmp cwd opts apiV filtered) w =
  let w1 := record_call (RetrieveAndPoll (replace_first "v" "" apiV) types) (before_request w) in
  match env (w_trace (before_request w)) (RetrieveAndPoll (replace_first "v" "" apiV) types) with
  | Err e => (Rejected e, w1)
  | Ok zip => exec env (write_files tmp cwd zip (r_replace opts)) w1
  end.
Proof.
  unfold retrieve_files, invoke, modify_map, get_map, set_map, await. cbn [bind exec].
  rewrite types_answer. cbv zeta. unfold before_request.
  destruct (env _ (RetrieveAndPoll _ _)); reflexivity.
Qed.

(** C26: when the retrieve succeeds and every file operation succeeds,
    the files are unzipped into the temporary directory and then, with
    [--replace], [src/*] is removed before the unpacked files are copied
    into [src/]; without it, the unpacked package.xml is removed first so
    that the local one is kept; the temporary directory is removed last. *)
Theorem retrieve_files_calls w zip :
  (forall t, env t (RetrieveAndPoll (replace_first "v" "" apiV) types) = Ok zip) ->
  (forall t d, env t (Unzip zip d) = Ok tt) -> (forall t p, env t (Rimraf p) = Ok tt) ->
  (forall t p, env t (ReadFile Utf8 p) = Ok "") ->
  (forall t s d, env t (CopyDir s d) = Ok tt) ->
  (forall t, env t (PathExists tmp) = true) -> (forall t, env t (RemoveDir tmp) = Ok tt) ->
  fst (exec env (retrieve_files tmp cwd opts apiV filtered) w) = Done tt /\
  calls_made env (retrieve_files tmp cwd opts apiV filtered) w =
    request_calls ++ [Unzip zip tmp] ++
    (if truthy (r_replace opts)
     then [Rimraf "src/*"; ReadFile Utf8 pkg_file]
     else [ReadFile Utf8 pkg_file; Rimraf pkg_file]) ++
    [CopyDir (tmp ++ "/unpackaged/")%string (cwd ++ "/src/")%string; PathExists tmp; RemoveDir tmp].
Proof.
  intros Hr Hu Hrm Hrd Hcp Hex Hrmd. unfold calls_made.
  rewrite exec_retrieve_request, Hr.
  unfold write_files, unzipToTmp, clearSrcDir, copyFiles, removeTmpDir, await, unwrap, log.
  cbn [bind exec with_log w_trace]. rewrite Hu. cbn [bind exec].
  destruct (truthy (r_replace opts));
    repeat (cbn [bind exec with_log w_trace record_call];
            first [rewrite Hrm | rewrite Hrd | rewrite Hcp | rewrite Hex | rewrite Hrmd]);
    simpl; rewrite <- !app_assoc, skipn_trace; auto.
Qed.

(** C27: when the retrieve request or the unzipping fails, the command
    rejects with that error and neither clears nor writes [src/]. *)
Theorem retrieve_failure_keeps_src w e :
  ((forall t, env t (RetrieveAndPoll (replace_first "v" "" apiV) types) = Err e) \/
   (exists zip, (forall t, env t (RetrieveAndPoll (replace_first "v" "" apiV) types) = Ok zip) /\
                (forall t, env t (Unzip zip tmp) = Err e))) ->
  fst (exec env (retrieve_files tmp cwd opts apiV filtered) w) = Rejected e /\
  ~ In (Rimraf "src/*") (calls_made env (retrieve_files tmp cwd opts apiV filtered) w) /\
  (forall s d, ~ In (CopyDir s d) (calls_made env (retrieve_files tmp cwd opts apiV filtered) w)).
Proof.
  unfold calls_made. rewrite exec_retrieve_request.
  intros [Hr|(zip & Hr & Hu)]; rewrite Hr.
  - simpl. rewrite <- !app_assoc, skipn_trace.
    split; [reflexivity|]. split; [|intros s d]; simpl; intuition discriminate.
  - unfold write_files, unzipToTmp, await, unwrap, log. cbn [bind exec with_log w_trace].
    rewrite Hu. cbn [exec].
    simpl. rewrite <- !app_assoc, skipn_trace. unfold request_calls.
    split; [reflexivity|]. split; [|intros s d]; simpl; intuition discriminate.
Qed.
End Writing.

(** ** Listing with nothing found, and termination of the folder walk *)

Section Listing2.
Variable env : Env.

Definition group_query (g : list mdtype) : call := ListMetadata (map query_of (map folder_query g)).

Lemma exec_list_iterator_empty f opts g w :
  (forall t qs, env t (ListMetadata qs) = Ok []) ->
  exec env (list_iterator (S f) opts g) w = (Done (Ok None), record_call (group_query g) w).
Proof.
  intros H. cbn [list_iterator]. unfold await, group_query. rewrite exec_bind. cbn [exec].
  rewrite H. reflexivity.
Qed.

Lemma exec_getFilePaths_empty f opts groups w :
  (forall t qs, env t (ListMetadata qs) = Ok []) ->
  exec env (getFilePaths (S f) opts groups) w = (Done [], append_calls (map group_query groups) w).
Proof.
  intros H. unfold getFilePaths, mapLimit. rewrite exec_bind.
  assert (Hs : forall w', exec env (mapSeries (list_iterator (S f) opts) groups) w' =
                          (Done (Ok (map (fun _ => None) groups)), append_calls (map group_query groups) w')).
  { induction groups as [|g gs IH]; intros w'; [simpl; now rewrite append_calls_nil|].
    rewrite exec_mapSeries_cons, exec_list_iterator_empty, IH by exact H.
    simpl. now rewrite record_call_append, append_calls_app. }
  rewrite Hs. cbn [exec]. clear Hs.
  replace (concat _) with (@nil string); [reflexivity|].
  induction groups as [|g gs IH]; simpl; auto.
Qed.

(** C28: when no group of types lists any file, [retrieve] rejects with
    "no files found for retrieve" after one [listMetadata] request per
    group of at most three types, and retrieves nothing. *)
Theorem retrieve_nothing_listed_rejects fuel tmp cwd opts w ig v idx typs :
  (forall t, env t LoadIgnores = Ok ig) -> (forall t, env t GetClient = Ok v) ->
  (forall t, env t AutoLoad = Ok idx) ->
  (forall t, env t (TypesFromGlobs (retrieve_globs opts)) = typs) ->
  (forall t qs, env t (ListMetadata qs) = Ok []) ->
  fst (exec env (retrieve_run (S fuel) tmp cwd opts) w) = Rejected (Error "no files found for retrieve") /\
  calls_made env (retrieve_run (S fuel) tmp cwd opts) w =
    [LoadIgnores; GetClient; AutoLoad; TypesFromGlobs (retrieve_globs opts)] ++
    map group_query (chunk3 typs).
Proof.
  intros H1 H2 H3 H4 H5. unfold calls_made, retrieve_run, modify_map, set_map, await, get_map, invoke, log.
  cbn [bind exec]. rewrite H1. cbn [exec]. rewrite H2. cbn [exec]. rewrite H3. cbn [bind exec].
  rewrite H4. cbn [exec]. rewrite exec_bind, exec_getFilePaths_empty by exact H5. cbn [exec].
  simpl. rewrite <- !app_assoc, skipn_trace. auto.
Qed.

Lemma folder_member_member ty ty' : folder_member ty = Some ty' -> folder_member ty' = None.
Proof.
  unfold folder_member. intros H.
  repeat match type of H with context [String.eqb ty ?s] =>
    destruct (String.eqb ty s); [injection H as <-; reflexivity|] end.
  discriminate.
Qed.

(** A listing whose answer has no folder resolves without recursion. *)
Lemma mapSeries_no_folder f opts res w :
  Forall (fun md => folder_member (md_type md) = None) res ->
  exists r, fst (exec env (mapSeries (fun md =>
     match folder_member (md_type md) with
     | Some ty => sub <- list_iterator f opts [subfolder_type ty md] ;;
                  match sub with Err e => Ret (Err e) | Ok ps => Ret (Ok (sub_listed ps)) end
     | None => Ret (Ok [LMd md])
     end) res) w) = Done r.
Proof.
  intros Hres. apply mapSeries_done. intros md w' Hin.
  rewrite (proj1 (Forall_forall _ _) Hres md Hin). eexists. reflexivity.
Qed.

Lemma list_iterator_done f opts types w :
  (forall x w', In x (match env (w_trace w) (ListMetadata (map query_of (map folder_query types))) with
                     | Ok res => res | Err _ => [] end) ->
      exists r, fst (exec env (match folder_member (md_type x) with
                  | Some ty => sub <- list_iterator f opts [subfolder_type ty x] ;;
                               match sub with Err e => Ret (Err e) | Ok ps => Ret (Ok (sub_listed ps)) end
                  | None => Ret (Ok [LMd x])
                  end) w') = Done r) ->
  exists r, fst (exec env (list_iterator (S f) opts types) w) = Done r.
Proof.
  intros Hit. cbn [list_iterator]. unfold await. rewrite exec_bind. cbn [exec].
  destruct (env (w_trace w) _) as [res|e]; [|eexists; reflexivity].
  rewrite exec_bind.
  destruct (mapSeries_done env _ res Hit (record_call (ListMetadata (map query_of (map folder_query types))) w)) as [r Hr].
  destruct (exec env (mapSeries _ res) _) as [o w1]. simpl in Hr. subst o.
  destruct r as [[|p ps]|e]; cbn [exec]; eexists; reflexivity.
Qed.

(** C29: the walk over folders terminates at depth two: if the org names
    every folder (non-empty [fullName]) and a listing of non-folder types
    answers no folder, the listing of any group resolves when given two
    levels of fuel. *)
Theorem list_iterator_terminates f opts types w :
  (forall t qs res, env t (ListMetadata qs) = Ok res ->
     Forall (fun md => truthy_str (md_fullName md) = true) res) ->
  (forall t qs res, Forall (fun q => folder_member (fst q) = None) qs ->
     env t (ListMetadata qs) = Ok res -> Forall (fun md => folder_member (md_type md) = None) res) ->
  exists r, fst (exec env (list_iterator (S (S f)) opts types) w) = Done r.
Proof.
  intros Hnamed Hleaf. apply list_iterator_done. intros md w' Hin.
  destruct (folder_member (md_type md)) as [ty|] eqn:Hty; [|eexists; reflexivity].
  rewrite exec_bind.
  assert (Hq : map query_of (map folder_query [subfolder_type ty md]) = [(ty, Some (md_fullName md))]).
  { destruct (env (w_trace w) _) as [res|e] eqn:Hres; [|destruct Hin].
    pose proof (proj1 (Forall_forall _ _) (Hnamed _ _ _ Hres) md Hin) as Hn.
    unfold folder_query, subfolder_type. simpl. now rewrite Hn. }
  destruct (list_iterator_done f opts [subfolder_type ty md] w') as [r Hr].
  - intros x w'' Hx. rewrite Hq in Hx.
    destruct (env (w_trace w') (ListMetadata [(ty, Some (md_fullName md))])) as [res'|e] eqn:Hres';
      [|destruct Hx].
    assert (Hleafq : Forall (fun q => folder_member (fst q) = None) [(ty, Some (md_fullName md))])
      by (constructor; [exact (folder_member_member _ _ Hty)|constructor]).
    rewrite (proj1 (Forall_forall _ _) (Hleaf _ _ _ Hleafq Hres') x Hx). eexists. reflexivity.
  - destruct (exec env (list_iterator (S f) opts [subfolder_type ty md]) w') as [o w1].
    simpl in Hr. subst o. destruct r as [ps|e]; eexists; reflexivity.
Qed.
End Listing2.

(** ** A concrete org *)

Definition doc_type : mdtype := {| t_name := "Document"; t_subFolder := None; t_folder := JStr "documents" |}.
Definition apex_type : mdtype := {| t_name := "ApexClass"; t_subFolder := None; t_folder := JStr "classes" |}.

Definition shared_folder : fileProperties :=
  {| md_type := "DocumentFolder"; md_fullName := "Shared"; md_fileName := "documents/Shared";
     md_namespacePrefix := Some "acme" |}.
Definition logo : fileProperties :=
  {| md_type := "Document"; md_fullName := "Shared/logo"; md_fileName := "documents/Shared/logo.png";
     md_namespacePrefix := Some "acme" |}.
Definition class_a : fileProperties :=
  {| md_type := "ApexClass"; md_fullName := "A"; md_fileName := "classes/A.cls";
     md_namespacePrefix := Some "acme" |}.

(** The org's answer to one query: a document folder [Shared] holding
    [logo], and the class [A], all in the namespace [acme]. *)
Definition answer_of_query (q : string * option string) : list fileProperties :=
  match q with
  | (n, None) =>
      if String.eqb n "DocumentFolder" then [shared_folder]
      else if String.eqb n "ApexClass" then [class_a] else []
  | (n, Some f) => if String.eqb n "Document" && String.eqb f "Shared" then [logo] else []
  end.

Definition retrieve_env (listing : list (string * option string) -> list fileProperties)
    (r : result jserr string) : Env := fun t c =>
  match c return resp_of c with
  | FetchIds => Ok []
  | ToolingInsert _ => Ok "id"
  | ReadFile _ _ => Ok ""
  | StaticResourceWrite _ _ _ _ => Ok tt
  | CreateContainer name => Ok name
  | CreateDeployArtifact _ _ _ => true
  | AddContainerArtifact _ _ _ _ => Ok tt
  | DeployContainer cid => Ok cid
  | GetContainerDeployStatus _ => Err (Error "unused")
  | DeleteContainer _ => Ok tt
  | PathExists _ => true
  | Lstat _ => Ok false
  | MetaDeployAndPoll _ => tt
  | ArchiveFinalize _ => tt
  | MetaDeployResult => Ok None
  | DateNow => 0%Z
  | LoadConfig => Ok tt
  | LoadIgnores => Ok []
  | GetClient => Ok "v58.0"
  | AutoLoad => Ok (["Document"; "ApexClass"], [])
  | ConfigGet _ => JUndefined
  | GetFiles globs _ => Ok globs
  | AddFiles _ => []
  | Glob g => Ok [g]
  | TypesFromGlobs gs => if existsb (String.eqb "src/classes/**") gs then [doc_type; apex_type] else [doc_type]
  | ListMetadata qs => Ok (listing qs)
  | FilterOnGlobs ps _ _ => Ok ps
  | CreateTypesArray => [("Document", ["Shared/logo"])]
  | RetrieveAndPoll _ _ => r
  | Unzip _ _ => Ok tt
  | Rimraf _ => Ok tt
  | CopyDir _ _ => Ok tt
  | RemoveDir _ => Ok tt
  end.

Definition acme_org : Env := retrieve_env (flat_map answer_of_query) (Ok "zip").

Definition ns_opts (all : jsval) (ns : option string) : retrieve_opts :=
  {| r_all := all; r_ns := ns; r_replace := JUndefined; r_globs := ["src/documents/**"] |}.

Definition retrieve_world : world :=
  {| w_guard := 0; w_map := createMap; w_trace := []; w_log := [] |}.

(** [retrieve --ns acme] of the org's documents finds nothing and
    rejects, although the document [Shared/logo] is in [acme];
    [retrieve --all] retrieves it. *)
Example ns_retrieve_loses_documents :
  fst (exec acme_org (retrieve_run 3 "/tmp/dmc" "/work" (ns_opts JUndefined (Some "acme")))
            retrieve_world) = Rejected (Error "no files found for retrieve") /\
  In (RetrieveAndPoll "58.0" [("Document", ["Shared/logo"])])
     (calls_made acme_org (retrieve_run 3 "/tmp/dmc" "/work" (ns_opts (JBool true) None)) retrieve_world).
Proof. split; vm_compute; [reflexivity | tauto]. Qed.

(** ** Witnesses *)

Lemma ns_drops_subfolder_paths_witness :
  exists md, In md [shared_folder; class_a] /\ folder_member (md_type md) = None /\
             local_path (map folder_query [doc_type; apex_type]) (LMd md) = Ok "src/classes/A.cls".
Proof.
  apply (ns_drops_subfolder_paths acme_org 1 (ns_opts JUndefined (Some "acme")) [doc_type; apex_type]
           retrieve_world ["src/classes/A.cls"]
           (snd (exec acme_org (list_iterator 2 (ns_opts JUndefined (Some "acme")) [doc_type; apex_type])
                      retrieve_world))).
  - reflexivity.
  - exists "acme". split; reflexivity.
  - vm_compute. reflexivity.
  - vm_compute. reflexivity.
  - left. reflexivity.
Defined.

Lemma retrieve_files_calls_witness :
  calls_made acme_org (retrieve_files "/tmp/dmc" "/work" (ns_opts (JBool true) None) "v58.0" ["a"])
             retrieve_world =
  [AddFiles ["a"]; CreateTypesArray; RetrieveAndPoll "58.0" [("Document", ["Shared/logo"])];
   Unzip "zip" "/tmp/dmc"; ReadFile Utf8 "/tmp/dmc/unpackaged/package.xml";
   Rimraf "/tmp/dmc/unpackaged/package.xml"; CopyDir "/tmp/dmc/unpackaged/" "/work/src/";
   PathExists "/tmp/dmc"; RemoveDir "/tmp/dmc"].
Proof.
  exact (proj2 (retrieve_files_calls acme_org "/tmp/dmc" "/work" "v58.0" (ns_opts (JBool true) None)
    ["a"] [("Document", ["Shared/logo"])] (fun _ => eq_refl) retrieve_world "zip"
    (fun _ => eq_refl) (fun _ _ => eq_refl) (fun _ _ => eq_refl) (fun _ _ => eq_refl)
    (fun _ _ _ => eq_refl) (fun _ => eq_refl) (fun _ => eq_refl))).
Defined.

Lemma retrieve_failure_keeps_src_witness :
  fst (exec (retrieve_env (flat_map answer_of_query) (Err (Error "timeout")))
            (retrieve_files "/tmp/dmc" "/work" (ns_opts (JBool true) None) "v58.0" ["a"])
            retrieve_world) = Rejected (Error "timeout").
Proof.
  exact (proj1 (retrieve_failure_keeps_src (retrieve_env (flat_map answer_of_query) (Err (Error "timeout")))
    "/tmp/dmc" "/work" "v58.0" (ns_opts (JBool true) None) ["a"] [("Document", ["Shared/logo"])]
    (fun _ => eq_refl) retrieve_world (Error "timeout") (or_introl (fun _ => eq_refl)))).
Defined.

Lemma retrieve_nothing_listed_rejects_witness :
  calls_made (retrieve_env (fun _ => []) (Ok "zip"))
             (retrieve_run 2 "/tmp/dmc" "/work" (ns_opts JUndefined None)) retrieve_world =
  [LoadIgnores; GetClient; AutoLoad; TypesFromGlobs ["src/documents/**"];
   ListMetadata [("DocumentFolder", None)]].
Proof.
  rewrite (proj2 (retrieve_nothing_listed_rejects (retrieve_env (fun _ => []) (Ok "zip")) 1
    "/tmp/dmc" "/work" (ns_opts JUndefined None) retrieve_world [] "v58.0" (["Document"; "ApexClass"], [])
    [doc_type] (fun _ => eq_refl) (fun _ => eq_refl) (fun _ => eq_refl) (fun _ => eq_refl)
    (fun _ _ => eq_refl))).
  vm_compute. reflexivity.
Defined.

Lemma answers_named q : Forall (fun md => truthy_str (md_fullName md) = true) (answer_of_query q).
Proof.
  destruct q as [n [f|]]; simpl;
    repeat match goal with |- context [if ?b then _ else _] => destruct b end; repeat constructor.
Qed.

Lemma answers_leaf q :
  folder_member (fst q) = None -> Forall (fun md => folder_member (md_type md) = None) (answer_of_query q).
Proof.
  destruct q as [n [f|]]; simpl; intros H;
    [destruct (String.eqb n "Document" && String.eqb f "Shared"); repeat constructor|].
  destruct (String.eqb_spec n "DocumentFolder") as [->|_]; [discriminate|].
  destruct (String.eqb n "ApexClass"); repeat constructor.
Qed.

Lemma list_iterator_terminates_witness :
  exists r, fst (exec acme_org (list_iterator 2 (ns_opts JUndefined (Some "acme")) [doc_type; apex_type])
                      retrieve_world) = Done r.
Proof.
  apply (list_iterator_terminates acme_org 0 (ns_opts JUndefined (Some "acme")) [doc_type; apex_type]
           retrieve_world).
  - intros t qs res H. injection H as <-. apply Forall_forall. intros md Hmd.
    apply in_flat_map in Hmd as (q & _ & Hq). exact (proj1 (Forall_forall _ _) (answers_named q) md Hq).
  - intros t qs res Hqs H. injection H as <-. apply Forall_forall. intros md Hmd.
    apply in_flat_map in Hmd as (q & Hin & Hq).
    exact (proj1 (Forall_forall _ _) (answers_leaf q (proj1 (Forall_forall _ _) Hqs q Hin)) md Hq).
Defined.
